(** * The room coordinator of the multiplayer arena game

    A shallow embedding of the server class [Server] (join/leave, combat
    resolution, powerup spawning and the room tick) together with the
    properties of its state that the specification promises.

    Conventions of the embedding.
    - JavaScript numbers that the coordinator stores (coordinates, health,
      score, damage, timestamps, durations) are integers of [Z]; the draws of
      [Math.random] are rationals of [Q].
    - An object field that may be missing is an [option]; the JavaScript
      idiom [v || d] is [js_or].
    - The platform objects [$global] and [$room] are not part of the
      repository: they are modelled as a key/value store with merge updates
      and a broadcast channel.  A read of the store returns a copy of what
      is stored.
    - Every [await] of the source is one primitive of the monad [M]; [throw]
      is the outcome [Throw], and state written before a throw stays
      written.
    - [Date.now()] and [Math.random()] read the next value of a stream that
      the world carries, so that every call is a reading of its own.

    Organisation: the data model, the monad and the platform; the methods of
    [Server]; the vocabulary of the properties and some sample worlds; then
    the properties, method by method, and the two invariants (health bounds,
    single obstacle layout) over sequences of calls and ticks. *)

From Stdlib Require Import ZArith QArith Qround String Ascii List Lia.
From Stdlib Require Import DecimalString DecimalZ.
From stdpp Require Import base option list gmap strings fin_maps.

Local Open Scope Z_scope.

(** ** Data model *)

(** The per-user state kept by [$room.updateMyState] / [updateUserState].
    A patch handed to those calls has the same shape: a field that is [None]
    is not part of the patch. *)
Module Player.
Record t : Type := mk {
  x : option Z;
  y : option Z;
  angle : option Z;
  health : option Z;
  score : option Z;
  name : option string
}.
End Player.

Module Powerup.
Record t : Type := mk {
  id : string;
  x : Z;
  y : Z;
  type : option string;
  createdAt : Z
}.
End Powerup.

(** An obstacle is the object literal [{ x, y }]. *)
Module Obstacle.
Record t : Type := mk { x : Z; y : Z }.
End Obstacle.

(** The room-scoped state of [$room.getRoomState] / [updateRoomState]; again
    a patch has the same shape. *)
Module RoomState.
Record t : Type := mk {
  initialized : option bool;
  gameTime : option Z;
  powerups : option (list Powerup.t);
  obstacles : option (list Obstacle.t);
  lastPowerupSpawn : option Z
}.
End RoomState.

(** One room of the platform: who is in it, the per-user states and the room
    state. *)
Record Room : Type := mkRoom {
  members : list string;
  userStates : gmap string Player.t;
  roomState : RoomState.t
}.

(** Payload of a broadcast. *)
Inductive Payload : Type :=
| ProjectilePayload (projectileData : string)
| PowerupPayload (powerupData : Powerup.t).

Record Broadcast : Type := mkBroadcast {
  toRoom : string;
  eventName : string;
  payload : Payload
}.

(** The world the coordinator runs in.
    - [rooms], [session]: the platform's rooms and the room each account is
      currently in;
    - [allocated], [allocations]: the room ids the platform hands out when a
      join names no room, and how many it has handed out;
    - [clock], [clockReads]: the successive results of [Date.now()];
    - [random], [randomDraws]: the successive results of [Math.random()];
    - [journal]: every [updateRoomState] performed, oldest first;
    - [outbox]: every [broadcastToRoom] performed, oldest first. *)
Record World : Type := mkWorld {
  rooms : gmap string Room;
  session : gmap string string;
  allocated : nat -> string;
  allocations : nat;
  clock : nat -> Z;
  clockReads : nat;
  random : nat -> Q;
  randomDraws : nat;
  journal : list (string * RoomState.t);
  outbox : list Broadcast
}.

(** ** JavaScript idioms *)

(** [v || d] on a numeric field: a missing field and the number 0 are both
    falsy. *)
Definition js_or (v : option Z) (d : Z) : Z :=
  match v with
  | Some n => if n =? 0 then d else n
  | None => d
  end.

(** Truthiness of an optional string argument ([roomId], [killerId]): it is
    present and not the empty string. *)
Definition truthy (s : option string) : bool :=
  match s with
  | Some EmptyString => false
  | Some _ => true
  | None => false
  end.

(** Truthiness of an optional boolean field. *)
Definition truthy_flag (b : option bool) : bool :=
  match b with
  | Some true => true
  | _ => false
  end.

(** The text a template literal gives an integer. *)
Definition string_of_Z (n : Z) : string :=
  NilEmpty.string_of_int (Z.to_int n).

(** A patch field overrides the stored one when it is present. *)
Definition override {A : Type} (new old : option A) : option A :=
  match new with
  | Some v => Some v
  | None => old
  end.

(** A player state without fields, and the merge of a patch into a player
    state. *)
Definition emptyPlayer : Player.t :=
  Player.mk None None None None None None.

Definition mergePlayer (patch old : Player.t) : Player.t :=
  Player.mk
    (override (Player.x patch) (Player.x old))
    (override (Player.y patch) (Player.y old))
    (override (Player.angle patch) (Player.angle old))
    (override (Player.health patch) (Player.health old))
    (override (Player.score patch) (Player.score old))
    (override (Player.name patch) (Player.name old)).

(** The same for room states. *)
Definition emptyRoomState : RoomState.t :=
  RoomState.mk None None None None None.

Definition mergeRoomState (patch old : RoomState.t) : RoomState.t :=
  RoomState.mk
    (override (RoomState.initialized patch) (RoomState.initialized old))
    (override (RoomState.gameTime patch) (RoomState.gameTime old))
    (override (RoomState.powerups patch) (RoomState.powerups old))
    (override (RoomState.obstacles patch) (RoomState.obstacles old))
    (override (RoomState.lastPowerupSpawn patch) (RoomState.lastPowerupSpawn old)).

(** A room just created. *)
Definition emptyRoom : Room := mkRoom [] ∅ emptyRoomState.

(** ** The monad of handlers *)

(** A handler returns a value or throws; either way it leaves a world. *)
Inductive outcome (A : Type) : Type :=
| Return (a : A)
| Throw (e : string).
Arguments Return {A} a.
Arguments Throw {A} e.

Definition M (A : Type) : Type := World -> outcome A * World.

#[global] Instance M_ret : MRet M := fun A a w => (Return a, w).

#[global] Instance M_bind : MBind M := fun A B f m w =>
  match m w with
  | (Return a, w') => f a w'
  | (Throw e, w') => (Throw e, w')
  end.

(** [throw new Error(e)]. *)
Definition throw {A : Type} (e : string) : M A := fun w => (Throw e, w).

(** [try { body } catch (error) { handler }]. *)
Definition tryCatch {A : Type} (body : M A) (handler : string -> M A) : M A :=
  fun w =>
    match body w with
    | (Return a, w') => (Return a, w')
    | (Throw e, w') => handler e w'
    end.

(** Reading and changing the world. *)
Definition gets {A : Type} (f : World -> A) : M A := fun w => (Return (f w), w).
Definition modify (f : World -> World) : M unit := fun w => (Return tt, f w).

(** The world after running a handler, and its outcome. *)
Definition exec {A : Type} (m : M A) (w : World) : World := snd (m w).
Definition eval {A : Type} (m : M A) (w : World) : outcome A := fst (m w).

(** ** The platform: clock, random source, [$global] and [$room] *)

(** The world with its rooms, or its sessions, replaced. *)
Definition setRooms (rs : gmap string Room) (w : World) : World :=
  mkWorld rs (session w) (allocated w) (allocations w) (clock w) (clockReads w)
    (random w) (randomDraws w) (journal w) (outbox w).

Definition setSession (s : gmap string string) (w : World) : World :=
  mkWorld (rooms w) s (allocated w) (allocations w) (clock w) (clockReads w)
    (random w) (randomDraws w) (journal w) (outbox w).

(** [Date.now()]: the next reading of the clock. *)
Definition dateNow : M Z := fun w =>
  (Return (clock w (clockReads w)),
   mkWorld (rooms w) (session w) (allocated w) (allocations w) (clock w)
     (S (clockReads w)) (random w) (randomDraws w) (journal w) (outbox w)).

(** [Math.random()]: the next draw of the random source. *)
Definition mathRandom : M Q := fun w =>
  (Return (random w (randomDraws w)),
   mkWorld (rooms w) (session w) (allocated w) (allocations w) (clock w)
     (clockReads w) (random w) (S (randomDraws w)) (journal w) (outbox w)).

(** [Math.floor(Math.random() * scale)]. *)
Definition randomBelow (scale : Z) : M Z :=
  r ← mathRandom; mret (Qfloor (Qmult r (inject_Z scale))).

(** [Math.floor(Math.random() * 1800) + 100]. *)
Definition randomCoordinate : M Z :=
  n ← randomBelow 1800; mret (n + 100).

(** Who runs a handler: a client account (whose room is the one of its
    session) or the tick scheduler, for a given room. *)
Inductive Ctx : Type :=
| AsUser (account : string)
| AsTick (roomId : string).

(** The room that [$room] denotes in a handler. *)
Definition currentRoom (ctx : Ctx) : M string := fun w =>
  match ctx with
  | AsTick rid => (Return rid, w)
  | AsUser me =>
      match session w !! me with
      | Some rid => (Return rid, w)
      | None => (Throw "not in a room", w)
      end
  end.

(** Modelled from the spec: [$global.getRoomUserAccounts(roomId)], the
    accounts present in a room; nothing for a room that does not exist. *)
Definition getRoomUserAccounts (roomId : string) : M (option (list string)) :=
  gets (fun w => members <$> rooms w !! roomId).

(** The room without the account [me] and its player state. *)
Definition removeMember (me : string) (r : Room) : Room :=
  mkRoom (filter (fun a => a ≠ me) (members r)) (delete me (userStates r))
    (roomState r).

(** Modelled from the spec: [$global.leaveRoom()] removes the caller and its
    player state from its room and is a no-op for a caller in no room. *)
Definition globalLeaveRoom (me : string) : M unit := fun w =>
  match session w !! me with
  | Some rid =>
      (Return tt,
       setSession (delete me (session w))
         (setRooms (alter (removeMember me) rid (rooms w)) w))
  | None => (Return tt, w)
  end.

(** The room with the account [me] added to its occupants. *)
Definition addMember (me : string) (r : Room) : Room :=
  mkRoom (members r ++ [me]) (userStates r) (roomState r).

(** The next room id of the platform, for a join that names no room. *)
Definition allocateRoom : M string := fun w =>
  (Return (allocated w (allocations w)),
   mkWorld (rooms w) (session w) (allocated w) (S (allocations w)) (clock w)
     (clockReads w) (random w) (randomDraws w) (journal w) (outbox w)).

(** Modelled from the spec: [$global.joinRoom(roomId)] joins the named room,
    creating it when it does not exist, or a room whose id the platform
    allocates when none is named; the caller first leaves the room it was
    in. *)
Definition globalJoinRoom (me : string) (roomId : option string) : M string :=
  rid ← (match roomId with
         | Some r => if truthy roomId then mret r else allocateRoom
         | None => allocateRoom
         end);
  globalLeaveRoom me;;
  modify (fun w =>
    setSession (<[me := rid]> (session w))
      (setRooms (<[rid := addMember me (default emptyRoom (rooms w !! rid))]> (rooms w)) w));;
  mret rid.

(** Modelled from the spec: [$room.getRoomState()], the state of the current
    room; nothing when the room does not exist. *)
Definition getRoomState (ctx : Ctx) : M (option RoomState.t) :=
  rid ← currentRoom ctx;
  gets (fun w => roomState <$> rooms w !! rid).

(** Modelled from the spec: [$room.updateRoomState(patch)] merges the patch
    into the state of the current room; it fails when there is no such
    room. Each call is recorded in the journal. *)
Definition updateRoomState (ctx : Ctx) (patch : RoomState.t) : M unit :=
  rid ← currentRoom ctx;
  (fun w =>
    match rooms w !! rid with
    | Some r =>
        (Return tt,
         mkWorld
           (<[rid := mkRoom (members r) (userStates r)
                       (mergeRoomState patch (roomState r))]> (rooms w))
           (session w) (allocated w) (allocations w) (clock w) (clockReads w)
           (random w) (randomDraws w) (journal w ++ [(rid, patch)]) (outbox w))
    | None => (Throw "room not found", w)
    end) : M unit.

(** Modelled from the spec: [$room.getUserState(id)], the player state of an
    account in the current room; nothing when there is none. *)
Definition getUserState (ctx : Ctx) (id : string) : M (option Player.t) :=
  rid ← currentRoom ctx;
  gets (fun w => r ← rooms w !! rid; userStates r !! id).

(** Modelled from the spec: [$room.updateUserState(id, patch)] merges the
    patch into the player state of [id] in the current room, starting from
    the empty state when there is none. *)
Definition updateUserState (ctx : Ctx) (id : string) (patch : Player.t) : M unit :=
  rid ← currentRoom ctx;
  (fun w =>
    match rooms w !! rid with
    | Some r =>
        (Return tt,
         setRooms
           (<[rid := mkRoom (members r)
                       (<[id := mergePlayer patch
                                  (default emptyPlayer (userStates r !! id))]>
                          (userStates r))
                       (roomState r)]> (rooms w)) w)
    | None => (Throw "room not found", w)
    end) : M unit.

(** [$room.updateMyState(patch)]: the caller's own player state. *)
Definition updateMyState (ctx : Ctx) (patch : Player.t) : M unit :=
  match ctx with
  | AsUser me => updateUserState ctx me patch
  | AsTick _ => throw "no caller"
  end.

(** [$room.broadcastToRoom(event, payload)]. *)
Definition broadcastToRoom (ctx : Ctx) (event : string) (p : Payload) : M unit :=
  rid ← currentRoom ctx;
  modify (fun w =>
    mkWorld (rooms w) (session w) (allocated w) (allocations w) (clock w)
      (clockReads w) (random w) (randomDraws w) (journal w)
      (outbox w ++ [mkBroadcast rid event p])).

(** ** The class [Server] *)

(** The constants set by the constructor. *)
Definition MAX_PLAYERS_PER_ROOM : nat := 8.
Definition POWERUP_SPAWN_INTERVAL : Z := 10000.
Definition POWERUP_TYPES : list string := ["health"; "speed"]%string.
Definition OBSTACLE_COUNT : nat := 30.

(** [catch (error) { console.error(...); throw error; }]: the handler of
    every client-facing method only logs and throws the error again. *)
Definition logged {A : Type} (body : M A) : M A :=
  tryCatch body (fun error => throw error).

(** The [for] loop of [generateObstacles], with [remaining] iterations to
    go. *)
Fixpoint obstacleLoop (remaining : nat) (obstacles : list Obstacle.t)
  : M (list Obstacle.t) :=
  match remaining with
  | O => mret obstacles
  | S n =>
      x ← randomCoordinate;
      y ← randomCoordinate;
      obstacleLoop n (obstacles ++ [Obstacle.mk x y])
  end.

(** [generateObstacles()]: [OBSTACLE_COUNT] obstacles with random
    coordinates. *)
Definition generateObstacles : M (list Obstacle.t) :=
  obstacleLoop OBSTACLE_COUNT [].

(** The first half of [joinRoom]: capacity check, join, initial player
    state, and the read of the room state. *)
Definition joinRoomEnter (me : string) (roomId : option string)
  : M (string * option RoomState.t) :=
  (if truthy roomId then
     roomUsers ← getRoomUserAccounts (default EmptyString roomId);
     match roomUsers with
     | Some users =>
         if decide (MAX_PLAYERS_PER_ROOM ≤ length users)%nat
         then throw "Room is full"
         else mret tt
     | None => mret tt
     end
   else mret tt);;
  joinedRoomId ← globalJoinRoom me roomId;
  x ← randomCoordinate;
  y ← randomCoordinate;
  updateMyState (AsUser me)
    (Player.mk (Some x) (Some y) None (Some 100) (Some 0) None);;
  roomState ← getRoomState (AsUser me);
  mret (joinedRoomId, roomState).

(** The second half of [joinRoom]: the room is initialised when the room
    state that was read is not. *)
Definition joinRoomInit (me : string) (read : string * option RoomState.t)
  : M string :=
  match snd read with
  | None => throw "roomState is null"
  | Some roomState =>
      (if negb (truthy_flag (RoomState.initialized roomState)) then
         obstacles ← generateObstacles;
         now ← dateNow;
         updateRoomState (AsUser me)
           (RoomState.mk (Some true) (Some 0) (Some []) (Some obstacles) (Some now))
       else mret tt);;
      mret (fst read)
  end.

(** [joinRoom(roomId)], called by the account [me]. *)
Definition joinRoom (me : string) (roomId : option string) : M string :=
  logged (read ← joinRoomEnter me roomId; joinRoomInit me read).

(** [leaveRoom()]. *)
Definition leaveRoom (me : string) : M string :=
  logged (globalLeaveRoom me;; mret "success"%string).

(** [setPlayerData(data)], where [name] is [data.name]. *)
Definition setPlayerData (me : string) (name : option string) : M string :=
  logged (updateMyState (AsUser me) (Player.mk None None None None None name);;
          mret "success"%string).

(** The argument of [updatePlayerPosition]. *)
Record PositionData : Type := mkPositionData {
  data_x : option Z;
  data_y : option Z;
  data_angle : option Z;
  data_health : option Z
}.

(** [updatePlayerPosition(data)]: the four fields are stored as they
    come. *)
Definition updatePlayerPosition (me : string) (data : PositionData) : M string :=
  logged (updateMyState (AsUser me)
            (Player.mk (data_x data) (data_y data) (data_angle data)
               (data_health data) None None);;
          mret "success"%string).

(** [fireProjectile(projectileData)]. *)
Definition fireProjectile (me : string) (projectileData : string) : M string :=
  logged (broadcastToRoom (AsUser me) "projectileFired" (ProjectilePayload projectileData);;
          mret "success"%string).

(** The argument of [playerHit]. *)
Record HitData : Type := mkHitData {
  targetId : string;
  attackerId : string;
  damage : Z
}.

(** [playerHit(data)]. *)
Definition playerHit (me : string) (data : HitData) : M string :=
  logged (
    targetState ← getUserState (AsUser me) (targetId data);
    match targetState with
    | None => mret "player not found"%string
    | Some targetState =>
        let newHealth := Z.max 0 (js_or (Player.health targetState) 100 - damage data) in
        updateUserState (AsUser me) (targetId data)
          (Player.mk None None None (Some newHealth) None None);;
        mret "success"%string
    end).

(** The argument of [playerDied]. *)
Record DeathData : Type := mkDeathData {
  playerId : string;
  killerId : option string
}.

(** [playerDied(data)]. *)
Definition playerDied (me : string) (data : DeathData) : M string :=
  logged (
    updateUserState (AsUser me) (playerId data)
      (Player.mk None None None (Some 100) None None);;
    (match killerId data with
     | Some killer =>
         if truthy (killerId data) && bool_decide (killer ≠ playerId data) then
           killerState ← getUserState (AsUser me) killer;
           match killerState with
           | Some killerState =>
               let newScore := js_or (Player.score killerState) 0 + 1 in
               updateUserState (AsUser me) killer
                 (Player.mk None None None None (Some newScore) None)
           | None => mret tt
           end
         else mret tt
     | None => mret tt
     end);;
    mret "success"%string).

(** [spawnPowerup(roomId)], called by a client or by the tick.  Its body
    does not use [roomId]: the room is the one of the context. *)
Definition spawnPowerup (ctx : Ctx) : M string :=
  logged (
    roomState ← getRoomState ctx;
    stamp ← dateNow;
    let powerupId := ("powerup_" ++ string_of_Z stamp)%string in
    index ← randomBelow (Z.of_nat (length POWERUP_TYPES));
    let powerupType :=
      if index <? 0 then None else POWERUP_TYPES !! Z.to_nat index in
    x ← randomCoordinate;
    y ← randomCoordinate;
    createdAt ← dateNow;
    let powerupData := Powerup.mk powerupId x y powerupType createdAt in
    match roomState with
    | None => throw "roomState is null"
    | Some roomState =>
        let powerups := default [] (RoomState.powerups roomState) ++ [powerupData] in
        now ← dateNow;
        updateRoomState ctx
          (RoomState.mk None None (Some powerups) None (Some now));;
        broadcastToRoom ctx "powerupSpawned" (PowerupPayload powerupData);;
        mret "success"%string
    end).

(** [collectPowerup(powerupId)]. *)
Definition collectPowerup (me : string) (powerupId : string) : M string :=
  logged (
    roomState ← getRoomState (AsUser me);
    match roomState with
    | None => throw "roomState is null"
    | Some roomState =>
        let powerups :=
          filter (fun p => Powerup.id p ≠ powerupId)
                 (default [] (RoomState.powerups roomState)) in
        updateRoomState (AsUser me)
          (RoomState.mk None None (Some powerups) None None);;
        mret "success"%string
    end).

(** The expiry test of the tick: [currentTime - p.createdAt < 30000]. *)
Definition fresh (currentTime : Z) (p : Powerup.t) : bool :=
  currentTime - Powerup.createdAt p <? 30000.

(** [$roomTick(deltaMS, roomId)]; its [catch] logs and swallows the error. *)
Definition roomTick (deltaMS : Z) (roomId : string) : M unit :=
  let ctx := AsTick roomId in
  tryCatch (
    roomState ← getRoomState ctx;
    match roomState with
    | None => mret tt
    | Some roomState =>
        let gameTime := js_or (RoomState.gameTime roomState) 0 + deltaMS in
        updateRoomState ctx (RoomState.mk None (Some gameTime) None None None);;
        let lastPowerupSpawn := js_or (RoomState.lastPowerupSpawn roomState) 0 in
        now ← dateNow;
        (if POWERUP_SPAWN_INTERVAL <? now - lastPowerupSpawn
         then spawnPowerup ctx;; mret tt
         else mret tt);;
        match RoomState.powerups roomState with
        | Some old =>
            if (0 <? length old)%nat then
              currentTime ← dateNow;
              let powerups := List.filter (fresh currentTime) old in
              if negb (length powerups =? length old)%nat
              then updateRoomState ctx (RoomState.mk None None (Some powerups) None None)
              else mret tt
            else mret tt
        | None => mret tt
        end
    end)
    (fun _ => mret tt).

(** ** Client calls and scheduler ticks *)

(** The remote functions a client can call. *)
Inductive Call : Type :=
| JoinRoom (roomId : option string)
| LeaveRoom
| SetPlayerData (name : option string)
| UpdatePlayerPosition (data : PositionData)
| FireProjectile (projectileData : string)
| PlayerHit (data : HitData)
| PlayerDied (data : DeathData)
| SpawnPowerup (roomId : option string)
| CollectPowerup (powerupId : string).

(** The handler of a remote call made by the account [me]. *)
Definition serve (me : string) (c : Call) : M string :=
  match c with
  | JoinRoom roomId => joinRoom me roomId
  | LeaveRoom => leaveRoom me
  | SetPlayerData name => setPlayerData me name
  | UpdatePlayerPosition data => updatePlayerPosition me data
  | FireProjectile projectileData => fireProjectile me projectileData
  | PlayerHit data => playerHit me data
  | PlayerDied data => playerDied me data
  | SpawnPowerup _ => spawnPowerup (AsUser me)
  | CollectPowerup powerupId => collectPowerup me powerupId
  end.

(** What happens to a world: a client call or a tick of a room. *)
Inductive Event : Type :=
| Rpc (caller : string) (c : Call)
| Tick (deltaMS : Z) (roomId : string).

(** The world after an event. *)
Definition handle (e : Event) (w : World) : World :=
  match e with
  | Rpc me c => exec (serve me c) w
  | Tick deltaMS roomId => exec (roomTick deltaMS roomId) w
  end.

(** Events handled one after the other, each to completion. *)
Definition run (es : list Event) (w : World) : World :=
  fold_left (fun w e => handle e w) es w.

(** ** Observations *)

(** The player state, the health and the score field of the account [id]
    in the room [rid]. *)
Definition playerOf (w : World) (rid id : string) : option Player.t :=
  r ← rooms w !! rid; userStates r !! id.

Definition healthOf (w : World) (rid id : string) : option Z :=
  p ← playerOf w rid id; Player.health p.

Definition scoreFieldOf (w : World) (rid id : string) : option Z :=
  p ← playerOf w rid id; Player.score p.

(** The score as the coordinator reads it: 0 when there is none. *)
Definition scoreOf (w : World) (rid id : string) : Z :=
  js_or (scoreFieldOf w rid id) 0.

(** The room state, the powerups and the number of occupants of the room
    [rid]. *)
Definition roomStateOf (w : World) (rid : string) : option RoomState.t :=
  roomState <$> rooms w !! rid.

Definition powerupsOf (w : World) (rid : string) : list Powerup.t :=
  default [] (st ← roomStateOf w rid; RoomState.powerups st).

Definition occupancy (w : World) (rid : string) : nat :=
  length (default [] (members <$> rooms w !! rid)).

(** ** Vocabulary of the properties *)

(** The room that [$room] denotes for a context, when there is one. *)
Definition roomOf (w : World) (ctx : Ctx) : option string :=
  match ctx with
  | AsTick rid => Some rid
  | AsUser me => session w !! me
  end.

(** [Math.floor(Math.random() * scale)] for the draw [k] draws ahead. *)
Definition drawnBelow (w : World) (k : nat) (scale : Z) : Z :=
  Qfloor (Qmult (random w (k + randomDraws w)) (inject_Z scale)).

(** The powerup that [spawnPowerup] builds in the world [w], given the two
    clock readings it uses for the id and for [createdAt]. *)
Definition spawnedPowerup (w : World) (stamp createdAt : Z) : Powerup.t :=
  Powerup.mk ("powerup_" ++ string_of_Z stamp)
    (drawnBelow w 1 1800 + 100) (drawnBelow w 2 1800 + 100)
    (if drawnBelow w 0 2 <? 0 then None
     else POWERUP_TYPES !! Z.to_nat (drawnBelow w 0 2))
    createdAt.

(** The patch that [spawnPowerup] writes. *)
Definition spawnPatch (st : RoomState.t) (p : Powerup.t) (now : Z) : RoomState.t :=
  RoomState.mk None None (Some (default [] (RoomState.powerups st) ++ [p])) None
    (Some now).

(** What a tick of the room [r] at clock reading [now] derives from the
    room state it reads at its start: the list of powerups, whether a spawn
    is due, the powerups that have not expired, whether some have, and the
    powerup a spawn creates. *)
Definition tickOld (r : Room) : list Powerup.t :=
  default [] (RoomState.powerups (roomState r)).
Definition tickDue (r : Room) (now : Z) : bool :=
  POWERUP_SPAWN_INTERVAL <? now - js_or (RoomState.lastPowerupSpawn (roomState r)) 0.
Definition tickKept (r : Room) (now : Z) : list Powerup.t :=
  List.filter (fresh now) (tickOld r).
Definition tickStale (r : Room) (now : Z) : bool :=
  negb (length (tickKept r now) =? length (tickOld r))%nat.
Definition tickSpawned (w : World) (now : Z) : Powerup.t :=
  spawnedPowerup w now now.

(** The patches a tick writes for the game time and for the cleanup. *)
Definition gameTimePatch (r : Room) (deltaMS : Z) : RoomState.t :=
  RoomState.mk None (Some (js_or (RoomState.gameTime (roomState r)) 0 + deltaMS))
    None None None.
Definition cleanupPatch (r : Room) (now : Z) : RoomState.t :=
  RoomState.mk None None (Some (tickKept r now)) None None.

(** The coordinate [Math.floor(r * 1800) + 100] of a draw [r]. *)
Definition coordinateOf (r : Q) : Z := Qfloor (Qmult r (inject_Z 1800)) + 100.

(** The layout that [count] iterations of the loop of [generateObstacles]
    produce from the draws [from], [from + 1], ... of a random source. *)
Fixpoint drawnObstacles (source : nat -> Q) (from count : nat) : list Obstacle.t :=
  match count with
  | O => []
  | S n =>
      Obstacle.mk (coordinateOf (source from)) (coordinateOf (source (S from)))
        :: drawnObstacles source (S (S from)) n
  end.

(** The world [w] after draws up to the [k]-th. *)
Definition setRandomDraws (k : nat) (w : World) : World :=
  mkWorld (rooms w) (session w) (allocated w) (allocations w) (clock w)
    (clockReads w) (random w) k (journal w) (outbox w).

(** The patch that initialises a room. *)
Definition initPatch (obstacles : list Obstacle.t) (now : Z) : RoomState.t :=
  RoomState.mk (Some true) (Some 0) (Some []) (Some obstacles) (Some now).

(** The world after the initialising write of [joinRoomInit] to the room
    [j], which was [r]. *)
Definition initialisedWorld (j : string) (r : Room) (w : World) : World :=
  mkWorld
    (<[j := mkRoom (members r) (userStates r)
              (mergeRoomState
                 (initPatch (drawnObstacles (random w) (randomDraws w) OBSTACLE_COUNT)
                    (clock w (clockReads w)))
                 (roomState r))]> (rooms w))
    (session w) (allocated w) (allocations w) (clock w) (S (clockReads w))
    (random w) (2 * OBSTACLE_COUNT + randomDraws w)
    (journal w ++
       [(j, initPatch (drawnObstacles (random w) (randomDraws w) OBSTACLE_COUNT)
              (clock w (clockReads w)))])
    (outbox w).

(** The layouts written to a room so far, oldest first. *)
Definition layoutWrites (w : World) (rid : string) : list (list Obstacle.t) :=
  omap (fun e : string * RoomState.t =>
          if decide (fst e = rid) then RoomState.obstacles (snd e) else None)
       (journal w).

(** The killer named by the call is credited: it is present, is not the
    victim, and has a player state. *)
Definition credited (r : Room) (data : DeathData) (k : string) : Prop :=
  killerId data = Some k /\ k <> EmptyString /\ k <> playerId data /\
  is_Some (userStates r !! k).

(** The user states of the room once the victim is healed. *)
Definition healed (r : Room) (data : DeathData) : gmap string Player.t :=
  <[playerId data :=
      mergePlayer (Player.mk None None None (Some 100) None None)
        (default emptyPlayer (userStates r !! playerId data))]> (userStates r).

(** Whether a join naming [roomId] is turned away. *)
Definition roomFull (w : World) (roomId : option string) : bool :=
  truthy roomId &&
  match rooms w !! default EmptyString roomId with
  | Some r => bool_decide (MAX_PLAYERS_PER_ROOM ≤ length (members r))%nat
  | None => false
  end.

(** Two joins of the same room whose steps interleave at the [await] of the
    room state: both callers enter and read the room state, then each runs
    the initialisation on what it read.  The room state is observed between
    the two initialisations and after them. *)
Definition racingJoins (a b : string) (roomId : option string)
  : M (option RoomState.t * option RoomState.t) :=
  readA ← joinRoomEnter a roomId;
  readB ← joinRoomEnter b roomId;
  joinRoomInit a readA;;
  between ← getRoomState (AsUser a);
  joinRoomInit b readB;;
  after ← getRoomState (AsUser a);
  mret (between, after).

(** A handler makes only [R]-steps: whatever its outcome, the world it
    leaves is [R]-related to the world it started from. *)
Definition steps (R : World -> World -> Prop) {A : Type} (m : M A) : Prop :=
  forall w, R w (snd (m w)).

(** Every stored health lies in [0, 100]. *)
Definition healthBounded (w : World) : Prop :=
  forall rid id h, healthOf w rid id = Some h -> 0 <= h <= 100.

(** A handler keeps the bound when the world it leaves satisfies it whenever
    the world it started from did. *)
Definition keepsHealth (w w' : World) : Prop :=
  healthBounded w -> healthBounded w'.

(** The numbers a client supplies are in range: a health reported with a
    position lies in [0, 100], a damage is not negative. *)
Definition polite (e : Event) : Prop :=
  match e with
  | Rpc _ (UpdatePlayerPosition data) =>
      forall h, data_health data = Some h -> 0 <= h <= 100
  | Rpc _ (PlayerHit data) => 0 <= damage data
  | _ => True
  end.

(** The room [rid] has its layout if and only if it was written exactly
    once: an initialised room carries the single layout ever written to it,
    which has [OBSTACLE_COUNT] obstacles; any other room was never written a
    layout. *)
Definition layoutOnce (w : World) (rid : string) : Prop :=
  match roomStateOf w rid with
  | Some st =>
      if truthy_flag (RoomState.initialized st)
      then exists obs,
             layoutWrites w rid = [obs] /\
             RoomState.obstacles st = Some obs /\
             length obs = OBSTACLE_COUNT
      else layoutWrites w rid = []
  | None => layoutWrites w rid = []
  end.

(** Between [w] and [w'] no layout was written to [rid], and the room kept
    its initialisation flag and its obstacles. *)
Definition layoutKept (rid : string) (w w' : World) : Prop :=
  layoutWrites w' rid = layoutWrites w rid /\
  match roomStateOf w rid with
  | Some st =>
      exists st', roomStateOf w' rid = Some st' /\
                  RoomState.initialized st' = RoomState.initialized st /\
                  RoomState.obstacles st' = RoomState.obstacles st
  | None =>
      roomStateOf w' rid = None \/
      exists st', roomStateOf w' rid = Some st' /\ RoomState.initialized st' = None
  end.

(** One event either keeps the layout of [rid] or writes its first one. *)
Definition layoutStep (rid : string) (w w' : World) : Prop :=
  layoutOnce w rid ->
  layoutOnce w' rid /\ layoutWrites w rid `prefix_of` layoutWrites w' rid.

(** ** Sample worlds *)

(** A player state with the given health and score. *)
Definition fighter (health score : Z) : Player.t :=
  Player.mk (Some 500) (Some 700) (Some 90) (Some health) (Some score) None.

(** A world with the single room [arena], entered by [alice] and [bob],
    whose clock reads [now] for ever. *)
Definition arenaWorld (players : gmap string Player.t) (st : RoomState.t)
    (now : Z) : World :=
  mkWorld {[ "arena"%string := mkRoom ["alice"; "bob"]%string players st ]}
    {[ "alice"%string := "arena"%string; "bob"%string := "arena"%string ]}
    (fun n => ("lobby_" ++ string_of_Z (Z.of_nat n))%string) 0
    (fun _ => now) 0
    (fun _ => 0%Q) 0
    [] [].

(** An initialised room state without powerups or obstacles. *)
Definition readyRoom : RoomState.t :=
  RoomState.mk (Some true) (Some 0) (Some []) (Some []) (Some 0).

(** The arena with Alice and Bob at the given healths. *)
Definition duel (aliceHealth bobHealth : Z) : World :=
  arenaWorld {[ "alice"%string := fighter aliceHealth 0;
                "bob"%string := fighter bobHealth 0 ]} readyRoom 1000000.

(** Eight accounts. *)
Definition crowd : list string :=
  ["p1"; "p2"; "p3"; "p4"; "p5"; "p6"; "p7"; "p8"]%string.

(** A world whose room [arena] holds eight accounts. *)
Definition fullHouse : World :=
  mkWorld {[ "arena"%string := mkRoom crowd ∅ readyRoom ]}
    (list_to_map ((fun a => (a, "arena"%string)) <$> crowd))
    (fun n => ("lobby_" ++ string_of_Z (Z.of_nat n))%string) 0
    (fun _ => 1000000) 0 (fun _ => 0%Q) 0 [] [].

(** A powerup lying in the arena since [createdAt]. *)
Definition relic (createdAt : Z) : Powerup.t :=
  Powerup.mk ("powerup_" ++ string_of_Z createdAt) 300 400 (Some "health"%string)
    createdAt.

(** The arena at clock reading [now], holding the powerups [ps], with the
    last spawn at [last]. *)
Definition stockedArena (ps : list Powerup.t) (last now : Z) : World :=
  arenaWorld {[ "alice"%string := fighter 100 0; "bob"%string := fighter 100 0 ]}
    (RoomState.mk (Some true) (Some 0) (Some ps) (Some []) (Some last)) now.

(** A world without rooms, whose random source yields 0, 1/1000, 2/1000,
    ... *)
Definition lobby : World :=
  mkWorld ∅ ∅ (fun n => ("lobby_" ++ string_of_Z (Z.of_nat n))%string) 0
    (fun _ => 1000000) 0 (fun n => (Z.of_nat n # 1000)%Q) 0 [] [].

(** A short game: Alice and Bob join the arena, Alice hits Bob, Bob reports
    his position and health, dies, and the room ticks. *)
Definition sampleGame : list Event :=
  [ Rpc "alice" (JoinRoom (Some "arena"%string));
    Rpc "bob" (JoinRoom (Some "arena"%string));
    Rpc "alice" (PlayerHit (mkHitData "bob" "alice" 30));
    Rpc "bob" (UpdatePlayerPosition (mkPositionData (Some 400) (Some 300) (Some 45) (Some 70)));
    Rpc "alice" (PlayerHit (mkHitData "bob" "alice" 150));
    Rpc "bob" (PlayerDied (mkDeathData "bob" (Some "alice"%string)));
    Tick 50 "arena" ].

(** ** Vocabulary of the further properties *)

(** Every draw of the random source lies in the interval from 0 (included)
    to 1 (excluded), as [Math.random] promises. *)
Definition unitDraws (w : World) : Prop :=
  forall n : nat, (0 <= random w n)%Q /\ (random w n < 1)%Q.

(** A coordinate that [Math.floor(Math.random() * 1800) + 100] can take. *)
Definition inArena (c : Z) : Prop := 100 <= c <= 1899.

(** Between [w] and [w'] no room state was written. *)
Definition roomQuiet (w w' : World) : Prop :=
  journal w' = journal w /\
  forall rid, roomStateOf w' rid = roomStateOf w rid.

(** Between [w] and [w'] no player state changed. *)
Definition playersKept (w w' : World) : Prop :=
  forall rid id, playerOf w' rid id = playerOf w rid id.

(** The calls that concern players only. *)
Definition playerCall (c : Call) : bool :=
  match c with
  | LeaveRoom | SetPlayerData _ | UpdatePlayerPosition _ | FireProjectile _
  | PlayerHit _ | PlayerDied _ => true
  | JoinRoom _ | SpawnPowerup _ | CollectPowerup _ => false
  end.

(** The events that concern powerups and the game time only. *)
Definition powerupEvent (e : Event) : bool :=
  match e with
  | Tick _ _ => true
  | Rpc _ (SpawnPowerup _) => true
  | Rpc _ (CollectPowerup _) => true
  | Rpc _ _ => false
  end.

(** The patch that [collectPowerup] writes for a list of powerups. *)
Definition collectPatch (powerupId : string) (ps : list Powerup.t) : RoomState.t :=
  RoomState.mk None None
    (Some (filter (fun p => Powerup.id p ≠ powerupId) ps)) None None.

(** ** The client: the player entity and the game scene

    The class [Player] of the client keeps the health of a player next to
    its sprite; the scene [GameScene] holds the local player and calls the
    remote functions of the coordinator.  Rendering (tints, camera, health
    bar, tweens) is left out; what is kept is the state the handlers compute
    with, the "updateHealth" events a player emits, and the remote calls the
    scene makes, in the order it makes them. *)

Module PlayerEntity.
(** [x], [y], [angle]: the sprite's; [tween]: where the tween started last
    by [moveTo] takes the sprite; [speedBoostTimer]: the duration of the
    pending timer; [emitted]: the "updateHealth" events, oldest first. *)
Record t : Type := mk {
  name : string;
  x : Z;
  y : Z;
  angle : Z;
  tween : option (Z * Z);
  health : Z;
  speedBoostTimer : option Z;
  emitted : list Z
}.

(** A player as its constructor leaves it: health 100, no speed boost. *)
Definition create (x y : Z) (name : string) : t :=
  mk name x y 0 None 100 None [].

(** [this.health = h]. *)
Definition withHealth (h : Z) (p : t) : t :=
  mk (name p) (x p) (y p) (angle p) (tween p) h (speedBoostTimer p) (emitted p).

(** [this.scene.events.emit("updateHealth", this.health)]. *)
Definition emitHealth (p : t) : t :=
  mk (name p) (x p) (y p) (angle p) (tween p) (health p) (speedBoostTimer p)
    (emitted p ++ [health p]).

(** [this.speedBoostTimer = timer]. *)
Definition withTimer (timer : option Z) (p : t) : t :=
  mk (name p) (x p) (y p) (angle p) (tween p) (health p) timer (emitted p).

(** [this.sprite.setPosition(x, y)]. *)
Definition setPosition (x' y' : Z) (p : t) : t :=
  mk (name p) x' y' (angle p) (tween p) (health p) (speedBoostTimer p) (emitted p).

(** [moveTo(x, y)]: a tween towards the position is started. *)
Definition moveTo (x' y' : Z) (p : t) : t :=
  mk (name p) (x p) (y p) (angle p) (Some (x', y')) (health p) (speedBoostTimer p)
    (emitted p).

(** [damage(amount)]. *)
Definition damage (amount : Z) (p : t) : t :=
  emitHealth (withHealth (Z.max 0 (health p - amount)) p).

(** [heal(amount)]. *)
Definition heal (amount : Z) (p : t) : t :=
  emitHealth (withHealth (Z.min 100 (health p + amount)) p).

(** [applySpeedBoost(duration)]: a timer that is pending is removed and a
    new one of the given duration is set. *)
Definition applySpeedBoost (duration : Z) (p : t) : t :=
  withTimer (Some duration) p.

(** [setHealth(health)]. *)
Definition setHealth (h : Z) (p : t) : t := withHealth h p.

(** [reset()]. *)
Definition reset (p : t) : t :=
  withTimer None (emitHealth (withHealth 100 p)).
End PlayerEntity.

(** What the game does to the local player's health. *)
Inductive HealthOp : Type :=
| Damage (amount : Z)
| Heal (amount : Z)
| ResetHealth.

Definition applyHealthOp (op : HealthOp) (p : PlayerEntity.t) : PlayerEntity.t :=
  match op with
  | Damage amount => PlayerEntity.damage amount p
  | Heal amount => PlayerEntity.heal amount p
  | ResetHealth => PlayerEntity.reset p
  end.

(** An amount of damage or healing that is not negative. *)
Definition fairOp (op : HealthOp) : Prop :=
  match op with
  | Damage amount | Heal amount => 0 <= amount
  | ResetHealth => True
  end.

Module GameScene.
(** The scene once [create()] has run: the local player and the obstacle
    group exist.  [otherPlayers]: the players of the other accounts;
    [obstacles]: the positions of the obstacle group, in the order of their
    creation; [between], [betweenCalls]: the successive results of
    [Phaser.Math.Between(100, 1900)]. *)
Record t : Type := mk {
  myAccount : string;
  serverInitialized : bool;
  assetsLoaded : bool;
  obstaclesCreated : bool;
  player : PlayerEntity.t;
  otherPlayers : gmap string PlayerEntity.t;
  obstacles : list (Z * Z);
  remoteCalls : list Call;
  between : nat -> Z;
  betweenCalls : nat
}.

(** [this.player] updated in place. *)
Definition withPlayer (p : PlayerEntity.t) (s : t) : t :=
  mk (myAccount s) (serverInitialized s) (assetsLoaded s) (obstaclesCreated s) p
    (otherPlayers s) (obstacles s) (remoteCalls s) (between s) (betweenCalls s).

(** [this.otherPlayers] updated in place. *)
Definition withOtherPlayers (others : gmap string PlayerEntity.t) (s : t) : t :=
  mk (myAccount s) (serverInitialized s) (assetsLoaded s) (obstaclesCreated s)
    (player s) others (obstacles s) (remoteCalls s) (between s) (betweenCalls s).

(** [this.obstacles] updated in place. *)
Definition withObstacles (obs : list (Z * Z)) (s : t) : t :=
  mk (myAccount s) (serverInitialized s) (assetsLoaded s) (obstaclesCreated s)
    (player s) (otherPlayers s) obs (remoteCalls s) (between s) (betweenCalls s).

(** [this.obstaclesCreated = true]. *)
Definition markObstaclesCreated (s : t) : t :=
  mk (myAccount s) (serverInitialized s) (assetsLoaded s) true
    (player s) (otherPlayers s) (obstacles s) (remoteCalls s) (between s)
    (betweenCalls s).

(** Two results of [Phaser.Math.Between] were taken. *)
Definition tookTwoBetween (s : t) : t :=
  mk (myAccount s) (serverInitialized s) (assetsLoaded s) (obstaclesCreated s)
    (player s) (otherPlayers s) (obstacles s) (remoteCalls s) (between s)
    (S (S (betweenCalls s))).

(** [this.server.remoteFunction(name, [data])]. *)
Definition remoteFunction (c : Call) (s : t) : t :=
  mk (myAccount s) (serverInitialized s) (assetsLoaded s) (obstaclesCreated s)
    (player s) (otherPlayers s) (obstacles s) (remoteCalls s ++ [c]) (between s)
    (betweenCalls s).

(** [handlePlayerDeath(playerId, killerId)]. *)
Definition handlePlayerDeath (playerId killerId : string) (s : t) : t :=
  if bool_decide (playerId = myAccount s) then
    let x := between s (betweenCalls s) in
    let y := between s (S (betweenCalls s)) in
    let s1 :=
      withPlayer (PlayerEntity.reset (PlayerEntity.setPosition x y (player s)))
        (tookTwoBetween s) in
    if serverInitialized s1
    then remoteFunction (PlayerDied (mkDeathData playerId (Some killerId))) s1
    else s1
  else s.

(** [handlePlayerHit(targetId, attackerId, projectileId)]; the projectile
    id goes into the remote call, where the coordinator does not read it. *)
Definition handlePlayerHit (targetId attackerId projectileId : string) (s : t) : t :=
  let s1 :=
    if bool_decide (targetId = myAccount s) then
      let s' := withPlayer (PlayerEntity.damage 10 (player s)) s in
      if PlayerEntity.health (player s') <=? 0
      then handlePlayerDeath targetId attackerId s'
      else s'
    else s in
  if serverInitialized s1
  then remoteFunction (PlayerHit (mkHitData targetId attackerId 10)) s1
  else s1.

(** [collectPowerup(playerSprite, powerupSprite)], where the powerup sprite,
    when there is one, carries an id and a type. *)
Definition collectPowerup (powerupSprite : option (string * string)) (s : t) : t :=
  match powerupSprite with
  | None => s
  | Some (powerupId, powerupType) =>
      let p :=
        if bool_decide (powerupType = "health"%string)
        then PlayerEntity.heal 25 (player s)
        else if bool_decide (powerupType = "speed"%string)
             then PlayerEntity.applySpeedBoost 5000 (player s)
             else player s in
      let s1 := withPlayer p s in
      if serverInitialized s1
      then remoteFunction (CollectPowerup powerupId) s1
      else s1
  end.

(** [updatePlayerOnServer()]: the scene holds a server whenever
    [serverInitialized] is set, and the player exists.  The name that goes
    with the call is not read by the coordinator; the call is taken as made,
    without the throttle of 50 ms it is given. *)
Definition updatePlayerOnServer (s : t) : t :=
  if serverInitialized s
  then remoteFunction
         (UpdatePlayerPosition
            (mkPositionData (Some (PlayerEntity.x (player s)))
               (Some (PlayerEntity.y (player s)))
               (Some (PlayerEntity.angle (player s)))
               (Some (PlayerEntity.health (player s))))) s
  else s.

(** The [for] loop of [createBorderObstacles], at the counter [i] with at
    most [fuel] iterations to go. *)
Fixpoint borderLoop (fuel : nat) (i : Z) (obs : list (Z * Z)) : list (Z * Z) :=
  match fuel with
  | O => obs
  | S n =>
      if i <? 2000
      then borderLoop n (i + 50)
             (obs ++ [(i, 0); (i, 2000); (0, i); (2000, i)])
      else obs
  end.

(** [createBorderObstacles()]; the counter passes 2000 within 40 steps. *)
Definition createBorderObstacles (s : t) : t :=
  withObstacles (borderLoop 40 0 (obstacles s)) s.

(** [createObstaclesFromServer(obstacleData)]: the group is cleared, the
    border is built, then one obstacle per entry of the data. *)
Definition createObstaclesFromServer (obstacleData : list Obstacle.t) (s : t) : t :=
  if negb (assetsLoaded s) || obstaclesCreated s then s
  else
    let s1 := createBorderObstacles (withObstacles [] s) in
    let s2 :=
      fold_left
        (fun s' data =>
           withObstacles (obstacles s' ++ [(Obstacle.x data, Obstacle.y data)]) s')
        obstacleData s1 in
    markObstaclesCreated s2.

(** The body of the [forEach] of [updatePlayerStates], for one entry: an
    account and the player state that comes with it. *)
Definition updatePlayerState (s : t) (playerState : string * Player.t) : t :=
  let playerId := fst playerState in
  let st := snd playerState in
  if bool_decide (playerId = myAccount s) then s
  else
    match Player.x st, Player.y st with
    | Some x, Some y =>
        match otherPlayers s !! playerId with
        | Some p =>
            withOtherPlayers
              (<[playerId :=
                   PlayerEntity.setHealth (js_or (Player.health st) 100)
                     (PlayerEntity.moveTo x y p)]> (otherPlayers s)) s
        | None =>
            withOtherPlayers
              (<[playerId :=
                   PlayerEntity.create x y
                     (if truthy (Player.name st)
                      then default EmptyString (Player.name st)
                      else "Unknown"%string)]> (otherPlayers s)) s
        end
    | _, _ => s
    end.

(** [updatePlayerStates(playerStates)], for the array it is given: every
    entry is processed, then the players of accounts that are not in the
    array are removed. *)
Definition updatePlayerStates (playerStates : list (string * Player.t)) (s : t) : t :=
  let s1 := fold_left updatePlayerState playerStates s in
  withOtherPlayers
    (filter (fun entry => fst entry ∈ (fst <$> playerStates)) (otherPlayers s1)) s1.
End GameScene.

(** The remote calls a scene made since it was [before], and the world
    after the coordinator handled calls of the account [me] in order. *)
Definition callsSince (before after : GameScene.t) : list Call :=
  drop (length (GameScene.remoteCalls before)) (GameScene.remoteCalls after).

Definition serveAll (me : string) (calls : list Call) (w : World) : World :=
  run (Rpc me <$> calls) w.

(** A scene of the account [me] with a local player at the given health. *)
Definition sceneOf (me : string) (health : Z) : GameScene.t :=
  GameScene.mk me true true false
    (PlayerEntity.withHealth health (PlayerEntity.create 500 700 me)) ∅ [] []
    (fun n => 1000 + Z.of_nat n) 0.

(** Alice's scene, showing Bob at the given health. *)
Definition sceneWithBob (bobHealth : Z) : GameScene.t :=
  GameScene.withOtherPlayers
    {[ "bob"%string :=
         PlayerEntity.setHealth bobHealth (PlayerEntity.create 500 700 "Bob") ]}
    (sceneOf "alice" 100).

(** The position the scene gives the obstacle of an entry of the layout,
    and the positions on the border of the world. *)
Definition positionOf (o : Obstacle.t) : Z * Z := (Obstacle.x o, Obstacle.y o).

Definition onBorder (pos : Z * Z) : Prop :=
  fst pos = 0 \/ fst pos = 2000 \/ snd pos = 0 \/ snd pos = 2000.

(** ** Unfolding handlers *)

Ltac unfold_monad :=
  unfold logged, tryCatch, throw, gets, modify, exec, eval,
    getUserState, updateUserState, updateMyState, getRoomState,
    updateRoomState, broadcastToRoom, currentRoom, getRoomUserAccounts,
    mbind, M_bind, mret, M_ret in *.

Section PlayerHit.
Variables (w : World) (me rid : string) (r : Room) (data : HitData).
Hypothesis Hsession : session w !! me = Some rid.
Hypothesis Hroom : rooms w !! rid = Some r.

Lemma playerHit_found (target : Player.t) :
  userStates r !! targetId data = Some target ->
  playerHit me data w =
    (Return "success"%string,
     setRooms
       (<[rid := mkRoom (members r)
                   (<[targetId data :=
                        mergePlayer
                          (Player.mk None None None
                             (Some (Z.max 0 (js_or (Player.health target) 100 - damage data)))
                             None None) target]> (userStates r))
                   (roomState r)]> (rooms w)) w).
Proof.
  intros Htarget. unfold playerHit. unfold_monad.
  rewrite Hsession. cbn. rewrite Hroom. cbn. rewrite Htarget. cbn.
  rewrite Hsession, Hroom, Htarget. reflexivity.
Qed.

Lemma playerHit_health (target : Player.t) :
  userStates r !! targetId data = Some target ->
  eval (playerHit me data) w = Return "success"%string /\
  healthOf (exec (playerHit me data) w) rid (targetId data) =
    Some (Z.max 0 (js_or (Player.health target) 100 - damage data)).
Proof.
  intros Htarget. unfold exec, eval.
  rewrite (playerHit_found target Htarget). split; [reflexivity|].
  unfold healthOf, playerOf. cbn.
  rewrite lookup_insert_eq. cbn. rewrite lookup_insert_eq. reflexivity.
Qed.

End PlayerHit.

(** ** Damage *)

(** C10. A hit on a target whose stored health is 0 or missing is applied
    against the default 100: the call succeeds and the stored health becomes
    [max 0 (100 - damage)]. *)
Theorem playerHit_falsy_health_counts_as_100
    (w : World) (me rid : string) (r : Room) (data : HitData) (target : Player.t) :
  session w !! me = Some rid ->
  rooms w !! rid = Some r ->
  userStates r !! targetId data = Some target ->
  Player.health target = Some 0 \/ Player.health target = None ->
  eval (playerHit me data) w = Return "success"%string /\
  healthOf (exec (playerHit me data) w) rid (targetId data) =
    Some (Z.max 0 (100 - damage data)).
Proof.
  intros Hs Hr Ht Hfalsy.
  destruct (playerHit_health w me rid r data Hs Hr target Ht) as [Hret Hh].
  split; [exact Hret|]. rewrite Hh.
  destruct Hfalsy as [-> | ->]; reflexivity.
Qed.

(** A target at health 0, hit for 30, ends at 70. *)
Lemma playerHit_falsy_health_witness :
  healthOf (duel 100 0) "arena" "bob" = Some 0 /\
  eval (playerHit "alice" (mkHitData "bob" "alice" 30)) (duel 100 0)
    = Return "success"%string /\
  healthOf (exec (playerHit "alice" (mkHitData "bob" "alice" 30)) (duel 100 0))
    "arena" "bob" = Some 70.
Proof.
  split; [reflexivity|].
  apply (playerHit_falsy_health_counts_as_100 (duel 100 0) "alice" "arena"
           (mkRoom ["alice"; "bob"]%string
              {[ "alice"%string := fighter 100 0; "bob"%string := fighter 0 0 ]}
              readyRoom)
           (mkHitData "bob" "alice" 30) (fighter 0 0)).
  - reflexivity.
  - reflexivity.
  - reflexivity.
  - left. reflexivity.
Defined.

(** C2, as stated, fails: the result is only clamped from below.  A target
    at health 100 hit with damage -50 is left at 150, above 100. *)
Lemma playerHit_negative_damage_exceeds_100 :
  healthOf (duel 100 100) "arena" "bob" = Some 100 /\
  exists h' : Z,
    healthOf (exec (playerHit "alice" (mkHitData "bob" "alice" (-50))) (duel 100 100))
      "arena" "bob" = Some h' /\
    h' = 150 /\ ~ (0 <= h' <= 100).
Proof.
  split; [reflexivity|]. exists 150.
  split; [reflexivity|]. split; [reflexivity|]. lia.
Qed.

(** C2, amended. A hit on an existing target whose stored health [h] is not
    0 succeeds and leaves [max 0 (h - damage)], which is never negative, and
    is at most 100 when the damage is not negative and [h] was at most
    100. *)
Theorem playerHit_clamps_at_zero
    (w : World) (me rid : string) (r : Room) (data : HitData) (target : Player.t)
    (h : Z) :
  session w !! me = Some rid ->
  rooms w !! rid = Some r ->
  userStates r !! targetId data = Some target ->
  Player.health target = Some h ->
  h <> 0 ->
  eval (playerHit me data) w = Return "success"%string /\
  healthOf (exec (playerHit me data) w) rid (targetId data)
    = Some (Z.max 0 (h - damage data)) /\
  0 <= Z.max 0 (h - damage data) /\
  (0 <= damage data -> h <= 100 -> Z.max 0 (h - damage data) <= 100).
Proof.
  intros Hs Hr Ht Hh Hnz.
  destruct (playerHit_health w me rid r data Hs Hr target Ht) as [Hret Hafter].
  split; [exact Hret|]. split.
  - rewrite Hafter, Hh. unfold js_or.
    destruct (Z.eqb_spec h 0); [contradiction | reflexivity].
  - lia.
Qed.

(** Health 100 hit for 30 gives 70; health 20 hit for 150 gives 0. *)
Lemma playerHit_clamps_witness :
  healthOf (exec (playerHit "alice" (mkHitData "bob" "alice" 30)) (duel 100 100))
    "arena" "bob" = Some 70 /\
  healthOf (exec (playerHit "alice" (mkHitData "bob" "alice" 150)) (duel 100 20))
    "arena" "bob" = Some 0.
Proof.
  split.
  - apply (playerHit_clamps_at_zero (duel 100 100) "alice" "arena"
             (mkRoom ["alice"; "bob"]%string
                {[ "alice"%string := fighter 100 0; "bob"%string := fighter 100 0 ]}
                readyRoom)
             (mkHitData "bob" "alice" 30) (fighter 100 0) 100);
      [reflexivity | reflexivity | reflexivity | reflexivity | lia].
  - apply (playerHit_clamps_at_zero (duel 100 20) "alice" "arena"
             (mkRoom ["alice"; "bob"]%string
                {[ "alice"%string := fighter 100 0; "bob"%string := fighter 20 0 ]}
                readyRoom)
             (mkHitData "bob" "alice" 150) (fighter 20 0) 20);
      [reflexivity | reflexivity | reflexivity | reflexivity | lia].
Defined.

(** A target that does not exist is reported, and nothing is written. *)
Lemma playerHit_not_found (w : World) (me rid : string) (r : Room) (data : HitData) :
  session w !! me = Some rid ->
  rooms w !! rid = Some r ->
  userStates r !! targetId data = None ->
  playerHit me data w = (Return "player not found"%string, w).
Proof.
  intros Hs Hr Ht. unfold playerHit. unfold_monad.
  rewrite Hs. cbn. rewrite Hr. cbn. rewrite Ht. reflexivity.
Qed.

(** ** Joining a full room *)

(** C3. A join that names a room holding 8 or more accounts throws
    "Room is full" and leaves the whole world as it was: no player state, no
    room state, no membership changes, so the occupancy is unchanged. *)
Theorem joinRoom_full_room_rejected
    (w : World) (me roomId : string) (r : Room) :
  truthy (Some roomId) = true ->
  rooms w !! roomId = Some r ->
  (MAX_PLAYERS_PER_ROOM <= length (members r))%nat ->
  joinRoom me (Some roomId) w = (Throw "Room is full"%string, w) /\
  occupancy (exec (joinRoom me (Some roomId)) w) roomId = length (members r).
Proof.
  intros Hgiven Hroom Hfull.
  assert (Hrun : joinRoom me (Some roomId) w = (Throw "Room is full"%string, w)).
  { unfold joinRoom, joinRoomEnter. unfold_monad.
    rewrite Hgiven. cbn. rewrite Hroom. cbn.
    destruct (decide (MAX_PLAYERS_PER_ROOM ≤ length (members r))%nat) as [_ | Hn];
      [reflexivity | contradiction]. }
  split; [exact Hrun|].
  unfold exec, occupancy. rewrite Hrun. cbn. rewrite Hroom. reflexivity.
Qed.

(** A ninth account is turned away from a room of eight, which stays at
    eight. *)
Lemma joinRoom_full_room_witness :
  joinRoom "p9" (Some "arena"%string) fullHouse
    = (Throw "Room is full"%string, fullHouse) /\
  occupancy (exec (joinRoom "p9" (Some "arena"%string)) fullHouse) "arena" = 8%nat.
Proof.
  apply (joinRoom_full_room_rejected fullHouse "p9" "arena"
           (mkRoom crowd ∅ readyRoom)).
  - reflexivity.
  - reflexivity.
  - unfold MAX_PLAYERS_PER_ROOM. cbn. lia.
Defined.

(** ** Death and score *)

Section PlayerDied.
Variables (w : World) (me rid : string) (r : Room) (data : DeathData).
Hypothesis Hsession : session w !! me = Some rid.
Hypothesis Hroom : rooms w !! rid = Some r.

Lemma playerDied_credited (k : string) (killer : Player.t) :
  killerId data = Some k -> k <> EmptyString -> k <> playerId data ->
  userStates r !! k = Some killer ->
  playerDied me data w =
    (Return "success"%string,
     setRooms
       (<[rid := mkRoom (members r)
                   (<[k := mergePlayer
                             (Player.mk None None None None
                                (Some (js_or (Player.score killer) 0 + 1)) None)
                             killer]> (healed r data))
                   (roomState r)]> (rooms w)) w).
Proof.
  intros Hk Hne Hvictim Hstate. unfold playerDied. unfold_monad.
  rewrite Hsession. cbn. rewrite Hroom. cbn. rewrite Hk.
  assert (Ht : truthy (Some k) = true) by (destruct k; [contradiction | reflexivity]).
  rewrite Ht, bool_decide_true by assumption. cbn.
  rewrite Hsession. cbn. rewrite lookup_insert_eq. cbn.
  rewrite lookup_insert_ne by congruence. rewrite Hstate. cbn.
  rewrite Hsession. cbn. rewrite lookup_insert_eq. cbn.
  rewrite lookup_insert_ne by congruence. rewrite Hstate. cbn.
  unfold setRooms. cbn. rewrite insert_insert_eq. reflexivity.
Qed.

Lemma playerDied_uncredited :
  (forall k, ~ credited r data k) ->
  playerDied me data w =
    (Return "success"%string,
     setRooms (<[rid := mkRoom (members r) (healed r data) (roomState r)]> (rooms w)) w).
Proof.
  intros Hnone. unfold playerDied. unfold_monad.
  rewrite Hsession. cbn. rewrite Hroom. cbn.
  destruct (killerId data) as [k|] eqn:Hk; [|reflexivity].
  destruct (truthy (Some k)) eqn:Ht; cbn; [|reflexivity].
  destruct (bool_decide (k ≠ playerId data)) eqn:Hd; cbn; [|reflexivity].
  apply bool_decide_eq_true in Hd.
  rewrite Hsession. cbn. rewrite lookup_insert_eq. cbn.
  rewrite lookup_insert_ne by congruence.
  destruct (userStates r !! k) as [killer|] eqn:Hstate; cbn; [|reflexivity].
  exfalso. apply (Hnone k). repeat split; try assumption.
  - intros ->. discriminate Ht.
  - rewrite Hstate. eauto.
Qed.

End PlayerDied.

Lemma credited_dec (r : Room) (data : DeathData) :
  (exists k, credited r data k) \/ (forall k, ~ credited r data k).
Proof.
  unfold credited. destruct (killerId data) as [k|]; [|right; intros k [? _]; discriminate].
  destruct (decide (k = EmptyString)) as [He|He];
    [right; intros k' (Hk & Hn & _); congruence|].
  destruct (decide (k = playerId data)) as [Hp|Hp];
    [right; intros k' (Hk & _ & Hn & _); congruence|].
  destruct (userStates r !! k) as [killer|] eqn:Hs.
  - left. exists k. rewrite Hs. eauto.
  - right. intros k' (Hk & _ & _ & Hn). injection Hk as <-.
    rewrite Hs in Hn. destruct Hn; discriminate.
Qed.

Lemma healed_score (r : Room) (data : DeathData) (id : string) :
  (healed r data !! id) ≫= Player.score = (userStates r !! id) ≫= Player.score.
Proof.
  unfold healed. destruct (decide (playerId data = id)) as [<-|Hne].
  - rewrite lookup_insert_eq. cbn.
    destruct (userStates r !! playerId data); reflexivity.
  - rewrite lookup_insert_ne by assumption. reflexivity.
Qed.

(** C4. Called from inside a room, [playerDied] succeeds and sets the
    victim's health to 100.  The killer's score field becomes its score plus
    one exactly when the killer is credited (the id is present, differs from
    the victim's, and has a player state); the score field of every other
    player, and of everybody when nobody is credited, is unchanged. *)
Theorem playerDied_heals_victim_and_credits_killer
    (w : World) (me rid : string) (r : Room) (data : DeathData) :
  session w !! me = Some rid ->
  rooms w !! rid = Some r ->
  eval (playerDied me data) w = Return "success"%string /\
  healthOf (exec (playerDied me data) w) rid (playerId data) = Some 100 /\
  (forall k, credited r data k ->
     scoreFieldOf (exec (playerDied me data) w) rid k = Some (scoreOf w rid k + 1)) /\
  (forall room id, ~ (room = rid /\ credited r data id) ->
     scoreFieldOf (exec (playerDied me data) w) room id = scoreFieldOf w room id).
Proof.
  intros Hs Hr. unfold exec, eval.
  destruct (credited_dec r data) as [[k Hk] | Hnone].
  - pose proof Hk as (Hid & Hne & Hvictim & [killer Hstate]).
    rewrite (playerDied_credited w me rid r data Hs Hr k killer Hid Hne Hvictim Hstate).
    cbn. split; [reflexivity|].
    unfold healthOf, scoreFieldOf, scoreOf, scoreFieldOf, playerOf. cbn.
    split; [|split].
    + rewrite lookup_insert_eq. cbn.
      rewrite lookup_insert_ne by congruence.
      unfold healed. rewrite lookup_insert_eq. reflexivity.
    + intros k' (Hid' & _). assert (k' = k) as -> by congruence.
      rewrite lookup_insert_eq, Hr. cbn.
      rewrite lookup_insert_eq, Hstate. reflexivity.
    + intros room id Hnot.
      destruct (decide (rid = room)) as [<-|Hroom].
      * rewrite lookup_insert_eq, Hr. cbn.
        assert (k <> id) by (intros <-; apply Hnot; split; [reflexivity | exact Hk]).
        rewrite lookup_insert_ne by assumption. apply healed_score.
      * rewrite lookup_insert_ne by assumption. reflexivity.
  - rewrite (playerDied_uncredited w me rid r data Hs Hr Hnone).
    cbn. split; [reflexivity|].
    unfold healthOf, scoreFieldOf, playerOf. cbn.
    split; [|split].
    + rewrite lookup_insert_eq. cbn. unfold healed.
      rewrite lookup_insert_eq. reflexivity.
    + intros k Hk. destruct (Hnone k Hk).
    + intros room id _.
      destruct (decide (rid = room)) as [<-|Hroom].
      * rewrite lookup_insert_eq, Hr. cbn. apply healed_score.
      * rewrite lookup_insert_ne by assumption. reflexivity.
Qed.

(** Bob dies by Alice's hand: Bob is healed to 100 and Alice scores; a
    death without a killer changes no score. *)
Lemma playerDied_witness :
  healthOf (exec (playerDied "bob" (mkDeathData "bob" (Some "alice"%string))) (duel 60 0))
    "arena" "bob" = Some 100 /\
  scoreFieldOf (exec (playerDied "bob" (mkDeathData "bob" (Some "alice"%string))) (duel 60 0))
    "arena" "alice" = Some 1 /\
  scoreFieldOf (exec (playerDied "bob" (mkDeathData "bob" None)) (duel 60 0))
    "arena" "alice" = Some 0.
Proof.
  pose (room := mkRoom ["alice"; "bob"]%string
                  {[ "alice"%string := fighter 60 0; "bob"%string := fighter 0 0 ]}
                  readyRoom).
  destruct (playerDied_heals_victim_and_credits_killer (duel 60 0) "bob" "arena" room
              (mkDeathData "bob" (Some "alice"%string)) eq_refl eq_refl)
    as (_ & Hheal & Hscore & _).
  destruct (playerDied_heals_victim_and_credits_killer (duel 60 0) "bob" "arena" room
              (mkDeathData "bob" None) eq_refl eq_refl)
    as (_ & _ & _ & Hsame).
  split; [exact Hheal|]. split.
  - apply (Hscore "alice"%string). unfold credited. cbn.
    repeat split; try discriminate. eexists. reflexivity.
  - apply (Hsame "arena"%string "alice"%string).
    intros [_ (Hk & _)]. discriminate Hk.
Defined.

(** ** Spawning powerups *)

Lemma spawnPowerup_run (ctx : Ctx) (w : World) (rid : string) (r : Room) :
  roomOf w ctx = Some rid ->
  rooms w !! rid = Some r ->
  let p := spawnedPowerup w (clock w (clockReads w)) (clock w (S (clockReads w))) in
  let patch := spawnPatch (roomState r) p (clock w (S (S (clockReads w)))) in
  spawnPowerup ctx w =
    (Return "success"%string,
     mkWorld
       (<[rid := mkRoom (members r) (userStates r)
                   (mergeRoomState patch (roomState r))]> (rooms w))
       (session w) (allocated w) (allocations w) (clock w)
       (S (S (S (clockReads w)))) (random w) (S (S (S (randomDraws w))))
       (journal w ++ [(rid, patch)])
       (outbox w ++ [mkBroadcast rid "powerupSpawned" (PowerupPayload p)])).
Proof.
  intros Hctx Hroom p patch. subst p patch.
  unfold spawnPowerup, randomCoordinate, randomBelow, mathRandom, dateNow.
  unfold_monad.
  destruct ctx as [me | rid']; cbn in Hctx.
  - rewrite Hctx. cbn. rewrite Hroom. cbn. rewrite Hctx. cbn. rewrite Hroom. cbn.
    rewrite Hctx. reflexivity.
  - injection Hctx as ->. cbn. rewrite Hroom. cbn. rewrite Hroom. reflexivity.
Qed.

(** ** The room tick *)

Ltac crunch :=
  cbn -[Nat.ltb Nat.eqb List.filter Qfloor Z.ltb Z.add Z.sub Z.of_nat Z.to_nat
        POWERUP_TYPES string_of_Z].

Ltac tick_done :=
  eexists; split; [reflexivity|]; unfold roomStateOf; crunch;
  rewrite lookup_insert_eq; unfold mergeRoomState; crunch;
  try match goal with H : RoomState.powerups _ = _ |- _ => rewrite ?H end;
  rewrite <- ?app_assoc, ?app_nil_r; repeat split.

Section RoomTick.
Variables (w : World) (rid : string) (r : Room) (deltaMS now : Z).
Hypothesis Hroom : rooms w !! rid = Some r.
(** The clock reads [now] during the whole tick. *)
Hypothesis Hclock : forall n : nat, (clockReads w <= n)%nat -> clock w n = now.

Lemma roomTick_effect :
  exists w' : World,
  roomTick deltaMS rid w = (Return tt, w') /\
  roomStateOf w' rid =
    Some (RoomState.mk
            (RoomState.initialized (roomState r))
            (Some (js_or (RoomState.gameTime (roomState r)) 0 + deltaMS))
            (if tickStale r now then Some (tickKept r now)
             else if tickDue r now then Some (tickOld r ++ [tickSpawned w now])
             else RoomState.powerups (roomState r))
            (RoomState.obstacles (roomState r))
            (if tickDue r now then Some now
             else RoomState.lastPowerupSpawn (roomState r))) /\
  journal w' =
    journal w ++ [(rid, gameTimePatch r deltaMS)]
      ++ (if tickDue r now
          then [(rid, spawnPatch (roomState r) (tickSpawned w now) now)] else [])
      ++ (if tickStale r now then [(rid, cleanupPatch r now)] else []) /\
  outbox w' =
    outbox w ++
      (if tickDue r now
       then [mkBroadcast rid "powerupSpawned" (PowerupPayload (tickSpawned w now))]
       else []).
Proof.
  assert (H0 : clock w (clockReads w) = now) by (apply Hclock; lia).
  assert (H1 : clock w (S (clockReads w)) = now) by (apply Hclock; lia).
  assert (H2 : clock w (S (S (clockReads w))) = now) by (apply Hclock; lia).
  assert (H3 : clock w (S (S (S (clockReads w)))) = now) by (apply Hclock; lia).
  assert (H4 : clock w (S (S (S (S (clockReads w))))) = now) by (apply Hclock; lia).
  unfold roomTick, tryCatch, getRoomState, updateRoomState, dateNow,
    currentRoom, gets, mbind, M_bind, mret, M_ret.
  crunch. rewrite Hroom. crunch. rewrite Hroom. crunch. rewrite H0.
  unfold tickStale, tickKept, tickOld, cleanupPatch, tickKept, tickOld.
  fold (tickDue r now). destruct (tickDue r now) eqn:Hdue.
  - erewrite spawnPowerup_run; [| reflexivity | crunch; apply lookup_insert_eq ].
    crunch. rewrite H1, H2, H3.
    unfold spawnPatch, tickSpawned, spawnedPowerup, drawnBelow, gameTimePatch. crunch.
    destruct (RoomState.powerups (roomState r)) as [old|] eqn:Hold; crunch.
    + destruct (0 <? length old)%nat eqn:Hlen; crunch.
      * rewrite H4.
        destruct (negb _) eqn:Hstale; crunch; rewrite ?lookup_insert_eq; crunch.
        -- tick_done.
        -- tick_done.
      * destruct old; [|discriminate Hlen].
        tick_done.
    + tick_done.
  - unfold gameTimePatch. crunch.
    destruct (RoomState.powerups (roomState r)) as [old|] eqn:Hold; crunch.
    + destruct (0 <? length old)%nat eqn:Hlen; crunch.
      * rewrite H1.
        destruct (negb _) eqn:Hstale; crunch; rewrite ?lookup_insert_eq; crunch.
        -- tick_done.
        -- tick_done.
      * destruct old; [|discriminate Hlen].
        tick_done.
    + tick_done.
Qed.

End RoomTick.

Lemma filter_keeps_all {A : Type} (f : A -> bool) (l : list A) :
  length (List.filter f l) = length l -> forall a, In a l -> f a = true.
Proof.
  induction l as [|b l IH]; cbn; [contradiction|].
  pose proof (List.filter_length_le f l) as Hle.
  destruct (f b) eqn:Hb; cbn; intros Hlen a [<- | Hin]; try lia.
  - exact Hb.
  - apply IH; [lia | exact Hin].
Qed.

(** What a tick leaves in the list of powerups. *)
Lemma roomTick_powerups
    (w : World) (rid : string) (r : Room) (deltaMS now : Z) :
  rooms w !! rid = Some r ->
  (forall n : nat, (clockReads w <= n)%nat -> clock w n = now) ->
  powerupsOf (exec (roomTick deltaMS rid) w) rid =
    if tickStale r now then tickKept r now
    else if tickDue r now then tickOld r ++ [tickSpawned w now]
    else tickOld r.
Proof.
  intros Hroom Hclock.
  destruct (roomTick_effect w rid r deltaMS now Hroom Hclock)
    as (w' & Hrun & Hstate & _).
  unfold exec, powerupsOf. rewrite Hrun. cbn. rewrite Hstate. cbn.
  destruct (tickStale r now); [reflexivity|].
  destruct (tickDue r now); reflexivity.
Qed.

(** C7. After a tick during which the clock reads [now], no powerup of age
    30000 ms or more is in the room's list (so none whose age exceeds 30000),
    every powerup of the list that was younger than 30000 ms is still in it,
    and the tick's writes end with the filtered list exactly when its length
    differs from the length of the list read. *)
Theorem roomTick_expires_old_powerups
    (w : World) (rid : string) (r : Room) (deltaMS now : Z) :
  rooms w !! rid = Some r ->
  (forall n : nat, (clockReads w <= n)%nat -> clock w n = now) ->
  (forall p, 30000 <= now - Powerup.createdAt p ->
     ~ In p (powerupsOf (exec (roomTick deltaMS rid) w) rid)) /\
  (forall p, In p (powerupsOf w rid) -> now - Powerup.createdAt p < 30000 ->
     In p (powerupsOf (exec (roomTick deltaMS rid) w) rid)) /\
  journal (exec (roomTick deltaMS rid) w) =
    journal w ++ [(rid, gameTimePatch r deltaMS)]
      ++ (if tickDue r now
          then [(rid, spawnPatch (roomState r) (tickSpawned w now) now)] else [])
      ++ (if (length (List.filter (fresh now) (tickOld r)) =? length (tickOld r))%nat
          then [] else [(rid, cleanupPatch r now)]).
Proof.
  intros Hroom Hclock.
  pose proof (roomTick_powerups w rid r deltaMS now Hroom Hclock) as Hlist.
  assert (Hbefore : powerupsOf w rid = tickOld r).
  { unfold powerupsOf, roomStateOf, tickOld. rewrite Hroom. reflexivity. }
  assert (Hfresh : forall p, 30000 <= now - Powerup.createdAt p -> fresh now p = false).
  { intros p Hage. unfold fresh. apply Z.ltb_ge. exact Hage. }
  split; [|split].
  - intros p Hage Hin. specialize (Hfresh p Hage). rewrite Hlist in Hin.
    unfold tickStale, tickKept in Hin.
    destruct (Nat.eqb_spec (length (List.filter (fresh now) (tickOld r)))
                (length (tickOld r))) as [Hsame | Hdiff]; cbn in Hin.
    + assert (Hold : forall q, In q (tickOld r) -> fresh now q = true)
        by (apply filter_keeps_all; exact Hsame).
      destruct (tickDue r now).
      * apply in_app_or in Hin. destruct Hin as [Hin | [<- | []]].
        -- rewrite (Hold p Hin) in Hfresh. discriminate.
        -- cbn in Hage. lia.
      * rewrite (Hold p Hin) in Hfresh. discriminate.
    + apply List.filter_In in Hin. destruct Hin as [_ Hp]. congruence.
  - intros p Hin Hage. rewrite Hbefore in Hin. rewrite Hlist.
    assert (Hp : fresh now p = true) by (unfold fresh; apply Z.ltb_lt; exact Hage).
    destruct (tickStale r now).
    + unfold tickKept. apply List.filter_In. split; assumption.
    + destruct (tickDue r now); [apply in_or_app; left|]; exact Hin.
  - destruct (roomTick_effect w rid r deltaMS now Hroom Hclock)
      as (w' & Hrun & _ & Hjournal & _).
    unfold exec. rewrite Hrun. cbn. rewrite Hjournal.
    unfold tickStale, tickKept.
    destruct (length (List.filter (fresh now) (tickOld r)) =? length (tickOld r))%nat;
      reflexivity.
Qed.

(** A powerup created 30001 ms ago is gone after the tick, one created
    29999 ms ago is still there. *)
Lemma roomTick_expiry_witness :
  ~ In (relic 969999)
      (powerupsOf
         (exec (roomTick 50 "arena")
            (stockedArena [relic 969999; relic 970001] 995000 1000000)) "arena") /\
  In (relic 970001)
      (powerupsOf
         (exec (roomTick 50 "arena")
            (stockedArena [relic 969999; relic 970001] 995000 1000000)) "arena").
Proof.
  destruct (roomTick_expires_old_powerups
              (stockedArena [relic 969999; relic 970001] 995000 1000000) "arena"
              (mkRoom ["alice"; "bob"]%string
                 {[ "alice"%string := fighter 100 0; "bob"%string := fighter 100 0 ]}
                 (RoomState.mk (Some true) (Some 0)
                    (Some [relic 969999; relic 970001]) (Some []) (Some 995000)))
              50 1000000 eq_refl (fun n _ => eq_refl))
    as (Hgone & Hstay & _).
  split.
  - apply Hgone. cbn. lia.
  - apply Hstay.
    + right. left. reflexivity.
    + cbn. lia.
Defined.

(** The spawner runs in a tick exactly when more than 10000 ms have passed
    since the last spawn: the tick broadcasts one "powerupSpawned" event then,
    and none otherwise. *)
Lemma roomTick_spawns_iff_due
    (w : World) (rid : string) (r : Room) (deltaMS now : Z) :
  rooms w !! rid = Some r ->
  (forall n : nat, (clockReads w <= n)%nat -> clock w n = now) ->
  outbox (exec (roomTick deltaMS rid) w) =
    outbox w ++
      (if 10000 <? now - js_or (RoomState.lastPowerupSpawn (roomState r)) 0
       then [mkBroadcast rid "powerupSpawned" (PowerupPayload (tickSpawned w now))]
       else []).
Proof.
  intros Hroom Hclock.
  destruct (roomTick_effect w rid r deltaMS now Hroom Hclock)
    as (w' & Hrun & _ & _ & Hout).
  unfold exec. rewrite Hrun. exact Hout.
Qed.

(** When no powerup of the list has expired, a due tick appends the spawned
    powerup and moves [lastPowerupSpawn] to [now]. *)
Lemma roomTick_spawn_kept_without_expiry
    (w : World) (rid : string) (r : Room) (deltaMS now : Z) :
  rooms w !! rid = Some r ->
  (forall n : nat, (clockReads w <= n)%nat -> clock w n = now) ->
  10000 < now - js_or (RoomState.lastPowerupSpawn (roomState r)) 0 ->
  (forall p, In p (powerupsOf w rid) -> now - Powerup.createdAt p < 30000) ->
  powerupsOf (exec (roomTick deltaMS rid) w) rid
    = powerupsOf w rid ++ [tickSpawned w now] /\
  (roomStateOf (exec (roomTick deltaMS rid) w) rid) ≫= RoomState.lastPowerupSpawn
    = Some now.
Proof.
  intros Hroom Hclock Hdue Hyoung.
  assert (Hbefore : powerupsOf w rid = tickOld r).
  { unfold powerupsOf, roomStateOf, tickOld. rewrite Hroom. reflexivity. }
  assert (Hd : tickDue r now = true) by (apply Z.ltb_lt; exact Hdue).
  assert (Hs : tickStale r now = false).
  { unfold tickStale, tickKept. apply negb_false_iff, Nat.eqb_eq. f_equal.
    apply List.forallb_filter_id, List.forallb_forall.
    intros p Hin. apply Z.ltb_lt, Hyoung. rewrite Hbefore. exact Hin. }
  split.
  - rewrite (roomTick_powerups w rid r deltaMS now Hroom Hclock), Hs, Hd, Hbefore.
    reflexivity.
  - destruct (roomTick_effect w rid r deltaMS now Hroom Hclock)
      as (w' & Hrun & Hstate & _).
    unfold exec. rewrite Hrun. cbn. rewrite Hstate, Hd. reflexivity.
Qed.

(** C6. The tick loses the powerup it spawns when the list it read at its
    start holds an expired one.  With [lastPowerupSpawn = now - 15000] and one
    powerup created 40000 ms ago, the tick runs the spawner (one
    "powerupSpawned" broadcast, [lastPowerupSpawn] moved to [now]) and then
    overwrites the list with the filtered copy of the list read before the
    spawn: the list ends empty, without the new powerup. *)
Theorem roomTick_overwrites_spawned_powerup :
  let w := stockedArena [relic 960000] 985000 1000000 in
  let w' := exec (roomTick 50 "arena") w in
  let spawned :=
    Powerup.mk "powerup_1000000" 100 100 (Some "health"%string) 1000000 in
  (roomStateOf w "arena") ≫= RoomState.lastPowerupSpawn = Some (1000000 - 15000) /\
  outbox w' = [mkBroadcast "arena" "powerupSpawned" (PowerupPayload spawned)] /\
  (roomStateOf w' "arena") ≫= RoomState.lastPowerupSpawn = Some 1000000 /\
  powerupsOf w' "arena" = [] /\
  ~ In spawned (powerupsOf w' "arena").
Proof.
  cbv zeta. repeat split; try reflexivity.
  intros Hin. vm_compute in Hin. exact Hin.
Qed.

(** ** Powerup ids *)

Lemma string_of_Z_inj (a b : Z) : string_of_Z a = string_of_Z b -> a = b.
Proof.
  unfold string_of_Z. intros Heq.
  assert (Hint : Z.to_int a = Z.to_int b).
  { pose proof (NilEmpty.isi (Z.to_int a)) as Ha.
    pose proof (NilEmpty.isi (Z.to_int b)) as Hb.
    rewrite Heq in Ha. congruence. }
  rewrite <- (DecimalZ.of_to a), <- (DecimalZ.of_to b), Hint. reflexivity.
Qed.

Lemma append_inj_r (s a b : string) : (s ++ a = s ++ b)%string -> a = b.
Proof.
  induction s as [|c s IH]; cbn; intros Heq; [exact Heq|].
  injection Heq as Heq. apply IH. exact Heq.
Qed.

(** The powerup that a call of [spawnPowerup] appends to the list of its
    room. *)
Lemma spawnPowerup_appends (ctx : Ctx) (w : World) (rid : string) (r : Room) :
  roomOf w ctx = Some rid ->
  rooms w !! rid = Some r ->
  powerupsOf (exec (spawnPowerup ctx) w) rid =
    powerupsOf w rid ++
      [spawnedPowerup w (clock w (clockReads w)) (clock w (S (clockReads w)))].
Proof.
  intros Hctx Hroom. unfold exec.
  rewrite (spawnPowerup_run ctx w rid r Hctx Hroom).
  unfold powerupsOf, roomStateOf. cbn. rewrite lookup_insert_eq, Hroom. reflexivity.
Qed.

(** C8, as stated, fails: the id has no counter.  Two calls of
    [spawnPowerup] at the same clock reading leave two powerups with the same
    id in the list. *)
Lemma spawnPowerup_same_timestamp_same_id :
  let w := stockedArena [] 0 1000000 in
  let w' := exec (spawnPowerup (AsUser "bob")) (exec (spawnPowerup (AsUser "alice")) w) in
  exists p q : Powerup.t,
    powerupsOf w' "arena" = [p; q] /\
    Powerup.id p = "powerup_1000000"%string /\
    Powerup.id q = "powerup_1000000"%string /\
    ~ NoDup (Powerup.id <$> powerupsOf w' "arena").
Proof.
  cbv zeta. eexists. eexists.
  split; [vm_compute; reflexivity|]. split; [reflexivity|]. split; [reflexivity|].
  intros Hnodup. vm_compute in Hnodup.
  apply NoDup_cons_1_1 in Hnodup. apply Hnodup. left.
Qed.

(** C8, amended. The id of a spawned powerup is ["powerup_"] followed by
    the clock reading taken for it, and nothing else: the powerups appended by
    two calls of [spawnPowerup] have the same id exactly when the two calls
    read the same clock value. *)
Theorem spawnPowerup_id_is_clock_reading
    (ctx1 ctx2 : Ctx) (w1 w2 : World) (rid1 rid2 : string) (r1 r2 : Room) :
  roomOf w1 ctx1 = Some rid1 -> rooms w1 !! rid1 = Some r1 ->
  roomOf w2 ctx2 = Some rid2 -> rooms w2 !! rid2 = Some r2 ->
  exists p1 p2 : Powerup.t,
    powerupsOf (exec (spawnPowerup ctx1) w1) rid1 = powerupsOf w1 rid1 ++ [p1] /\
    powerupsOf (exec (spawnPowerup ctx2) w2) rid2 = powerupsOf w2 rid2 ++ [p2] /\
    Powerup.id p1 = ("powerup_" ++ string_of_Z (clock w1 (clockReads w1)))%string /\
    Powerup.id p2 = ("powerup_" ++ string_of_Z (clock w2 (clockReads w2)))%string /\
    (Powerup.id p1 = Powerup.id p2 <->
     clock w1 (clockReads w1) = clock w2 (clockReads w2)).
Proof.
  intros Hc1 Hr1 Hc2 Hr2.
  exists (spawnedPowerup w1 (clock w1 (clockReads w1)) (clock w1 (S (clockReads w1)))).
  exists (spawnedPowerup w2 (clock w2 (clockReads w2)) (clock w2 (S (clockReads w2)))).
  split; [apply (spawnPowerup_appends ctx1 w1 rid1 r1 Hc1 Hr1)|].
  split; [apply (spawnPowerup_appends ctx2 w2 rid2 r2 Hc2 Hr2)|].
  split; [reflexivity|]. split; [reflexivity|].
  cbn. split.
  - intros Heq. apply string_of_Z_inj. eapply append_inj_r. exact Heq.
  - intros ->. reflexivity.
Qed.

(** Spawns one millisecond apart get different ids. *)
Lemma spawnPowerup_id_witness :
  exists p1 p2 : Powerup.t,
    powerupsOf (exec (spawnPowerup (AsUser "alice")) (stockedArena [] 0 1000000)) "arena"
      = [p1] /\
    powerupsOf (exec (spawnPowerup (AsTick "arena")) (stockedArena [] 0 1000001)) "arena"
      = [p2] /\
    Powerup.id p1 <> Powerup.id p2.
Proof.
  pose (room := mkRoom ["alice"; "bob"]%string
                  {[ "alice"%string := fighter 100 0; "bob"%string := fighter 100 0 ]}
                  (RoomState.mk (Some true) (Some 0) (Some []) (Some []) (Some 0))).
  destruct (spawnPowerup_id_is_clock_reading (AsUser "alice") (AsTick "arena")
              (stockedArena [] 0 1000000) (stockedArena [] 0 1000001)
              "arena" "arena" room room eq_refl eq_refl eq_refl eq_refl)
    as (p1 & p2 & H1 & H2 & _ & _ & Hiff).
  exists p1, p2. split; [exact H1|]. split; [exact H2|].
  intros Heq. apply Hiff in Heq. discriminate Heq.
Defined.

(** ** Room initialisation *)

Lemma drawnObstacles_length (source : nat -> Q) (count from : nat) :
  length (drawnObstacles source from count) = count.
Proof.
  revert from. induction count as [|n IH]; intros from; cbn; [reflexivity|].
  rewrite IH. reflexivity.
Qed.

Lemma obstacleLoop_run (n : nat) (acc : list Obstacle.t) (w : World) :
  obstacleLoop n acc w =
    (Return (acc ++ drawnObstacles (random w) (randomDraws w) n),
     setRandomDraws (2 * n + randomDraws w) w).
Proof.
  revert acc w. induction n as [|n IH]; intros acc w.
  - cbn. rewrite app_nil_r. destruct w; reflexivity.
  - cbn [obstacleLoop]. unfold randomCoordinate, randomBelow, mathRandom.
    unfold mbind, M_bind, mret, M_ret. rewrite IH. cbn [random randomDraws].
    rewrite <- app_assoc. unfold setRandomDraws. cbn.
    do 2 f_equal. lia.
Qed.

Lemma generateObstacles_run (w : World) :
  generateObstacles w =
    (Return (drawnObstacles (random w) (randomDraws w) OBSTACLE_COUNT),
     setRandomDraws (2 * OBSTACLE_COUNT + randomDraws w) w).
Proof. unfold generateObstacles. rewrite obstacleLoop_run. reflexivity. Qed.

Lemma joinRoomInit_skips (me : string) (read : string * option RoomState.t)
    (st : RoomState.t) (w : World) :
  snd read = Some st ->
  truthy_flag (RoomState.initialized st) = true ->
  joinRoomInit me read w = (Return (fst read), w).
Proof.
  intros Hread Hinit. unfold joinRoomInit. rewrite Hread, Hinit. reflexivity.
Qed.

Lemma joinRoomInit_writes (me : string) (read : string * option RoomState.t)
    (st : RoomState.t) (w : World) (rid : string) (r : Room) :
  snd read = Some st ->
  truthy_flag (RoomState.initialized st) = false ->
  session w !! me = Some rid ->
  rooms w !! rid = Some r ->
  let patch :=
    initPatch (drawnObstacles (random w) (randomDraws w) OBSTACLE_COUNT)
      (clock w (clockReads w)) in
  joinRoomInit me read w =
    (Return (fst read),
     mkWorld
       (<[rid := mkRoom (members r) (userStates r)
                   (mergeRoomState patch (roomState r))]> (rooms w))
       (session w) (allocated w) (allocations w) (clock w) (S (clockReads w))
       (random w) (2 * OBSTACLE_COUNT + randomDraws w)
       (journal w ++ [(rid, patch)]) (outbox w)).
Proof.
  intros Hread Hinit Hsession Hroom patch. subst patch.
  unfold joinRoomInit. rewrite Hread, Hinit. cbn [negb].
  unfold mbind, M_bind. cbv beta. rewrite generateObstacles_run.
  unfold dateNow, updateRoomState, currentRoom, mbind, M_bind, mret, M_ret,
    setRandomDraws, initPatch.
  cbn -[OBSTACLE_COUNT drawnObstacles Nat.mul]. rewrite Hsession.
  cbn -[OBSTACLE_COUNT drawnObstacles Nat.mul]. rewrite Hroom. reflexivity.
Qed.

(** ** Interleaved first joins *)

(** C9, as stated, fails.  Alice and Bob join the new room [arena] with
    their steps interleaved: two layouts are written; the room state read
    between the two writes carries the first layout and the one read
    afterwards carries the second, and the two differ. *)
Lemma racing_first_joins_write_two_layouts :
  let la := drawnObstacles (random lobby) 4 OBSTACLE_COUNT in
  let lb := drawnObstacles (random lobby) 64 OBSTACLE_COUNT in
  layoutWrites (exec (racingJoins "alice" "bob" (Some "arena"%string)) lobby) "arena"
    = [la; lb] /\
  (exists between after : RoomState.t,
     eval (racingJoins "alice" "bob" (Some "arena"%string)) lobby
       = Return (Some between, Some after) /\
     RoomState.obstacles between = Some la /\
     RoomState.obstacles after = Some lb) /\
  la <> lb.
Proof.
  cbv zeta. split; [vm_compute; reflexivity|]. split.
  - eexists. eexists. split; [vm_compute; reflexivity|].
    split; vm_compute; reflexivity.
  - vm_compute. intros Heq. discriminate Heq.
Qed.

(** C9, amended. The initialisation of [joinRoom] looks only at the room
    state its caller read: when two callers in the same room both read it
    uninitialised, each generates its own layout of 30 obstacles and writes
    it.  Two layouts are written; the room carries the first one after the
    first write and the second one after the second. *)
Theorem joinRoomInit_twice_writes_two_layouts
    (w : World) (a b rid : string) (r : Room)
    (readA readB : string * option RoomState.t) (stA stB : RoomState.t) :
  snd readA = Some stA -> truthy_flag (RoomState.initialized stA) = false ->
  snd readB = Some stB -> truthy_flag (RoomState.initialized stB) = false ->
  session w !! a = Some rid ->
  session w !! b = Some rid ->
  rooms w !! rid = Some r ->
  let la := drawnObstacles (random w) (randomDraws w) OBSTACLE_COUNT in
  let lb :=
    drawnObstacles (random w) (2 * OBSTACLE_COUNT + randomDraws w) OBSTACLE_COUNT in
  let w1 := exec (joinRoomInit a readA) w in
  let w2 := exec (joinRoomInit b readB) w1 in
  length la = 30%nat /\ length lb = 30%nat /\
  layoutWrites w2 rid = layoutWrites w rid ++ [la; lb] /\
  (roomStateOf w1 rid) ≫= RoomState.obstacles = Some la /\
  (roomStateOf w2 rid) ≫= RoomState.obstacles = Some lb.
Proof.
  intros HrA HiA HrB HiB Hsa Hsb Hroom la lb w1 w2.
  subst w1 w2 la lb. unfold exec.
  rewrite (joinRoomInit_writes a readA stA w rid r HrA HiA Hsa Hroom).
  cbn [snd].
  erewrite (joinRoomInit_writes b readB stB _ rid _ HrB HiB);
    [| exact Hsb | cbn [rooms]; apply lookup_insert_eq].
  cbn [snd rooms journal random randomDraws clock clockReads].
  split; [apply drawnObstacles_length|]. split; [apply drawnObstacles_length|].
  unfold layoutWrites, roomStateOf. cbn [journal rooms].
  rewrite !lookup_insert_eq. rewrite !omap_app. cbn [omap list_omap fst snd].
  repeat (rewrite decide_True by reflexivity;
          cbn -[drawnObstacles OBSTACLE_COUNT Nat.mul]).
  rewrite <- ?app_assoc. repeat split.
Qed.

(** Alice and Bob, both in the uninitialised arena and both having read it
    so, each write a layout of 30 obstacles. *)
Lemma joinRoomInit_twice_witness :
  let w := arenaWorld {[ "alice"%string := fighter 100 0; "bob"%string := fighter 100 0 ]}
             emptyRoomState 1000000 in
  let w2 := exec (joinRoomInit "bob" ("arena"%string, Some emptyRoomState))
              (exec (joinRoomInit "alice" ("arena"%string, Some emptyRoomState)) w) in
  length (layoutWrites w2 "arena") = 2%nat.
Proof.
  cbv zeta.
  destruct (joinRoomInit_twice_writes_two_layouts
              (arenaWorld {[ "alice"%string := fighter 100 0; "bob"%string := fighter 100 0 ]}
                 emptyRoomState 1000000)
              "alice" "bob" "arena"
              (mkRoom ["alice"; "bob"]%string
                 {[ "alice"%string := fighter 100 0; "bob"%string := fighter 100 0 ]}
                 emptyRoomState)
              ("arena"%string, Some emptyRoomState) ("arena"%string, Some emptyRoomState)
              emptyRoomState emptyRoomState
              eq_refl eq_refl eq_refl eq_refl eq_refl eq_refl eq_refl)
    as (_ & _ & Hwrites & _).
  rewrite Hwrites. reflexivity.
Defined.

(** ** Handlers as sequences of steps

    A handler makes only [R]-steps when the world it leaves is [R]-related to
    the world it started from, whatever its outcome.  For a reflexive and
    transitive [R] this is closed under the constructions of the monad. *)

Section Steps.
Variable R : World -> World -> Prop.
Hypothesis R_refl : forall w, R w w.
Hypothesis R_trans : forall w1 w2 w3, R w1 w2 -> R w2 w3 -> R w1 w3.

Lemma steps_ret {A : Type} (a : A) : steps R (mret a).
Proof. intros w. apply R_refl. Qed.

Lemma steps_throw {A : Type} (e : string) : steps R (@throw A e).
Proof. intros w. apply R_refl. Qed.

Lemma steps_gets {A : Type} (f : World -> A) : steps R (gets f).
Proof. intros w. apply R_refl. Qed.

Lemma steps_bind {A B : Type} (m : M A) (f : A -> M B) :
  steps R m -> (forall a, steps R (f a)) -> steps R (m ≫= f).
Proof.
  intros Hm Hf w. unfold mbind, M_bind. specialize (Hm w).
  destruct (m w) as [[a | e] w1]; cbn in *; [|exact Hm].
  eapply R_trans; [exact Hm | apply Hf].
Qed.

Lemma steps_tryCatch {A : Type} (body : M A) (handler : string -> M A) :
  steps R body -> (forall e, steps R (handler e)) -> steps R (tryCatch body handler).
Proof.
  intros Hb Hh w. unfold tryCatch. specialize (Hb w).
  destruct (body w) as [[a | e] w1]; cbn in *; [exact Hb|].
  eapply R_trans; [exact Hb | apply Hh].
Qed.

Lemma steps_logged {A : Type} (body : M A) : steps R body -> steps R (logged body).
Proof. intros Hb. apply steps_tryCatch; [exact Hb | intros e; apply steps_throw]. Qed.

(** [R] does not look at the session, the counters or the outbox. *)
Hypothesis R_store :
  forall w w', rooms w' = rooms w -> journal w' = journal w -> R w w'.

Lemma steps_dateNow : steps R dateNow.
Proof. intros w. apply R_store; reflexivity. Qed.

Lemma steps_mathRandom : steps R mathRandom.
Proof. intros w. apply R_store; reflexivity. Qed.

Lemma steps_allocateRoom : steps R allocateRoom.
Proof. intros w. apply R_store; reflexivity. Qed.

Lemma steps_currentRoom (ctx : Ctx) : steps R (currentRoom ctx).
Proof.
  intros w. unfold currentRoom. destruct ctx; [|apply R_refl].
  destruct (session w !! account); apply R_refl.
Qed.

Lemma steps_randomBelow (scale : Z) : steps R (randomBelow scale).
Proof.
  apply steps_bind; [apply steps_mathRandom | intros r; apply steps_ret].
Qed.

Lemma steps_randomCoordinate : steps R randomCoordinate.
Proof.
  apply steps_bind; [apply steps_randomBelow | intros r; apply steps_ret].
Qed.

Lemma steps_getRoomState (ctx : Ctx) : steps R (getRoomState ctx).
Proof.
  apply steps_bind; [apply steps_currentRoom | intros rid; apply steps_gets].
Qed.

Lemma steps_getUserState (ctx : Ctx) (id : string) : steps R (getUserState ctx id).
Proof.
  apply steps_bind; [apply steps_currentRoom | intros rid; apply steps_gets].
Qed.

Lemma steps_getRoomUserAccounts (roomId : string) :
  steps R (getRoomUserAccounts roomId).
Proof. apply steps_gets. Qed.

Lemma steps_broadcastToRoom (ctx : Ctx) (event : string) (p : Payload) :
  steps R (broadcastToRoom ctx event p).
Proof.
  apply steps_bind; [apply steps_currentRoom|].
  intros rid w. apply R_store; reflexivity.
Qed.

Lemma steps_generateObstacles : steps R generateObstacles.
Proof.
  intros w. rewrite generateObstacles_run. apply R_store; reflexivity.
Qed.

(** The writes of the store, as far as [R] admits them. *)
Hypothesis R_updateRoomState :
  forall ctx patch,
    RoomState.initialized patch = None -> RoomState.obstacles patch = None ->
    steps R (updateRoomState ctx patch).
Hypothesis R_updateUserState :
  forall ctx id patch,
    (forall h, Player.health patch = Some h -> 0 <= h <= 100) ->
    steps R (updateUserState ctx id patch).
Hypothesis R_globalLeaveRoom : forall me, steps R (globalLeaveRoom me).
Hypothesis R_globalJoinRoom : forall me roomId, steps R (globalJoinRoom me roomId).

Lemma steps_updateMyState (ctx : Ctx) (patch : Player.t) :
  (forall h, Player.health patch = Some h -> 0 <= h <= 100) ->
  steps R (updateMyState ctx patch).
Proof.
  intros Hpatch. destruct ctx; cbn; [apply R_updateUserState; exact Hpatch|].
  apply steps_throw.
Qed.

Ltac patch_side :=
  cbn;
  let H := fresh in
  intros ? H; first [discriminate H | injection H as <-; lia].

Ltac step_through :=
  repeat match goal with
  | |- forall _, _ => intros ?
  | |- steps _ (mret _) => apply steps_ret
  | |- steps _ (throw _) => apply steps_throw
  | |- steps _ (gets _) => apply steps_gets
  | |- steps _ dateNow => apply steps_dateNow
  | |- steps _ (randomBelow _) => apply steps_randomBelow
  | |- steps _ randomCoordinate => apply steps_randomCoordinate
  | |- steps _ (getRoomState _) => apply steps_getRoomState
  | |- steps _ (getUserState _ _) => apply steps_getUserState
  | |- steps _ (getRoomUserAccounts _) => apply steps_getRoomUserAccounts
  | |- steps _ (broadcastToRoom _ _ _) => apply steps_broadcastToRoom
  | |- steps _ generateObstacles => apply steps_generateObstacles
  | |- steps _ (globalLeaveRoom _) => apply R_globalLeaveRoom
  | |- steps _ (globalJoinRoom _ _) => apply R_globalJoinRoom
  | |- steps _ (updateRoomState _ _) =>
      apply R_updateRoomState; [reflexivity | reflexivity]
  | |- steps _ (updateMyState _ _) => apply steps_updateMyState; patch_side
  | |- steps _ (updateUserState _ _ _) => apply R_updateUserState; patch_side
  | |- steps _ (logged _) => apply steps_logged
  | |- steps _ (tryCatch _ _) => apply steps_tryCatch
  | |- steps _ (_ ≫= _) => apply steps_bind
  | |- steps _ (match ?x with _ => _ end) => destruct x
  | |- steps _ (if ?b then _ else _) => destruct b
  | |- steps _ (let _ := _ in _) => cbv zeta
  end.

Lemma steps_joinRoomEnter (me : string) (roomId : option string) :
  steps R (joinRoomEnter me roomId).
Proof. unfold joinRoomEnter. step_through. Qed.

Lemma steps_leaveRoom (me : string) : steps R (leaveRoom me).
Proof. unfold leaveRoom. step_through. Qed.

Lemma steps_setPlayerData (me : string) (name : option string) :
  steps R (setPlayerData me name).
Proof. unfold setPlayerData. step_through. Qed.

Lemma steps_updatePlayerPosition (me : string) (data : PositionData) :
  (forall h, data_health data = Some h -> 0 <= h <= 100) ->
  steps R (updatePlayerPosition me data).
Proof.
  intros Hdata. unfold updatePlayerPosition.
  apply steps_logged, steps_bind; [|intros ?; apply steps_ret].
  apply steps_updateMyState. exact Hdata.
Qed.

Lemma steps_fireProjectile (me projectileData : string) :
  steps R (fireProjectile me projectileData).
Proof. unfold fireProjectile. step_through. Qed.

Lemma steps_playerDied (me : string) (data : DeathData) :
  steps R (playerDied me data).
Proof. unfold playerDied. step_through. Qed.

Lemma steps_spawnPowerup (ctx : Ctx) : steps R (spawnPowerup ctx).
Proof. unfold spawnPowerup. step_through. Qed.

Lemma steps_collectPowerup (me powerupId : string) :
  steps R (collectPowerup me powerupId).
Proof. unfold collectPowerup. step_through. Qed.

Lemma steps_roomTick (deltaMS : Z) (roomId : string) :
  steps R (roomTick deltaMS roomId).
Proof.
  unfold roomTick. step_through. apply steps_spawnPowerup.
Qed.

End Steps.

(** ** What the writes of the store do *)

Lemma updateRoomState_effect (ctx : Ctx) (patch : RoomState.t) (w : World) :
  snd (updateRoomState ctx patch w) = w \/
  exists rid r,
    rooms w !! rid = Some r /\
    snd (updateRoomState ctx patch w) =
      mkWorld
        (<[rid := mkRoom (members r) (userStates r)
                    (mergeRoomState patch (roomState r))]> (rooms w))
        (session w) (allocated w) (allocations w) (clock w) (clockReads w)
        (random w) (randomDraws w) (journal w ++ [(rid, patch)]) (outbox w).
Proof.
  unfold updateRoomState, currentRoom, mbind, M_bind.
  destruct ctx as [me | rid]; cbn.
  - destruct (session w !! me) as [rid|]; cbn; [|left; reflexivity].
    destruct (rooms w !! rid) as [r|] eqn:Hr; cbn; [|left; reflexivity].
    right. exists rid, r. split; [exact Hr | reflexivity].
  - destruct (rooms w !! rid) as [r|] eqn:Hr; cbn; [|left; reflexivity].
    right. exists rid, r. split; [exact Hr | reflexivity].
Qed.

Lemma updateUserState_effect (ctx : Ctx) (id : string) (patch : Player.t) (w : World) :
  snd (updateUserState ctx id patch w) = w \/
  exists rid r,
    rooms w !! rid = Some r /\
    snd (updateUserState ctx id patch w) =
      setRooms
        (<[rid := mkRoom (members r)
                    (<[id := mergePlayer patch
                               (default emptyPlayer (userStates r !! id))]>
                       (userStates r))
                    (roomState r)]> (rooms w)) w.
Proof.
  unfold updateUserState, currentRoom, mbind, M_bind.
  destruct ctx as [me | rid]; cbn.
  - destruct (session w !! me) as [rid|]; cbn; [|left; reflexivity].
    destruct (rooms w !! rid) as [r|] eqn:Hr; cbn; [|left; reflexivity].
    right. exists rid, r. split; [exact Hr | reflexivity].
  - destruct (rooms w !! rid) as [r|] eqn:Hr; cbn; [|left; reflexivity].
    right. exists rid, r. split; [exact Hr | reflexivity].
Qed.

(** ** Health stays between 0 and 100 *)

Lemma keepsHealth_refl (w : World) : keepsHealth w w.
Proof. intros H. exact H. Qed.

Lemma keepsHealth_trans (w1 w2 w3 : World) :
  keepsHealth w1 w2 -> keepsHealth w2 w3 -> keepsHealth w1 w3.
Proof. unfold keepsHealth. auto. Qed.

(** The health bound only depends on the per-user states. *)
Lemma keepsHealth_sub (w w' : World) :
  (forall rid id h, healthOf w' rid id = Some h ->
     healthOf w rid id = Some h \/ 0 <= h <= 100) ->
  keepsHealth w w'.
Proof.
  intros Hsub Hinv rid id h Hh.
  destruct (Hsub rid id h Hh) as [Hold | Hok]; [eapply Hinv; exact Hold | exact Hok].
Qed.

Lemma keepsHealth_store (w w' : World) :
  rooms w' = rooms w -> journal w' = journal w -> keepsHealth w w'.
Proof.
  intros Hrooms _. apply keepsHealth_sub. intros rid id h Hh. left.
  unfold healthOf, playerOf in *. rewrite <- Hrooms. exact Hh.
Qed.

Lemma keepsHealth_updateRoomState (ctx : Ctx) (patch : RoomState.t) :
  steps keepsHealth (updateRoomState ctx patch).
Proof.
  intros w. apply keepsHealth_sub. intros rid id h Hh. left. revert Hh.
  destruct (updateRoomState_effect ctx patch w) as [-> | (rid0 & r & Hr & ->)];
    [trivial|].
  unfold healthOf, playerOf. cbn.
  destruct (decide (rid0 = rid)) as [<-|Hne].
  - rewrite lookup_insert_eq, Hr. trivial.
  - rewrite lookup_insert_ne by assumption. trivial.
Qed.

Lemma keepsHealth_updateUserState (ctx : Ctx) (id : string) (patch : Player.t) :
  (forall h, Player.health patch = Some h -> 0 <= h <= 100) ->
  steps keepsHealth (updateUserState ctx id patch).
Proof.
  intros Hpatch w. apply keepsHealth_sub. intros rid id' h.
  destruct (updateUserState_effect ctx id patch w) as [-> | (rid0 & r & Hr & ->)];
    [auto|].
  unfold healthOf, playerOf. cbn.
  destruct (decide (rid0 = rid)) as [<-|Hne];
    [|rewrite lookup_insert_ne by assumption; auto].
  rewrite lookup_insert_eq, Hr. cbn.
  destruct (decide (id = id')) as [<-|Hid];
    [|rewrite lookup_insert_ne by assumption; auto].
  rewrite lookup_insert_eq. cbn.
  destruct (Player.health patch) as [h'|]; cbn.
  - intros [= <-]. right. apply Hpatch. reflexivity.
  - destruct (userStates r !! id); cbn; [auto | discriminate].
Qed.

Lemma keepsHealth_globalLeaveRoom (me : string) :
  steps keepsHealth (globalLeaveRoom me).
Proof.
  intros w. apply keepsHealth_sub. intros rid id h Hh. left. revert Hh.
  unfold globalLeaveRoom. destruct (session w !! me) as [rid0|]; cbn; [|trivial].
  unfold healthOf, playerOf. cbn. rewrite lookup_alter.
  destruct (decide (rid0 = rid)) as [<-|Hne]; [|trivial].
  destruct (rooms w !! rid0) as [r|]; cbn; [|trivial].
  destruct (decide (me = id)) as [<-|Hid].
  - rewrite lookup_delete_eq. discriminate.
  - rewrite lookup_delete_ne by assumption. trivial.
Qed.

Lemma keepsHealth_globalJoinRoom (me : string) (roomId : option string) :
  steps keepsHealth (globalJoinRoom me roomId).
Proof.
  unfold globalJoinRoom.
  apply steps_bind; [apply keepsHealth_trans | |].
  - destruct roomId as [r|]; [destruct (truthy (Some r))|];
      first [ apply steps_ret; apply keepsHealth_refl
            | apply steps_allocateRoom; apply keepsHealth_store ].
  - intros rid. apply steps_bind; [apply keepsHealth_trans | apply keepsHealth_globalLeaveRoom |].
    intros _. apply steps_bind; [apply keepsHealth_trans | | intros _; apply steps_ret, keepsHealth_refl].
    intros w. apply keepsHealth_sub. intros rid' id h Hh. left. revert Hh.
    unfold healthOf, playerOf. cbn.
    destruct (decide (rid = rid')) as [<-|Hne];
      [|rewrite lookup_insert_ne by assumption; trivial].
    rewrite lookup_insert_eq. cbn.
    destruct (rooms w !! rid); cbn; [trivial|].
    rewrite lookup_empty. discriminate.
Qed.

Ltac health_side :=
  first [ exact keepsHealth_refl | exact keepsHealth_trans
        | exact keepsHealth_store
        | intros; apply keepsHealth_updateRoomState
        | exact keepsHealth_updateUserState
        | exact keepsHealth_globalLeaveRoom
        | exact keepsHealth_globalJoinRoom ].

Lemma keepsHealth_joinRoom (me : string) (roomId : option string) :
  steps keepsHealth (joinRoom me roomId).
Proof.
  unfold joinRoom, joinRoomInit.
  repeat match goal with
  | |- forall _, _ => intros ?
  | |- steps _ (mret _) => apply steps_ret, keepsHealth_refl
  | |- steps _ (throw _) => apply steps_throw, keepsHealth_refl
  | |- steps _ (logged _) =>
      apply steps_logged; [exact keepsHealth_refl | exact keepsHealth_trans |]
  | |- steps _ (_ ≫= _) => apply steps_bind; [exact keepsHealth_trans | |]
  | |- steps _ generateObstacles =>
      apply steps_generateObstacles, keepsHealth_store
  | |- steps _ dateNow => apply steps_dateNow, keepsHealth_store
  | |- steps _ (updateRoomState _ _) => apply keepsHealth_updateRoomState
  | |- steps _ (joinRoomEnter _ _) => apply steps_joinRoomEnter; health_side
  | |- steps _ (match ?x with _ => _ end) => destruct x
  | |- steps _ (if ?b then _ else _) => destruct b
  end.
Qed.

Lemma keepsHealth_playerHit (me : string) (data : HitData) :
  0 <= damage data -> steps keepsHealth (playerHit me data).
Proof.
  intros Hdamage w Hinv.
  destruct (session w !! me) as [rid|] eqn:Hs;
    [|unfold playerHit; unfold_monad; rewrite Hs; exact Hinv].
  destruct (rooms w !! rid) as [r|] eqn:Hr;
    [|unfold playerHit; unfold_monad; rewrite Hs; cbn; rewrite Hr; exact Hinv].
  destruct (userStates r !! targetId data) as [target|] eqn:Ht;
    [|rewrite (playerHit_not_found w me rid r data Hs Hr Ht); exact Hinv].
  revert Hinv. apply (keepsHealth_trans w w _ (keepsHealth_refl w)).
  intros Hinv rid' id h.
  rewrite (playerHit_found w me rid r data Hs Hr target Ht).
  unfold healthOf, playerOf. cbn.
  destruct (decide (rid = rid')) as [<-|Hne];
    [|rewrite lookup_insert_ne by assumption; apply Hinv].
  rewrite lookup_insert_eq. cbn.
  destruct (decide (targetId data = id)) as [<-|Hid].
  - rewrite lookup_insert_eq. cbn. intros [= <-].
    assert (Hold : 0 <= js_or (Player.health target) 100 <= 100).
    { unfold js_or. destruct (Player.health target) as [n|] eqn:Hn; [|lia].
      destruct (n =? 0); [lia|].
      apply (Hinv rid (targetId data) n).
      unfold healthOf, playerOf. rewrite Hr. cbn. rewrite Ht. exact Hn. }
    lia.
  - rewrite lookup_insert_ne by assumption.
    intros Hh. apply (Hinv rid id h).
    unfold healthOf, playerOf. rewrite Hr. exact Hh.
Qed.

Lemma handle_keepsHealth (e : Event) (w : World) :
  polite e -> keepsHealth w (handle e w).
Proof.
  intros Hpolite. destruct e as [me c | deltaMS roomId]; unfold handle, exec.
  - destruct c; cbn [serve].
    + apply keepsHealth_joinRoom.
    + apply steps_leaveRoom; health_side.
    + apply steps_setPlayerData; health_side.
    + apply steps_updatePlayerPosition; [health_side.. | exact Hpolite].
    + apply steps_fireProjectile; health_side.
    + apply keepsHealth_playerHit. exact Hpolite.
    + apply steps_playerDied; health_side.
    + apply steps_spawnPowerup; health_side.
    + apply steps_collectPowerup; health_side.
  - apply steps_roomTick; health_side.
Qed.

(** C1, as stated, fails: [updatePlayerPosition] stores the health that
    the client reports.  Alice reports 150 and her stored health is 150; she
    reports -5 and it is -5. *)
Lemma updatePlayerPosition_stores_any_health :
  healthOf (duel 100 100) "arena" "alice" = Some 100 /\
  healthOf (exec (updatePlayerPosition "alice"
                    (mkPositionData (Some 10) (Some 20) (Some 0) (Some 150)))
              (duel 100 100)) "arena" "alice" = Some 150 /\
  healthOf (exec (updatePlayerPosition "alice"
                    (mkPositionData (Some 10) (Some 20) (Some 0) (Some (-5))))
              (duel 100 100)) "arena" "alice" = Some (-5) /\
  ~ healthBounded (exec (updatePlayerPosition "alice"
                           (mkPositionData (Some 10) (Some 20) (Some 0) (Some 150)))
                     (duel 100 100)).
Proof.
  split; [reflexivity|]. split; [reflexivity|]. split; [reflexivity|].
  intros Hinv. specialize (Hinv "arena"%string "alice"%string 150 eq_refl). lia.
Qed.

(** C1, amended. The health bound is an invariant of every sequence of
    client calls and ticks in which each health reported through
    [updatePlayerPosition] lies in [0, 100] and each damage passed to
    [playerHit] is not negative. *)
Theorem health_bounded_for_polite_events (es : list Event) (w : World) :
  healthBounded w ->
  Forall polite es ->
  healthBounded (run es w).
Proof.
  intros Hinv Hpolite. revert w Hinv.
  induction Hpolite as [|e es He _ IH]; intros w Hinv; [exact Hinv|].
  cbn. apply IH. apply (handle_keepsHealth e w He Hinv).
Qed.

(** The sample game, played from the empty lobby, keeps every health in
    range and leaves Bob at 100. *)
Lemma health_bounded_witness :
  healthBounded (run sampleGame lobby) /\
  healthOf (run sampleGame lobby) "arena" "bob" = Some 100.
Proof.
  split; [|vm_compute; reflexivity].
  apply (health_bounded_for_polite_events sampleGame lobby).
  - intros rid id h Hh. discriminate Hh.
  - unfold sampleGame.
    repeat (constructor;
            [cbn; first [exact I | lia | intros ? [= <-]; lia] |]).
    constructor.
Defined.

(** ** Entering a room *)

Lemma globalJoinRoom_run (me : string) (roomId : option string) (w : World) :
  exists (j : string) (r : Room) (wj : World),
    globalJoinRoom me roomId w = (Return j, wj) /\
    session wj !! me = Some j /\
    rooms wj !! j = Some r /\
    (truthy roomId = true -> roomId = Some j).
Proof.
  unfold globalJoinRoom, globalLeaveRoom, allocateRoom, modify, mbind, M_bind,
    mret, M_ret.
  destruct roomId as [rid|]; [destruct (truthy (Some rid)) eqn:Hgiven|];
    cbn [session rooms fst snd];
    destruct (session w !! me); cbn [session rooms fst snd];
    (do 3 eexists; split; [reflexivity|];
     unfold setSession, setRooms; cbn [session rooms];
     rewrite !lookup_insert_eq; repeat split; try discriminate).
Qed.

Lemma joinRoomEnter_full (me : string) (roomId : option string) (w : World) :
  roomFull w roomId = true ->
  joinRoomEnter me roomId w = (Throw "Room is full"%string, w).
Proof.
  unfold roomFull, joinRoomEnter. intros Hfull.
  apply andb_true_iff in Hfull as [Hgiven Hfull]. rewrite Hgiven.
  unfold getRoomUserAccounts, gets, mbind, M_bind. cbn.
  destruct (rooms w !! default EmptyString roomId) as [r|]; [|discriminate]. cbn.
  apply bool_decide_eq_true in Hfull.
  destruct (decide (MAX_PLAYERS_PER_ROOM ≤ length (members r))%nat);
    [reflexivity | contradiction].
Qed.

Lemma joinRoomEnter_run (me : string) (roomId : option string) (w : World) :
  roomFull w roomId = false ->
  exists (j : string) (st : RoomState.t) (w1 : World),
    joinRoomEnter me roomId w = (Return (j, Some st), w1) /\
    session w1 !! me = Some j /\
    roomStateOf w1 j = Some st /\
    (truthy roomId = true -> roomId = Some j).
Proof.
  intros Hfree.
  destruct (globalJoinRoom_run me roomId w) as (j & r & wj & Hjoin & Hs & Hr & Hj).
  exists j, (roomState r).
  unfold joinRoomEnter.
  assert (Hcheck :
    (if truthy roomId
     then roomUsers ← getRoomUserAccounts (default EmptyString roomId);
          match roomUsers with
          | Some users =>
              if decide (MAX_PLAYERS_PER_ROOM ≤ length users)%nat
              then throw "Room is full" else mret tt
          | None => mret tt
          end
     else mret tt) w = (Return tt, w)).
  { unfold roomFull in Hfree. destruct (truthy roomId); [|reflexivity].
    cbn in Hfree. unfold getRoomUserAccounts, gets, mbind, M_bind. cbn.
    destruct (rooms w !! default EmptyString roomId) as [r0|]; [|reflexivity]. cbn.
    apply bool_decide_eq_false in Hfree.
    destruct (decide (MAX_PLAYERS_PER_ROOM ≤ length (members r0))%nat);
      [contradiction | reflexivity]. }
  unfold mbind at 1. unfold M_bind at 1. rewrite Hcheck.
  unfold mbind at 1. unfold M_bind at 1. rewrite Hjoin.
  unfold randomCoordinate, randomBelow, mathRandom, updateMyState,
    updateUserState, getRoomState, currentRoom, gets, mbind, M_bind, mret, M_ret.
  cbn. rewrite Hs. cbn. rewrite Hr. cbn. rewrite Hs. cbn.
  rewrite lookup_insert_eq. cbn.
  eexists. split; [reflexivity|]. cbn. split; [exact Hs|].
  unfold roomStateOf. cbn. rewrite lookup_insert_eq. split; [reflexivity | exact Hj].
Qed.

(** ** The obstacle layout is written once *)

Section LayoutKept.
Variable rid : string.

Lemma layoutKept_refl (w : World) : layoutKept rid w w.
Proof.
  split; [reflexivity|]. destruct (roomStateOf w rid) as [st|]; eauto.
Qed.

Lemma layoutKept_trans (w1 w2 w3 : World) :
  layoutKept rid w1 w2 -> layoutKept rid w2 w3 -> layoutKept rid w1 w3.
Proof.
  intros [Hw12 H12] [Hw23 H23]. split; [congruence|].
  destruct (roomStateOf w1 rid) as [st1|].
  - destruct H12 as (st2 & Hst2 & Hi & Ho). rewrite Hst2 in H23.
    destruct H23 as (st3 & Hst3 & Hi' & Ho'). exists st3. repeat split; congruence.
  - destruct H12 as [Hnone | (st2 & Hst2 & Hi)].
    + rewrite Hnone in H23. exact H23.
    + rewrite Hst2 in H23. destruct H23 as (st3 & Hst3 & Hi' & _).
      right. exists st3. split; congruence.
Qed.

Lemma layoutKept_store (w w' : World) :
  rooms w' = rooms w -> journal w' = journal w -> layoutKept rid w w'.
Proof.
  intros Hrooms Hjournal. unfold layoutKept, layoutWrites, roomStateOf.
  rewrite Hrooms, Hjournal. split; [reflexivity|].
  destruct (rooms w !! rid) as [r|]; cbn; eauto.
Qed.

(** A change of one room that keeps its room state. *)
Lemma layoutKept_same_state (w w' : World) (rid0 : string) (r r' : Room) :
  rooms w !! rid0 = Some r ->
  rooms w' = <[rid0 := r']> (rooms w) ->
  RoomState.initialized (roomState r') = RoomState.initialized (roomState r) ->
  RoomState.obstacles (roomState r') = RoomState.obstacles (roomState r) ->
  layoutWrites w' rid = layoutWrites w rid ->
  layoutKept rid w w'.
Proof.
  intros Hr Hrooms Hi Ho Hwrites. split; [exact Hwrites|].
  unfold roomStateOf. rewrite Hrooms.
  destruct (decide (rid0 = rid)) as [<-|Hne].
  - rewrite lookup_insert_eq, Hr. cbn. eauto.
  - rewrite lookup_insert_ne by assumption.
    destruct (rooms w !! rid) as [r0|]; cbn; eauto.
Qed.

Lemma layoutKept_updateRoomState (ctx : Ctx) (patch : RoomState.t) :
  RoomState.initialized patch = None ->
  RoomState.obstacles patch = None ->
  steps (layoutKept rid) (updateRoomState ctx patch).
Proof.
  intros Hi Ho w.
  destruct (updateRoomState_effect ctx patch w) as [-> | (rid0 & r & Hr & ->)];
    [apply layoutKept_refl|].
  eapply layoutKept_same_state; [exact Hr | reflexivity | | |]; cbn.
  - rewrite Hi. reflexivity.
  - rewrite Ho. reflexivity.
  - unfold layoutWrites. cbn. rewrite omap_app. cbn. rewrite Ho.
    destruct (decide (rid0 = rid)); cbn; apply app_nil_r.
Qed.

Lemma layoutKept_updateUserState (ctx : Ctx) (id : string) (patch : Player.t) :
  steps (layoutKept rid) (updateUserState ctx id patch).
Proof.
  intros w.
  destruct (updateUserState_effect ctx id patch w) as [-> | (rid0 & r & Hr & ->)];
    [apply layoutKept_refl|].
  eapply layoutKept_same_state; [exact Hr | reflexivity | | |]; reflexivity.
Qed.

Lemma layoutKept_globalLeaveRoom (me : string) :
  steps (layoutKept rid) (globalLeaveRoom me).
Proof.
  intros w. unfold globalLeaveRoom.
  destruct (session w !! me) as [rid0|]; cbn; [|apply layoutKept_refl].
  split; [reflexivity|]. unfold roomStateOf. cbn. rewrite lookup_alter.
  destruct (decide (rid0 = rid)) as [<-|Hne].
  - destruct (rooms w !! rid0) as [r|]; cbn; eauto.
  - destruct (rooms w !! rid) as [r|]; cbn; eauto.
Qed.

Lemma layoutKept_globalJoinRoom (me : string) (roomId : option string) :
  steps (layoutKept rid) (globalJoinRoom me roomId).
Proof.
  unfold globalJoinRoom.
  apply steps_bind; [apply layoutKept_trans | |].
  - destruct roomId as [r|]; [destruct (truthy (Some r))|];
      first [ apply steps_ret; apply layoutKept_refl
            | apply steps_allocateRoom; apply layoutKept_store ].
  - intros j.
    apply steps_bind; [apply layoutKept_trans | apply layoutKept_globalLeaveRoom |].
    intros _.
    apply steps_bind;
      [apply layoutKept_trans | | intros _; apply steps_ret, layoutKept_refl].
    intros w. split; [reflexivity|]. unfold roomStateOf. cbn.
    destruct (decide (j = rid)) as [<-|Hne].
    + rewrite lookup_insert_eq.
      destruct (rooms w !! j) as [r|]; cbn; eauto.
    + rewrite lookup_insert_ne by assumption.
      destruct (rooms w !! rid) as [r|]; cbn; eauto.
Qed.

End LayoutKept.

Lemma layoutKept_once (rid : string) (w w' : World) :
  layoutKept rid w w' -> layoutOnce w rid -> layoutOnce w' rid.
Proof.
  unfold layoutKept, layoutOnce. intros [Hwrites Hstate].
  destruct (roomStateOf w rid) as [st|].
  - destruct Hstate as (st' & -> & -> & ->). rewrite Hwrites. trivial.
  - destruct Hstate as [-> | (st' & -> & ->)]; cbn; congruence.
Qed.

Ltac layout_side :=
  first [ exact (layoutKept_refl _) | exact (layoutKept_trans _)
        | exact (layoutKept_store _)
        | exact (layoutKept_updateRoomState _)
        | intros; apply layoutKept_updateUserState
        | exact (layoutKept_globalLeaveRoom _)
        | exact (layoutKept_globalJoinRoom _) ].

Ltac layout_steps :=
  repeat match goal with
  | |- forall _, _ => intros ?
  | |- steps _ (mret _) => apply steps_ret, layoutKept_refl
  | |- steps _ (logged _) =>
      apply steps_logged; [exact (layoutKept_refl _) | exact (layoutKept_trans _) |]
  | |- steps _ (_ ≫= _) => apply steps_bind; [exact (layoutKept_trans _) | |]
  | |- steps _ (getUserState _ _) =>
      apply steps_getUserState;
      [exact (layoutKept_refl _) | exact (layoutKept_trans _)]
  | |- steps _ (updateUserState _ _ _) => apply layoutKept_updateUserState
  | |- steps _ (match ?x with _ => _ end) => destruct x
  | |- steps _ (let _ := _ in _) => cbv zeta
  end.

Lemma layoutKept_playerHit (rid me : string) (data : HitData) :
  steps (layoutKept rid) (playerHit me data).
Proof. unfold playerHit. layout_steps. Qed.

Lemma layoutKept_updatePlayerPosition (rid me : string) (data : PositionData) :
  steps (layoutKept rid) (updatePlayerPosition me data).
Proof. unfold updatePlayerPosition, updateMyState. layout_steps. Qed.

Lemma initialisedWorld_writes (j : string) (r : Room) (w : World) (rid : string) :
  layoutWrites (initialisedWorld j r w) rid =
    layoutWrites w rid ++
      (if decide (j = rid)
       then [drawnObstacles (random w) (randomDraws w) OBSTACLE_COUNT] else []).
Proof.
  unfold layoutWrites, initialisedWorld. cbn [journal].
  rewrite omap_app. cbn [omap list_omap fst snd initPatch RoomState.obstacles].
  destruct (decide (j = rid)); reflexivity.
Qed.

Lemma initialisedWorld_state (j : string) (r : Room) (w : World) (rid : string) :
  roomStateOf (initialisedWorld j r w) rid =
    if decide (j = rid)
    then Some (mergeRoomState
                 (initPatch (drawnObstacles (random w) (randomDraws w) OBSTACLE_COUNT)
                    (clock w (clockReads w)))
                 (roomState r))
    else roomStateOf w rid.
Proof.
  unfold roomStateOf, initialisedWorld. cbn [rooms].
  destruct (decide (j = rid)) as [<-|Hne].
  - rewrite lookup_insert_eq. reflexivity.
  - rewrite lookup_insert_ne by assumption. reflexivity.
Qed.

(** What a join that is not turned away does: it enters a room [j] without
    touching any layout, and writes a layout to [j] exactly when it read the
    room uninitialised. *)
Lemma joinRoom_run (me : string) (roomId : option string) (w : World) :
  roomFull w roomId = false ->
  exists (j : string) (r1 : Room) (w1 : World),
    (forall rid, layoutKept rid w w1) /\
    rooms w1 !! j = Some r1 /\
    (truthy roomId = true -> roomId = Some j) /\
    joinRoom me roomId w =
      (Return j,
       if truthy_flag (RoomState.initialized (roomState r1)) then w1
       else initialisedWorld j r1 w1).
Proof.
  intros Hfree.
  destruct (joinRoomEnter_run me roomId w Hfree) as (j & st & w1 & Henter & Hs & Hst & Hj).
  assert (Hr : exists r1, rooms w1 !! j = Some r1 /\ roomState r1 = st).
  { unfold roomStateOf in Hst. destruct (rooms w1 !! j) as [r1|]; [|discriminate].
    exists r1. split; [reflexivity|]. cbn in Hst. congruence. }
  destruct Hr as (r1 & Hr1 & <-).
  exists j, r1, w1. split; [|split; [exact Hr1 | split; [exact Hj|]]].
  - intros rid.
    pose proof (steps_joinRoomEnter (layoutKept rid) (layoutKept_refl rid)
                  (layoutKept_trans rid) (layoutKept_store rid)
                  (fun ctx id patch _ => layoutKept_updateUserState rid ctx id patch)
                  (layoutKept_globalJoinRoom rid) me roomId w) as Hkept.
    rewrite Henter in Hkept. exact Hkept.
  - unfold joinRoom, logged, tryCatch. unfold mbind at 1. unfold M_bind at 1.
    rewrite Henter.
    destruct (truthy_flag (RoomState.initialized (roomState r1))) eqn:Hinit.
    + rewrite (joinRoomInit_skips me (j, Some (roomState r1)) (roomState r1) w1
                 eq_refl Hinit). reflexivity.
    + rewrite (joinRoomInit_writes me (j, Some (roomState r1)) (roomState r1) w1 j r1
                 eq_refl Hinit Hs Hr1). reflexivity.
Qed.

Lemma joinRoom_full (me : string) (roomId : option string) (w : World) :
  roomFull w roomId = true ->
  joinRoom me roomId w = (Throw "Room is full"%string, w).
Proof.
  intros Hfull. unfold joinRoom, logged, tryCatch. unfold mbind, M_bind.
  rewrite (joinRoomEnter_full me roomId w Hfull). reflexivity.
Qed.

Lemma layoutKept_step (rid : string) (w w' : World) :
  layoutKept rid w w' -> layoutStep rid w w'.
Proof.
  intros Hkept Honce. split; [eapply layoutKept_once; eassumption|].
  destruct Hkept as [-> _]. reflexivity.
Qed.

Lemma layoutOnce_uninitialised (w : World) (rid : string) (r : Room) :
  layoutOnce w rid ->
  rooms w !! rid = Some r ->
  truthy_flag (RoomState.initialized (roomState r)) = false ->
  layoutWrites w rid = [].
Proof.
  unfold layoutOnce, roomStateOf. intros Honce Hr Hinit.
  rewrite Hr in Honce. cbn in Honce. rewrite Hinit in Honce. exact Honce.
Qed.

Lemma initialisedWorld_once (rid : string) (r : Room) (w : World) :
  layoutWrites w rid = [] ->
  layoutOnce (initialisedWorld rid r w) rid.
Proof.
  intros Hnone. unfold layoutOnce.
  rewrite initialisedWorld_state, initialisedWorld_writes, Hnone.
  rewrite !decide_True by reflexivity. cbn [mergeRoomState initPatch override
    RoomState.initialized RoomState.obstacles truthy_flag app].
  eexists. split; [reflexivity|]. split; [reflexivity|].
  apply drawnObstacles_length.
Qed.

Lemma layoutStep_joinRoom (rid me : string) (roomId : option string) (w : World) :
  layoutStep rid w (exec (joinRoom me roomId) w).
Proof.
  unfold exec. destruct (roomFull w roomId) eqn:Hfull.
  - rewrite (joinRoom_full me roomId w Hfull). cbn.
    apply layoutKept_step, layoutKept_refl.
  - destruct (joinRoom_run me roomId w Hfull) as (j & r1 & w1 & Hkept & Hr1 & _ & ->).
    cbn [snd]. specialize (Hkept rid).
    destruct (truthy_flag (RoomState.initialized (roomState r1))) eqn:Hinit;
      [apply layoutKept_step; exact Hkept|].
    intros Honce. pose proof (layoutKept_once rid w w1 Hkept Honce) as Honce1.
    destruct Hkept as [Hwrites _].
    destruct (decide (j = rid)) as [->|Hne].
    + pose proof (layoutOnce_uninitialised w1 rid r1 Honce1 Hr1 Hinit) as Hnone.
      split; [apply initialisedWorld_once; exact Hnone|].
      rewrite <- Hwrites, Hnone. apply prefix_nil.
    + split.
      * unfold layoutOnce.
        rewrite initialisedWorld_state, initialisedWorld_writes.
        rewrite !decide_False by assumption. rewrite app_nil_r. exact Honce1.
      * rewrite initialisedWorld_writes, decide_False by assumption.
        rewrite app_nil_r, Hwrites. reflexivity.
Qed.

Lemma handle_layoutStep (rid : string) (e : Event) (w : World) :
  layoutStep rid w (handle e w).
Proof.
  destruct e as [me c | deltaMS roomId]; unfold handle.
  - destruct c; cbn [serve]; try apply layoutStep_joinRoom;
      apply layoutKept_step; unfold exec.
    + apply steps_leaveRoom; layout_side.
    + apply steps_setPlayerData; layout_side.
    + apply layoutKept_updatePlayerPosition.
    + apply steps_fireProjectile; layout_side.
    + apply layoutKept_playerHit.
    + apply steps_playerDied; layout_side.
    + apply steps_spawnPowerup; layout_side.
    + apply steps_collectPowerup; layout_side.
  - apply layoutKept_step. unfold exec. apply steps_roomTick; layout_side.
Qed.

Lemma run_layoutStep (rid : string) (es : list Event) (w : World) :
  layoutStep rid w (run es w).
Proof.
  revert w. induction es as [|e es IH]; intros w Honce; cbn.
  - split; [exact Honce | reflexivity].
  - destruct (handle_layoutStep rid e w Honce) as [Honce1 Hpre1].
    destruct (IH (handle e w) Honce1) as [Honce2 Hpre2].
    split; [exact Honce2 | etransitivity; eassumption].
Qed.

Lemma layoutOnce_writes (w : World) (rid : string) :
  layoutOnce w rid ->
  (length (layoutWrites w rid) <= 1)%nat /\
  (forall obs, In obs (layoutWrites w rid) ->
     length obs = OBSTACLE_COUNT /\
     (roomStateOf w rid) ≫= RoomState.obstacles = Some obs /\
     (roomStateOf w rid) ≫= RoomState.initialized = Some true).
Proof.
  unfold layoutOnce. destruct (roomStateOf w rid) as [st|]; cbn.
  - destruct (RoomState.initialized st) as [[|]|] eqn:Hinit; cbn.
    + intros (obs & -> & Hobs & Hlen). split; [cbn; lia|].
      intros obs' [<- | []]. auto.
    + intros ->. split; [cbn; lia | intros obs []].
    + intros ->. split; [cbn; lia | intros obs []].
  - intros ->. split; [cbn; lia | intros obs []].
Qed.

(** C5. Starting from a world in which the room [rid] has its layout if
    and only if it was written once (a world without rooms, for one), after
    any sequence of calls and ticks handled one after the other: at most one
    layout has ever been written to [rid]; a written layout has exactly 30
    obstacles, is the one the room state carries, and goes with
    [initialized = true]; a layout that was there at the start is still the
    only one written and still the one stored; and a join of [rid] that is
    not turned away while [rid] has no layout writes one. *)
Theorem obstacle_layout_written_once (es : list Event) (w : World) (rid : string) :
  layoutOnce w rid ->
  (length (layoutWrites (run es w) rid) <= 1)%nat /\
  (forall obs, In obs (layoutWrites (run es w) rid) ->
     length obs = 30%nat /\
     (roomStateOf (run es w) rid) ≫= RoomState.obstacles = Some obs /\
     (roomStateOf (run es w) rid) ≫= RoomState.initialized = Some true) /\
  (forall obs, layoutWrites w rid = [obs] ->
     layoutWrites (run es w) rid = [obs]) /\
  (forall me, rid <> EmptyString ->
     roomFull (run es w) (Some rid) = false ->
     layoutWrites (run es w) rid = [] ->
     exists obs,
       layoutWrites (handle (Rpc me (JoinRoom (Some rid))) (run es w)) rid = [obs] /\
       length obs = 30%nat /\
       (roomStateOf (handle (Rpc me (JoinRoom (Some rid))) (run es w)) rid)
         ≫= RoomState.obstacles = Some obs /\
       (roomStateOf (handle (Rpc me (JoinRoom (Some rid))) (run es w)) rid)
         ≫= RoomState.initialized = Some true).
Proof.
  intros Honce.
  destruct (run_layoutStep rid es w Honce) as [Hafter Hprefix].
  destruct (layoutOnce_writes (run es w) rid Hafter) as [Hle Hall].
  split; [exact Hle|]. split; [exact Hall|]. split.
  - intros obs Hw. rewrite Hw in Hprefix. destruct Hprefix as [k Hk].
    rewrite Hk in Hle |- *. destruct k; [reflexivity | cbn in Hle; lia].
  - intros me Hrid Hfree Hnone.
    destruct (handle_layoutStep rid (Rpc me (JoinRoom (Some rid))) (run es w) Hafter)
      as [Hjoined _].
    destruct (layoutOnce_writes _ rid Hjoined) as [_ Hstored].
    cut (exists obs,
           layoutWrites (handle (Rpc me (JoinRoom (Some rid))) (run es w)) rid = [obs]).
    { intros [obs Hobs]. exists obs. split; [exact Hobs|].
      apply Hstored. rewrite Hobs. left. reflexivity. }
    clear Hjoined Hstored. cbn [handle serve]. unfold exec.
    assert (Hgiven : truthy (Some rid) = true) by (destruct rid; [contradiction | reflexivity]).
    destruct (joinRoom_run me (Some rid) (run es w) Hfree)
      as (j & r1 & w1 & Hkept & Hr1 & Hj & ->).
    specialize (Hj Hgiven). injection Hj as <-. specialize (Hkept rid).
    pose proof (layoutKept_once rid _ w1 Hkept Hafter) as Honce1.
    destruct Hkept as [Hwrites _]. cbn [snd].
    destruct (truthy_flag (RoomState.initialized (roomState r1))) eqn:Hinit.
    + exfalso. unfold layoutOnce, roomStateOf in Honce1.
      rewrite Hr1 in Honce1. cbn in Honce1. rewrite Hinit in Honce1.
      destruct Honce1 as (obs & Hone & _). congruence.
    + eexists. rewrite initialisedWorld_writes, decide_True by reflexivity.
      rewrite Hwrites, Hnone. reflexivity.
Qed.

(** From the empty lobby, the sample game leaves the arena with the one
    layout that Alice's join wrote. *)
Lemma obstacle_layout_witness :
  (length (layoutWrites (run sampleGame lobby) "arena") <= 1)%nat /\
  layoutWrites (run sampleGame lobby) "arena"
    = [drawnObstacles (random lobby) 2 OBSTACLE_COUNT].
Proof.
  split; [|vm_compute; reflexivity].
  apply (obstacle_layout_written_once sampleGame lobby "arena").
  reflexivity.
Defined.

(** * Further properties of the coordinator *)

(** ** Collecting powerups *)

Lemma collectPowerup_run (w : World) (me rid powerupId : string) (r : Room) :
  session w !! me = Some rid ->
  rooms w !! rid = Some r ->
  collectPowerup me powerupId w =
    (Return "success"%string,
     mkWorld
       (<[rid := mkRoom (members r) (userStates r)
                   (mergeRoomState (collectPatch powerupId (powerupsOf w rid))
                      (roomState r))]> (rooms w))
       (session w) (allocated w) (allocations w) (clock w) (clockReads w)
       (random w) (randomDraws w)
       (journal w ++ [(rid, collectPatch powerupId (powerupsOf w rid))])
       (outbox w)).
Proof.
  intros Hs Hr. unfold collectPowerup, collectPatch, powerupsOf, roomStateOf.
  unfold_monad. rewrite Hs. cbn. rewrite Hr. cbn. rewrite Hs. cbn. rewrite Hr.
  reflexivity.
Qed.

(** X1. Called from inside a room, [collectPowerup] succeeds and leaves in
    the room's list exactly the powerups whose id differs from the one
    collected: every entry with that id goes, every other entry stays. *)
Theorem collectPowerup_removes_exactly_the_id
    (w : World) (me rid powerupId : string) (r : Room) :
  session w !! me = Some rid ->
  rooms w !! rid = Some r ->
  eval (collectPowerup me powerupId) w = Return "success"%string /\
  forall p,
    In p (powerupsOf (exec (collectPowerup me powerupId) w) rid) <->
    In p (powerupsOf w rid) /\ Powerup.id p <> powerupId.
Proof.
  intros Hs Hr. unfold eval, exec.
  rewrite (collectPowerup_run w me rid powerupId r Hs Hr).
  split; [reflexivity|]. intros p. cbn [snd].
  unfold powerupsOf at 1. unfold roomStateOf. cbn [rooms].
  rewrite lookup_insert_eq. cbn.
  rewrite <- !list_elem_of_In, list_elem_of_filter. tauto.
Qed.

(** With two powerups of the same id and one other in the list, collecting
    the id removes both and keeps the other. *)
Lemma collectPowerup_removes_witness :
  In (relic 7)
    (powerupsOf
       (exec (collectPowerup "alice" "powerup_5")
          (stockedArena [relic 5; relic 7; relic 5] 0 1000000)) "arena") /\
  ~ In (relic 5)
    (powerupsOf
       (exec (collectPowerup "alice" "powerup_5")
          (stockedArena [relic 5; relic 7; relic 5] 0 1000000)) "arena").
Proof.
  pose proof (collectPowerup_removes_exactly_the_id
                (stockedArena [relic 5; relic 7; relic 5] 0 1000000)
                "alice" "arena" "powerup_5"
                (mkRoom ["alice"; "bob"]%string
                   {[ "alice"%string := fighter 100 0; "bob"%string := fighter 100 0 ]}
                   (RoomState.mk (Some true) (Some 0)
                      (Some [relic 5; relic 7; relic 5]) (Some []) (Some 0)))
                eq_refl eq_refl) as [_ Hiff].
  split.
  - apply Hiff. split; [right; left; reflexivity | vm_compute; discriminate].
  - intros Hin. apply Hiff in Hin. destruct Hin as [_ Hne]. apply Hne.
    vm_compute. reflexivity.
Defined.

(** X2. Collecting an id that no powerup of the list carries leaves the
    list as it is and still reports success; the call writes the list to the
    room state all the same. *)
Theorem collectPowerup_unknown_id_keeps_list
    (w : World) (me rid powerupId : string) (r : Room) :
  session w !! me = Some rid ->
  rooms w !! rid = Some r ->
  (forall p, In p (powerupsOf w rid) -> Powerup.id p <> powerupId) ->
  eval (collectPowerup me powerupId) w = Return "success"%string /\
  powerupsOf (exec (collectPowerup me powerupId) w) rid = powerupsOf w rid /\
  journal (exec (collectPowerup me powerupId) w) =
    journal w ++
      [(rid, RoomState.mk None None (Some (powerupsOf w rid)) None None)].
Proof.
  intros Hs Hr Hnone. unfold eval, exec.
  rewrite (collectPowerup_run w me rid powerupId r Hs Hr).
  assert (Hsame : filter (fun p => Powerup.id p ≠ powerupId) (powerupsOf w rid)
                  = powerupsOf w rid).
  { induction (powerupsOf w rid) as [|p ps IH]; [reflexivity|].
    rewrite filter_cons_True by (apply Hnone; left; reflexivity).
    f_equal. apply IH. intros q Hq. apply Hnone. right. exact Hq. }
  split; [reflexivity|]. cbn [snd journal]. unfold collectPatch. rewrite Hsame.
  split; [|reflexivity].
  unfold powerupsOf at 1. unfold roomStateOf. cbn [rooms].
  rewrite lookup_insert_eq. reflexivity.
Qed.

(** Collecting an id that is not there. *)
Lemma collectPowerup_unknown_id_witness :
  powerupsOf
    (exec (collectPowerup "alice" "powerup_9")
       (stockedArena [relic 5; relic 7] 0 1000000)) "arena"
  = [relic 5; relic 7].
Proof.
  apply (collectPowerup_unknown_id_keeps_list
           (stockedArena [relic 5; relic 7] 0 1000000) "alice" "arena" "powerup_9"
           (mkRoom ["alice"; "bob"]%string
              {[ "alice"%string := fighter 100 0; "bob"%string := fighter 100 0 ]}
              (RoomState.mk (Some true) (Some 0)
                 (Some [relic 5; relic 7]) (Some []) (Some 0)))
           eq_refl eq_refl).
  intros p Hin. vm_compute in Hin.
  destruct Hin as [<- | [<- | []]]; vm_compute; discriminate.
Defined.

(** ** What a call leaves alone *)

Lemma updateMyState_run (w : World) (me rid : string) (r : Room) (patch : Player.t) :
  session w !! me = Some rid ->
  rooms w !! rid = Some r ->
  updateMyState (AsUser me) patch w =
    (Return tt,
     setRooms
       (<[rid := mkRoom (members r)
                   (<[me := mergePlayer patch
                              (default emptyPlayer (userStates r !! me))]>
                      (userStates r))
                   (roomState r)]> (rooms w)) w).
Proof.
  intros Hs Hr. unfold updateMyState. unfold_monad.
  rewrite Hs. cbn. rewrite Hr. reflexivity.
Qed.

(** The player states after one player state of the room [rid] was
    replaced. *)
Lemma playerOf_replaced (w : World) (rid id : string) (r : Room) (p : Player.t)
    (rid' id' : string) :
  rooms w !! rid = Some r ->
  playerOf
    (setRooms (<[rid := mkRoom (members r) (<[id := p]> (userStates r))
                          (roomState r)]> (rooms w)) w) rid' id' =
    if decide (rid = rid' /\ id = id') then Some p else playerOf w rid' id'.
Proof.
  intros Hr. unfold playerOf. cbn.
  destruct (decide (rid = rid')) as [<-|Hrid].
  - rewrite lookup_insert_eq, Hr. cbn.
    destruct (decide (id = id')) as [<-|Hid].
    + rewrite lookup_insert_eq, decide_True by auto. reflexivity.
    + rewrite lookup_insert_ne, decide_False by tauto. reflexivity.
  - rewrite lookup_insert_ne, decide_False by tauto. reflexivity.
Qed.

(** X3. A hit on a target that has no player state in the caller's room
    returns "player not found" and changes nothing at all. *)
Theorem playerHit_unknown_target_changes_nothing
    (w : World) (me rid : string) (r : Room) (data : HitData) :
  session w !! me = Some rid ->
  rooms w !! rid = Some r ->
  userStates r !! targetId data = None ->
  eval (playerHit me data) w = Return "player not found"%string /\
  exec (playerHit me data) w = w.
Proof.
  intros Hs Hr Ht. unfold eval, exec.
  rewrite (playerHit_not_found w me rid r data Hs Hr Ht). split; reflexivity.
Qed.

(** Alice hits Carol, who is not in the arena. *)
Lemma playerHit_unknown_target_witness :
  eval (playerHit "alice" (mkHitData "carol" "alice" 10)) (duel 100 100)
    = Return "player not found"%string /\
  exec (playerHit "alice" (mkHitData "carol" "alice" 10)) (duel 100 100)
    = duel 100 100.
Proof.
  apply (playerHit_unknown_target_changes_nothing (duel 100 100) "alice" "arena"
           (mkRoom ["alice"; "bob"]%string
              {[ "alice"%string := fighter 100 0; "bob"%string := fighter 100 0 ]}
              readyRoom)
           (mkHitData "carol" "alice" 10) eq_refl eq_refl eq_refl).
Defined.

(** X4. A hit changes the health of its target and nothing else: the
    target keeps its position, angle, score and name, every other player
    state, the room states, the journal and the outbox are as before. *)
Theorem playerHit_changes_only_target_health
    (w : World) (me rid : string) (r : Room) (data : HitData) (target : Player.t) :
  session w !! me = Some rid ->
  rooms w !! rid = Some r ->
  userStates r !! targetId data = Some target ->
  playerOf (exec (playerHit me data) w) rid (targetId data) =
    Some (Player.mk (Player.x target) (Player.y target) (Player.angle target)
            (Some (Z.max 0 (js_or (Player.health target) 100 - damage data)))
            (Player.score target) (Player.name target)) /\
  (forall rid' id, ~ (rid' = rid /\ id = targetId data) ->
     playerOf (exec (playerHit me data) w) rid' id = playerOf w rid' id) /\
  (forall rid', roomStateOf (exec (playerHit me data) w) rid' = roomStateOf w rid') /\
  journal (exec (playerHit me data) w) = journal w /\
  outbox (exec (playerHit me data) w) = outbox w.
Proof.
  intros Hs Hr Ht. unfold exec.
  rewrite (playerHit_found w me rid r data Hs Hr target Ht). cbn [snd].
  split; [|split; [|split; [|split; reflexivity]]].
  - rewrite (playerOf_replaced w rid (targetId data) r _ rid (targetId data) Hr).
    rewrite decide_True by auto. reflexivity.
  - intros rid' id Hother.
    rewrite (playerOf_replaced w rid (targetId data) r _ rid' id Hr).
    rewrite decide_False; [reflexivity|]. intros [<- <-]. apply Hother. auto.
  - intros rid'. unfold roomStateOf. cbn.
    destruct (decide (rid = rid')) as [<-|Hne].
    + rewrite lookup_insert_eq, Hr. reflexivity.
    + rewrite lookup_insert_ne by assumption. reflexivity.
Qed.

(** Alice hits Bob for 30: Bob keeps his score, Alice is untouched. *)
Lemma playerHit_changes_only_target_health_witness :
  playerOf (exec (playerHit "alice" (mkHitData "bob" "alice" 30)) (duel 100 80))
    "arena" "bob" = Some (fighter 50 0) /\
  playerOf (exec (playerHit "alice" (mkHitData "bob" "alice" 30)) (duel 100 80))
    "arena" "alice" = Some (fighter 100 0).
Proof.
  destruct (playerHit_changes_only_target_health (duel 100 80) "alice" "arena"
              (mkRoom ["alice"; "bob"]%string
                 {[ "alice"%string := fighter 100 0; "bob"%string := fighter 80 0 ]}
                 readyRoom)
              (mkHitData "bob" "alice" 30) (fighter 80 0) eq_refl eq_refl eq_refl)
    as (Htarget & Hothers & _).
  split; [exact Htarget|].
  rewrite (Hothers "arena"%string "alice"%string); [reflexivity|].
  intros [_ Hid]. discriminate Hid.
Defined.

(** X5. [setPlayerData] changes the name of its caller and nothing else of
    any player state: the caller keeps position, angle, health and score (and
    the name too when the call carries none). *)
Theorem setPlayerData_changes_only_name
    (w : World) (me rid : string) (r : Room) (p : Player.t) (name : option string) :
  session w !! me = Some rid ->
  rooms w !! rid = Some r ->
  userStates r !! me = Some p ->
  eval (setPlayerData me name) w = Return "success"%string /\
  playerOf (exec (setPlayerData me name) w) rid me =
    Some (Player.mk (Player.x p) (Player.y p) (Player.angle p) (Player.health p)
            (Player.score p) (override name (Player.name p))) /\
  (forall rid' id, ~ (rid' = rid /\ id = me) ->
     playerOf (exec (setPlayerData me name) w) rid' id = playerOf w rid' id).
Proof.
  intros Hs Hr Hp.
  assert (Hrun : exists patch,
            setPlayerData me name w =
              (Return "success"%string,
               setRooms
                 (<[rid := mkRoom (members r)
                             (<[me := mergePlayer patch
                                        (default emptyPlayer (userStates r !! me))]>
                                (userStates r))
                             (roomState r)]> (rooms w)) w) /\
            patch = Player.mk None None None None None name).
  { eexists. split; [|reflexivity].
    unfold setPlayerData, logged, tryCatch, mbind, M_bind.
    rewrite (updateMyState_run w me rid r _ Hs Hr). reflexivity. }
  destruct Hrun as (patch & Hrun & ->). unfold eval, exec. rewrite Hrun.
  cbn [fst snd]. split; [reflexivity|]. split.
  - rewrite (playerOf_replaced w rid me r _ rid me Hr), decide_True by auto.
    rewrite Hp. reflexivity.
  - intros rid' id Hother.
    rewrite (playerOf_replaced w rid me r _ rid' id Hr), decide_False;
      [reflexivity|]. intros [<- <-]. apply Hother. auto.
Qed.

(** Alice names herself. *)
Lemma setPlayerData_witness :
  playerOf (exec (setPlayerData "alice" (Some "Alice the Red"%string)) (duel 70 100))
    "arena" "alice"
  = Some (Player.mk (Some 500) (Some 700) (Some 90) (Some 70) (Some 0)
            (Some "Alice the Red"%string)).
Proof.
  apply (setPlayerData_changes_only_name (duel 70 100) "alice" "arena"
           (mkRoom ["alice"; "bob"]%string
              {[ "alice"%string := fighter 70 0; "bob"%string := fighter 100 0 ]}
              readyRoom)
           (fighter 70 0) (Some "Alice the Red"%string) eq_refl eq_refl eq_refl).
Defined.

(** X6. [updatePlayerPosition] overwrites the position, angle and health of
    its caller with the fields the call carries, keeps the fields it does not
    carry, and never changes the caller's score or name, nor any other
    player. *)
Theorem updatePlayerPosition_keeps_score_and_name
    (w : World) (me rid : string) (r : Room) (p : Player.t) (data : PositionData) :
  session w !! me = Some rid ->
  rooms w !! rid = Some r ->
  userStates r !! me = Some p ->
  eval (updatePlayerPosition me data) w = Return "success"%string /\
  playerOf (exec (updatePlayerPosition me data) w) rid me =
    Some (Player.mk (override (data_x data) (Player.x p))
            (override (data_y data) (Player.y p))
            (override (data_angle data) (Player.angle p))
            (override (data_health data) (Player.health p))
            (Player.score p) (Player.name p)) /\
  (forall rid' id, ~ (rid' = rid /\ id = me) ->
     playerOf (exec (updatePlayerPosition me data) w) rid' id = playerOf w rid' id).
Proof.
  intros Hs Hr Hp.
  assert (Hrun : exists patch,
            updatePlayerPosition me data w =
              (Return "success"%string,
               setRooms
                 (<[rid := mkRoom (members r)
                             (<[me := mergePlayer patch
                                        (default emptyPlayer (userStates r !! me))]>
                                (userStates r))
                             (roomState r)]> (rooms w)) w) /\
            patch = Player.mk (data_x data) (data_y data) (data_angle data) (data_health data) None None).
  { eexists. split; [|reflexivity].
    unfold updatePlayerPosition, logged, tryCatch, mbind, M_bind.
    rewrite (updateMyState_run w me rid r _ Hs Hr). reflexivity. }
  destruct Hrun as (patch & Hrun & ->). unfold eval, exec. rewrite Hrun.
  cbn [fst snd]. split; [reflexivity|]. split.
  - rewrite (playerOf_replaced w rid me r _ rid me Hr), decide_True by auto.
    rewrite Hp. reflexivity.
  - intros rid' id Hother.
    rewrite (playerOf_replaced w rid me r _ rid' id Hr), decide_False;
      [reflexivity|]. intros [<- <-]. apply Hother. auto.
Qed.

(** Bob, with a score of 3, reports a new position and a health of 40. *)
Lemma updatePlayerPosition_witness :
  playerOf
    (exec (updatePlayerPosition "bob"
             (mkPositionData (Some 10) (Some 20) None (Some 40)))
       (arenaWorld {[ "alice"%string := fighter 100 0; "bob"%string := fighter 90 3 ]}
          readyRoom 1000000))
    "arena" "bob"
  = Some (Player.mk (Some 10) (Some 20) (Some 90) (Some 40) (Some 3) None).
Proof.
  apply (updatePlayerPosition_keeps_score_and_name
           (arenaWorld {[ "alice"%string := fighter 100 0; "bob"%string := fighter 90 3 ]}
              readyRoom 1000000)
           "bob" "arena"
           (mkRoom ["alice"; "bob"]%string
              {[ "alice"%string := fighter 100 0; "bob"%string := fighter 90 3 ]}
              readyRoom)
           (fighter 90 3) (mkPositionData (Some 10) (Some 20) None (Some 40)));
    vm_compute; reflexivity.
Defined.

(** X7. [fireProjectile] stores nothing: it sends the projectile data, as
    it got them, in one "projectileFired" broadcast to the caller's room and
    leaves the rest of the world as it was. *)
Theorem fireProjectile_only_broadcasts
    (w : World) (me rid projectileData : string) :
  session w !! me = Some rid ->
  fireProjectile me projectileData w =
    (Return "success"%string,
     mkWorld (rooms w) (session w) (allocated w) (allocations w) (clock w)
       (clockReads w) (random w) (randomDraws w) (journal w)
       (outbox w ++
          [mkBroadcast rid "projectileFired" (ProjectilePayload projectileData)])).
Proof.
  intros Hs. unfold fireProjectile. unfold_monad. rewrite Hs. reflexivity.
Qed.

(** Alice fires. *)
Lemma fireProjectile_witness :
  outbox (exec (fireProjectile "alice" "projectile_alice_1") (duel 100 100))
  = [mkBroadcast "arena" "projectileFired" (ProjectilePayload "projectile_alice_1")].
Proof.
  unfold exec.
  rewrite (fireProjectile_only_broadcasts (duel 100 100) "alice" "arena"
             "projectile_alice_1" eq_refl).
  reflexivity.
Defined.

(** ** Who writes what *)

Lemma roomQuiet_refl (w : World) : roomQuiet w w.
Proof. split; reflexivity. Qed.

Lemma roomQuiet_trans (w1 w2 w3 : World) :
  roomQuiet w1 w2 -> roomQuiet w2 w3 -> roomQuiet w1 w3.
Proof.
  intros [Hj12 Hs12] [Hj23 Hs23]. split; [congruence|].
  intros rid. rewrite Hs23. apply Hs12.
Qed.

Lemma roomQuiet_store (w w' : World) :
  rooms w' = rooms w -> journal w' = journal w -> roomQuiet w w'.
Proof.
  intros Hrooms Hjournal. split; [exact Hjournal|].
  intros rid. unfold roomStateOf. rewrite Hrooms. reflexivity.
Qed.

Lemma roomQuiet_updateUserState (ctx : Ctx) (id : string) (patch : Player.t) :
  steps roomQuiet (updateUserState ctx id patch).
Proof.
  intros w.
  destruct (updateUserState_effect ctx id patch w) as [-> | (rid0 & r & Hr & ->)];
    [apply roomQuiet_refl|].
  split; [reflexivity|]. intros rid. unfold roomStateOf. cbn.
  destruct (decide (rid0 = rid)) as [<-|Hne].
  - rewrite lookup_insert_eq, Hr. reflexivity.
  - rewrite lookup_insert_ne by assumption. reflexivity.
Qed.

Lemma roomQuiet_globalLeaveRoom (me : string) :
  steps roomQuiet (globalLeaveRoom me).
Proof.
  intros w. unfold globalLeaveRoom.
  destruct (session w !! me) as [rid0|]; cbn; [|apply roomQuiet_refl].
  split; [reflexivity|]. intros rid. unfold roomStateOf. cbn. rewrite lookup_alter.
  destruct (decide (rid0 = rid)) as [<-|Hne]; [|reflexivity].
  destruct (rooms w !! rid0); reflexivity.
Qed.

Lemma roomQuiet_playerHit (me : string) (data : HitData) :
  steps roomQuiet (playerHit me data).
Proof.
  unfold playerHit.
  repeat match goal with
  | |- forall _, _ => intros ?
  | |- steps _ (mret _) => apply steps_ret, roomQuiet_refl
  | |- steps _ (logged _) =>
      apply steps_logged; [exact roomQuiet_refl | exact roomQuiet_trans |]
  | |- steps _ (_ ≫= _) => apply steps_bind; [exact roomQuiet_trans | |]
  | |- steps _ (getUserState _ _) =>
      apply steps_getUserState; [exact roomQuiet_refl | exact roomQuiet_trans]
  | |- steps _ (updateUserState _ _ _) => apply roomQuiet_updateUserState
  | |- steps _ (match ?x with _ => _ end) => destruct x
  | |- steps _ (let _ := _ in _) => cbv zeta
  end.
Qed.

Lemma roomQuiet_updatePlayerPosition (me : string) (data : PositionData) :
  steps roomQuiet (updatePlayerPosition me data).
Proof.
  unfold updatePlayerPosition, updateMyState.
  apply steps_logged; [exact roomQuiet_refl | exact roomQuiet_trans |].
  apply steps_bind; [exact roomQuiet_trans | apply roomQuiet_updateUserState |].
  intros _. apply steps_ret, roomQuiet_refl.
Qed.

(** X8. The calls that concern players ([leaveRoom], [setPlayerData],
    [updatePlayerPosition], [fireProjectile], [playerHit], [playerDied])
    never write room state: whatever their arguments and their outcome, the
    journal of room-state writes and the state of every room are as
    before. *)
Theorem player_calls_never_write_room_state (me : string) (c : Call) (w : World) :
  playerCall c = true ->
  journal (handle (Rpc me c) w) = journal w /\
  forall rid, roomStateOf (handle (Rpc me c) w) rid = roomStateOf w rid.
Proof.
  intros Hc. change (roomQuiet w (handle (Rpc me c) w)).
  unfold handle, exec. destruct c; try discriminate Hc; cbn [serve].
  - apply steps_leaveRoom;
      [exact roomQuiet_refl | exact roomQuiet_trans | exact roomQuiet_globalLeaveRoom].
  - apply steps_setPlayerData;
      [exact roomQuiet_refl | exact roomQuiet_trans
      | intros; apply roomQuiet_updateUserState].
  - apply roomQuiet_updatePlayerPosition.
  - apply steps_fireProjectile;
      [exact roomQuiet_refl | exact roomQuiet_trans | exact roomQuiet_store].
  - apply roomQuiet_playerHit.
  - apply steps_playerDied;
      [exact roomQuiet_refl | exact roomQuiet_trans
      | intros; apply roomQuiet_updateUserState].
Qed.

(** A death in the stocked arena leaves its powerups and its journal
    alone. *)
Lemma player_calls_witness :
  powerupsOf
    (handle (Rpc "bob" (PlayerDied (mkDeathData "bob" (Some "alice"%string))))
       (stockedArena [relic 5] 0 1000000)) "arena" = [relic 5].
Proof.
  destruct (player_calls_never_write_room_state "bob"
              (PlayerDied (mkDeathData "bob" (Some "alice"%string)))
              (stockedArena [relic 5] 0 1000000) eq_refl) as [_ Hstate].
  unfold powerupsOf. rewrite Hstate. reflexivity.
Defined.

Lemma playersKept_refl (w : World) : playersKept w w.
Proof. intros rid id. reflexivity. Qed.

Lemma playersKept_trans (w1 w2 w3 : World) :
  playersKept w1 w2 -> playersKept w2 w3 -> playersKept w1 w3.
Proof. intros H12 H23 rid id. rewrite H23. apply H12. Qed.

Lemma playersKept_store (w w' : World) :
  rooms w' = rooms w -> journal w' = journal w -> playersKept w w'.
Proof. intros Hrooms _ rid id. unfold playerOf. rewrite Hrooms. reflexivity. Qed.

Lemma playersKept_updateRoomState (ctx : Ctx) (patch : RoomState.t) :
  steps playersKept (updateRoomState ctx patch).
Proof.
  intros w.
  destruct (updateRoomState_effect ctx patch w) as [-> | (rid0 & r & Hr & ->)];
    [apply playersKept_refl|].
  intros rid id. unfold playerOf. cbn.
  destruct (decide (rid0 = rid)) as [<-|Hne].
  - rewrite lookup_insert_eq, Hr. reflexivity.
  - rewrite lookup_insert_ne by assumption. reflexivity.
Qed.

(** X9. The tick, [spawnPowerup] and [collectPowerup] never touch a player
    state: whatever their arguments and their outcome, every player of every
    room has the state it had. *)
Theorem powerup_events_never_touch_players (e : Event) (w : World) :
  powerupEvent e = true ->
  forall rid id, playerOf (handle e w) rid id = playerOf w rid id.
Proof.
  intros He. change (playersKept w (handle e w)).
  unfold handle, exec. destruct e as [me c | deltaMS roomId].
  - destruct c; try discriminate He; cbn [serve].
    + apply steps_spawnPowerup;
        [exact playersKept_refl | exact playersKept_trans | exact playersKept_store
        | intros; apply playersKept_updateRoomState].
    + apply steps_collectPowerup;
        [exact playersKept_refl | exact playersKept_trans
        | intros; apply playersKept_updateRoomState].
  - apply steps_roomTick;
      [exact playersKept_refl | exact playersKept_trans | exact playersKept_store
      | intros; apply playersKept_updateRoomState].
Qed.

(** A tick that spawns and expires powerups leaves Bob as he was. *)
Lemma powerup_events_witness :
  playerOf (handle (Tick 50 "arena") (stockedArena [relic 960000] 985000 1000000))
    "arena" "bob" = Some (fighter 100 0).
Proof.
  rewrite (powerup_events_never_touch_players (Tick 50 "arena")
             (stockedArena [relic 960000] 985000 1000000) eq_refl).
  reflexivity.
Defined.

(** ** Random positions and types *)

Lemma floor_scaled_range (r : Q) (n : Z) :
  0 < n -> (0 <= r)%Q -> (r < 1)%Q ->
  0 <= Qfloor (Qmult r (inject_Z n)) < n.
Proof.
  intros Hn Hlo Hhi.
  assert (Hn' : (inject_Z 0 < inject_Z n)%Q) by (rewrite <- Zlt_Qlt; exact Hn).
  split.
  - change 0 with (Qfloor 0). apply Qfloor_resp_le.
    apply Qmult_le_0_compat; [exact Hlo | apply Qlt_le_weak; exact Hn'].
  - apply Z.lt_nge. intros Hge.
    apply (Qlt_irrefl (Qmult r (inject_Z n))).
    apply Qlt_le_trans with (Qmult 1 (inject_Z n)).
    + apply Qmult_lt_compat_r; assumption.
    + rewrite Qmult_1_l.
      apply Qle_trans with (inject_Z (Qfloor (Qmult r (inject_Z n)))).
      * rewrite <- Zle_Qle. exact Hge.
      * apply Qfloor_le.
Qed.

Lemma coordinateOf_inArena (r : Q) :
  (0 <= r)%Q -> (r < 1)%Q -> inArena (coordinateOf r).
Proof.
  intros Hlo Hhi. unfold inArena, coordinateOf.
  pose proof (floor_scaled_range r 1800 ltac:(lia) Hlo Hhi). lia.
Qed.

Lemma drawnObstacles_inArena (source : nat -> Q) (count from : nat) :
  (forall n, (0 <= source n)%Q /\ (source n < 1)%Q) ->
  forall o, In o (drawnObstacles source from count) ->
    inArena (Obstacle.x o) /\ inArena (Obstacle.y o).
Proof.
  intros Hunit. revert from.
  induction count as [|n IH]; intros from o; cbn; [contradiction|].
  intros [<- | Hin]; [|eapply IH; exact Hin].
  cbn. split; apply coordinateOf_inArena; apply Hunit.
Qed.

(** X10. When every draw of [Math.random] lies between 0 (included) and 1
    (excluded), [generateObstacles] returns 30 obstacles whose coordinates
    all lie between 100 and 1899, and it takes 60 draws. *)
Theorem generateObstacles_in_arena (w : World) :
  unitDraws w ->
  exists obs,
    eval generateObstacles w = Return obs /\
    length obs = 30%nat /\
    (forall o, In o obs -> inArena (Obstacle.x o) /\ inArena (Obstacle.y o)) /\
    randomDraws (exec generateObstacles w) = (60 + randomDraws w)%nat.
Proof.
  intros Hunit. unfold eval, exec. rewrite generateObstacles_run.
  eexists. split; [reflexivity|]. split; [apply drawnObstacles_length|].
  split; [|reflexivity].
  apply drawnObstacles_inArena. exact Hunit.
Qed.

(** A random source that draws 1/2, 3/4, 1/2, 3/4, ... *)
Lemma generateObstacles_witness :
  exists obs,
    eval generateObstacles
      (mkWorld ∅ ∅ (fun _ => EmptyString) 0 (fun _ => 0) 0
         (fun n => if Nat.even n then (1 # 2)%Q else (3 # 4)%Q) 0 [] []) = Return obs /\
    length obs = 30%nat /\
    (forall o, In o obs -> inArena (Obstacle.x o) /\ inArena (Obstacle.y o)).
Proof.
  destruct (generateObstacles_in_arena
              (mkWorld ∅ ∅ (fun _ => EmptyString) 0 (fun _ => 0) 0
                 (fun n => if Nat.even n then (1 # 2)%Q else (3 # 4)%Q) 0 [] []))
    as (obs & Hobs & Hlen & Hin & _).
  - intros n. cbn. destruct (Nat.even n); split; vm_compute; congruence.
  - exists obs. auto.
Defined.

(** ** Spawning, continued *)

(** X11. [spawnPowerup] appends one powerup after the powerups already in
    the room's list, broadcasts that same powerup to the room in one
    "powerupSpawned" event, stamps it with the second clock reading of the
    call and moves [lastPowerupSpawn] to the third. *)
Theorem spawnPowerup_stores_what_it_broadcasts
    (ctx : Ctx) (w : World) (rid : string) (r : Room) :
  roomOf w ctx = Some rid ->
  rooms w !! rid = Some r ->
  exists p : Powerup.t,
    eval (spawnPowerup ctx) w = Return "success"%string /\
    powerupsOf (exec (spawnPowerup ctx) w) rid = powerupsOf w rid ++ [p] /\
    outbox (exec (spawnPowerup ctx) w) =
      outbox w ++ [mkBroadcast rid "powerupSpawned" (PowerupPayload p)] /\
    Powerup.createdAt p = clock w (S (clockReads w)) /\
    (roomStateOf (exec (spawnPowerup ctx) w) rid) ≫= RoomState.lastPowerupSpawn
      = Some (clock w (S (S (clockReads w)))).
Proof.
  intros Hctx Hr. unfold eval, exec.
  rewrite (spawnPowerup_run ctx w rid r Hctx Hr). cbn [fst snd outbox].
  eexists. split; [reflexivity|]. split; [|split; [reflexivity|split; [reflexivity|]]].
  - unfold powerupsOf, roomStateOf. cbn [rooms]. rewrite lookup_insert_eq, Hr.
    reflexivity.
  - unfold roomStateOf. cbn [rooms]. rewrite lookup_insert_eq. reflexivity.
Qed.

(** Bob asks for a powerup in an arena that holds one. *)
Lemma spawnPowerup_stores_witness :
  exists p : Powerup.t,
    powerupsOf (exec (spawnPowerup (AsUser "bob")) (stockedArena [relic 5] 0 1000000))
      "arena" = [relic 5; p] /\
    outbox (exec (spawnPowerup (AsUser "bob")) (stockedArena [relic 5] 0 1000000))
      = [mkBroadcast "arena" "powerupSpawned" (PowerupPayload p)].
Proof.
  destruct (spawnPowerup_stores_what_it_broadcasts (AsUser "bob")
              (stockedArena [relic 5] 0 1000000) "arena"
              (mkRoom ["alice"; "bob"]%string
                 {[ "alice"%string := fighter 100 0; "bob"%string := fighter 100 0 ]}
                 (RoomState.mk (Some true) (Some 0) (Some [relic 5]) (Some [])
                    (Some 0)))
              eq_refl eq_refl)
    as (p & _ & Hlist & Hout & _).
  exists p. split; [exact Hlist | exact Hout].
Defined.

(** X12. When every draw of [Math.random] lies between 0 (included) and 1
    (excluded), the powerup that [spawnPowerup] appends is of type "health"
    or "speed" and its coordinates lie between 100 and 1899. *)
Theorem spawnPowerup_spawns_well_formed
    (ctx : Ctx) (w : World) (rid : string) (r : Room) :
  roomOf w ctx = Some rid ->
  rooms w !! rid = Some r ->
  unitDraws w ->
  exists p : Powerup.t,
    powerupsOf (exec (spawnPowerup ctx) w) rid = powerupsOf w rid ++ [p] /\
    (Powerup.type p = Some "health"%string \/ Powerup.type p = Some "speed"%string) /\
    inArena (Powerup.x p) /\ inArena (Powerup.y p).
Proof.
  intros Hctx Hr Hunit. unfold exec.
  rewrite (spawnPowerup_run ctx w rid r Hctx Hr). cbn [snd].
  eexists. split.
  - unfold powerupsOf, roomStateOf. cbn [rooms]. rewrite lookup_insert_eq, Hr.
    reflexivity.
  - unfold spawnedPowerup, drawnBelow. cbn [Powerup.type Powerup.x Powerup.y].
    destruct (Hunit (0 + randomDraws w)%nat) as [H0 H0'].
    destruct (Hunit (1 + randomDraws w)%nat) as [H1 H1'].
    destruct (Hunit (2 + randomDraws w)%nat) as [H2 H2'].
    pose proof (floor_scaled_range _ 2 ltac:(lia) H0 H0') as Hindex.
    split; [|split; apply coordinateOf_inArena; assumption].
    destruct (Z.ltb_spec (Qfloor (Qmult (random w (0 + randomDraws w)) (inject_Z 2))) 0)
      as [Hneg|_]; [lia|].
    assert (Hcase : Qfloor (Qmult (random w (0 + randomDraws w)) (inject_Z 2)) = 0 \/
                    Qfloor (Qmult (random w (0 + randomDraws w)) (inject_Z 2)) = 1)
      by lia.
    destruct Hcase as [-> | ->]; [left | right]; reflexivity.
Qed.

(** With every draw at 0 the powerup is a "health" one at (100, 100). *)
Lemma spawnPowerup_well_formed_witness :
  exists p : Powerup.t,
    powerupsOf (exec (spawnPowerup (AsTick "arena")) (stockedArena [] 0 1000000))
      "arena" = [p] /\
    (Powerup.type p = Some "health"%string \/ Powerup.type p = Some "speed"%string) /\
    inArena (Powerup.x p) /\ inArena (Powerup.y p).
Proof.
  apply (spawnPowerup_spawns_well_formed (AsTick "arena")
           (stockedArena [] 0 1000000) "arena"
           (mkRoom ["alice"; "bob"]%string
              {[ "alice"%string := fighter 100 0; "bob"%string := fighter 100 0 ]}
              (RoomState.mk (Some true) (Some 0) (Some []) (Some []) (Some 0)))
           eq_refl eq_refl).
  intros n. split; vm_compute; congruence.
Defined.

(** ** The player a join creates *)

Lemma globalJoinRoom_keeps_random (me : string) (roomId : option string) (w : World) :
  random (snd (globalJoinRoom me roomId w)) = random w /\
  randomDraws (snd (globalJoinRoom me roomId w)) = randomDraws w.
Proof.
  unfold globalJoinRoom, globalLeaveRoom, allocateRoom, modify, mbind, M_bind,
    mret, M_ret.
  destruct roomId as [rid|]; [destruct (truthy (Some rid))|];
    cbn [session rooms fst snd];
    destruct (session w !! me); split; reflexivity.
Qed.

(** The player state that [joinRoom] writes for its caller. *)
Lemma joinRoomEnter_player (me : string) (roomId : option string) (w : World) :
  roomFull w roomId = false ->
  exists (j : string) (r1 : Room) (w1 : World) (old : Player.t),
    joinRoomEnter me roomId w = (Return (j, Some (roomState r1)), w1) /\
    session w1 !! me = Some j /\
    rooms w1 !! j = Some r1 /\
    userStates r1 !! me =
      Some (Player.mk
              (Some (coordinateOf (random w (randomDraws w))))
              (Some (coordinateOf (random w (S (randomDraws w)))))
              (Player.angle old) (Some 100) (Some 0) (Player.name old)).
Proof.
  intros Hfree.
  destruct (globalJoinRoom_run me roomId w) as (j & r & wj & Hjoin & Hs & Hr & _).
  pose proof (globalJoinRoom_keeps_random me roomId w) as [Hrandom Hdraws].
  rewrite Hjoin in Hrandom, Hdraws. cbn [snd] in Hrandom, Hdraws.
  exists j.
  exists (mkRoom (members r)
            (<[me := mergePlayer
                       (Player.mk
                          (Some (coordinateOf (random w (randomDraws w))))
                          (Some (coordinateOf (random w (S (randomDraws w)))))
                          None (Some 100) (Some 0) None)
                       (default emptyPlayer (userStates r !! me))]> (userStates r))
            (roomState r)).
  unfold joinRoomEnter.
  assert (Hcheck :
    (if truthy roomId
     then roomUsers ← getRoomUserAccounts (default EmptyString roomId);
          match roomUsers with
          | Some users =>
              if decide (MAX_PLAYERS_PER_ROOM ≤ length users)%nat
              then throw "Room is full" else mret tt
          | None => mret tt
          end
     else mret tt) w = (Return tt, w)).
  { unfold roomFull in Hfree. destruct (truthy roomId); [|reflexivity].
    cbn in Hfree. unfold getRoomUserAccounts, gets, mbind, M_bind. cbn.
    destruct (rooms w !! default EmptyString roomId) as [r0|]; [|reflexivity]. cbn.
    apply bool_decide_eq_false in Hfree.
    destruct (decide (MAX_PLAYERS_PER_ROOM ≤ length (members r0))%nat);
      [contradiction | reflexivity]. }
  unfold mbind at 1. unfold M_bind at 1. rewrite Hcheck.
  unfold mbind at 1. unfold M_bind at 1. rewrite Hjoin.
  unfold randomCoordinate, randomBelow, mathRandom, updateMyState,
    updateUserState, getRoomState, currentRoom, gets, mbind, M_bind, mret, M_ret,
    coordinateOf.
  crunch. rewrite Hs. crunch. rewrite Hr. crunch. rewrite Hs. crunch.
  rewrite lookup_insert_eq. crunch. rewrite Hrandom, Hdraws.
  eexists. exists (default emptyPlayer (userStates r !! me)).
  split; [reflexivity|]. crunch. split; [exact Hs|].
  rewrite !lookup_insert_eq. split; reflexivity.
Qed.

(** X13. A join that is not turned away returns the room it joined and
    leaves its caller there with health 100 and score 0, whatever they were
    before, at a position whose coordinates lie between 100 and 1899 when
    the draws of [Math.random] lie between 0 (included) and 1 (excluded). *)
Theorem joinRoom_creates_fresh_player
    (me : string) (roomId : option string) (w : World) :
  roomFull w roomId = false ->
  unitDraws w ->
  exists (j : string) (p : Player.t) (x y : Z),
    eval (joinRoom me roomId) w = Return j /\
    session (exec (joinRoom me roomId) w) !! me = Some j /\
    playerOf (exec (joinRoom me roomId) w) j me = Some p /\
    Player.health p = Some 100 /\
    Player.score p = Some 0 /\
    Player.x p = Some x /\ Player.y p = Some y /\ inArena x /\ inArena y.
Proof.
  intros Hfree Hunit.
  destruct (joinRoomEnter_player me roomId w Hfree)
    as (j & r1 & w1 & old & Henter & Hs & Hr1 & Hp).
  exists j. eexists. eexists. eexists.
  assert (Hrun : joinRoom me roomId w =
                   (Return j,
                    if truthy_flag (RoomState.initialized (roomState r1)) then w1
                    else initialisedWorld j r1 w1)).
  { unfold joinRoom, logged, tryCatch. unfold mbind at 1. unfold M_bind at 1.
    rewrite Henter.
    destruct (truthy_flag (RoomState.initialized (roomState r1))) eqn:Hinit.
    - rewrite (joinRoomInit_skips me (j, Some (roomState r1)) (roomState r1) w1
                 eq_refl Hinit). reflexivity.
    - rewrite (joinRoomInit_writes me (j, Some (roomState r1)) (roomState r1) w1 j r1
                 eq_refl Hinit Hs Hr1). reflexivity. }
  unfold eval, exec. rewrite Hrun. cbn [fst snd].
  split; [reflexivity|].
  assert (Hplayer :
    session (if truthy_flag (RoomState.initialized (roomState r1)) then w1
             else initialisedWorld j r1 w1) !! me = Some j /\
    playerOf (if truthy_flag (RoomState.initialized (roomState r1)) then w1
              else initialisedWorld j r1 w1) j me = userStates r1 !! me).
  { destruct (truthy_flag (RoomState.initialized (roomState r1))).
    - split; [exact Hs|]. unfold playerOf. rewrite Hr1. reflexivity.
    - split; [exact Hs|]. unfold playerOf, initialisedWorld. cbn [rooms].
      rewrite lookup_insert_eq. reflexivity. }
  destruct Hplayer as [Hsession Hplayer].
  split; [exact Hsession|]. rewrite Hplayer, Hp.
  split; [reflexivity|]. cbn.
  repeat split; apply coordinateOf_inArena; apply Hunit.
Qed.

(** Bob, at health 40 with a score of 7, joins the arena again: he is back
    at health 100 and score 0. *)
Lemma joinRoom_fresh_player_witness :
  exists (p : Player.t),
    playerOf
      (exec (joinRoom "bob" (Some "arena"%string))
         (arenaWorld {[ "alice"%string := fighter 100 0; "bob"%string := fighter 40 7 ]}
            readyRoom 1000000)) "arena" "bob" = Some p /\
    Player.health p = Some 100 /\ Player.score p = Some 0.
Proof.
  destruct (joinRoom_creates_fresh_player "bob" (Some "arena"%string)
              (arenaWorld {[ "alice"%string := fighter 100 0; "bob"%string := fighter 40 7 ]}
                 readyRoom 1000000))
    as (j & p & x & y & Hret & _ & Hp & Hh & Hsc & _).
  - vm_compute. reflexivity.
  - intros n. split; vm_compute; congruence.
  - exists p. vm_compute in Hret. injection Hret as <-. auto.
Defined.

(** ** The tick, continued *)

(** X14. A tick never throws, whatever the world, and on a room that does
    not exist it changes nothing. *)
Theorem roomTick_never_throws (deltaMS : Z) (roomId : string) (w : World) :
  eval (roomTick deltaMS roomId) w = Return tt /\
  (rooms w !! roomId = None -> exec (roomTick deltaMS roomId) w = w).
Proof.
  split.
  - unfold eval, roomTick, tryCatch.
    match goal with |- fst (match ?b with _ => _ end) = _ => destruct b as [[[]|e] w'] end;
      reflexivity.
  - intros Hnone. unfold exec, roomTick, tryCatch, getRoomState, currentRoom, gets,
      mbind, M_bind, mret, M_ret. cbn. rewrite Hnone. reflexivity.
Qed.

(** A tick for a room that was never created. *)
Lemma roomTick_never_throws_witness :
  eval (roomTick 50 "nowhere") (duel 100 100) = Return tt /\
  exec (roomTick 50 "nowhere") (duel 100 100) = duel 100 100.
Proof.
  destruct (roomTick_never_throws 50 "nowhere" (duel 100 100)) as [Hret Hsame].
  split; [exact Hret | apply Hsame; reflexivity].
Defined.

(** X15. A tick of an existing room, during which the clock reads [now],
    adds [deltaMS] to the game time (counted from 0 when there is none) and
    never moves [lastPowerupSpawn] backwards. *)
Theorem roomTick_advances_time
    (w : World) (rid : string) (r : Room) (deltaMS now : Z) :
  rooms w !! rid = Some r ->
  (forall n : nat, (clockReads w <= n)%nat -> clock w n = now) ->
  (roomStateOf (exec (roomTick deltaMS rid) w) rid) ≫= RoomState.gameTime
    = Some (js_or (RoomState.gameTime (roomState r)) 0 + deltaMS) /\
  js_or (RoomState.lastPowerupSpawn (roomState r)) 0 <=
    js_or ((roomStateOf (exec (roomTick deltaMS rid) w) rid)
             ≫= RoomState.lastPowerupSpawn) 0.
Proof.
  intros Hroom Hclock.
  destruct (roomTick_effect w rid r deltaMS now Hroom Hclock)
    as (w' & Hrun & Hstate & _).
  unfold exec. rewrite Hrun. cbn [snd]. rewrite Hstate. cbn.
  split; [reflexivity|].
  unfold tickDue. destruct (Z.ltb_spec POWERUP_SPAWN_INTERVAL
                              (now - js_or (RoomState.lastPowerupSpawn (roomState r)) 0))
    as [Hdue | Hnot]; [|lia].
  unfold POWERUP_SPAWN_INTERVAL in Hdue. unfold js_or at 2.
  destruct (Z.eqb_spec now 0); lia.
Qed.

(** Two ticks of 50 ms and 70 ms. *)
Lemma roomTick_advances_time_witness :
  (roomStateOf (exec (roomTick 50 "arena") (stockedArena [] 995000 1000000)) "arena")
    ≫= RoomState.gameTime = Some 50.
Proof.
  apply (roomTick_advances_time (stockedArena [] 995000 1000000) "arena"
           (mkRoom ["alice"; "bob"]%string
              {[ "alice"%string := fighter 100 0; "bob"%string := fighter 100 0 ]}
              (RoomState.mk (Some true) (Some 0) (Some []) (Some []) (Some 995000)))
           50 1000000 eq_refl (fun n _ => eq_refl)).
Defined.

(** X16. A tick of an existing room, during which the clock reads [now],
    at which no spawn is due and no powerup has expired, changes the game
    time only: the other fields of the room state are as before, nothing is
    broadcast, and the only write is the one of the game time. *)
Theorem roomTick_idle_changes_only_game_time
    (w : World) (rid : string) (r : Room) (deltaMS now : Z) :
  rooms w !! rid = Some r ->
  (forall n : nat, (clockReads w <= n)%nat -> clock w n = now) ->
  now - js_or (RoomState.lastPowerupSpawn (roomState r)) 0 <= 10000 ->
  (forall p, In p (powerupsOf w rid) -> now - Powerup.createdAt p < 30000) ->
  roomStateOf (exec (roomTick deltaMS rid) w) rid =
    Some (RoomState.mk (RoomState.initialized (roomState r))
            (Some (js_or (RoomState.gameTime (roomState r)) 0 + deltaMS))
            (RoomState.powerups (roomState r))
            (RoomState.obstacles (roomState r))
            (RoomState.lastPowerupSpawn (roomState r))) /\
  outbox (exec (roomTick deltaMS rid) w) = outbox w /\
  journal (exec (roomTick deltaMS rid) w) =
    journal w ++
      [(rid, RoomState.mk None
               (Some (js_or (RoomState.gameTime (roomState r)) 0 + deltaMS))
               None None None)].
Proof.
  intros Hroom Hclock Hidle Hyoung.
  destruct (roomTick_effect w rid r deltaMS now Hroom Hclock)
    as (w' & Hrun & Hstate & Hjournal & Hout).
  assert (Hd : tickDue r now = false).
  { unfold tickDue, POWERUP_SPAWN_INTERVAL. apply Z.ltb_ge. exact Hidle. }
  assert (Hs : tickStale r now = false).
  { unfold tickStale, tickKept. apply negb_false_iff, Nat.eqb_eq. f_equal.
    apply List.forallb_filter_id, List.forallb_forall.
    intros p Hin. apply Z.ltb_lt, Hyoung.
    unfold powerupsOf, roomStateOf. rewrite Hroom. exact Hin. }
  unfold exec. rewrite Hrun. cbn [snd].
  rewrite Hstate, Hjournal, Hout, Hd, Hs. cbn [app]. rewrite app_nil_r.
  repeat split.
Qed.

(** A tick 5 s after the last spawn, with one young powerup. *)
Lemma roomTick_idle_witness :
  roomStateOf (exec (roomTick 50 "arena") (stockedArena [relic 990000] 995000 1000000))
    "arena"
  = Some (RoomState.mk (Some true) (Some 50) (Some [relic 990000]) (Some [])
            (Some 995000)).
Proof.
  apply (roomTick_idle_changes_only_game_time
           (stockedArena [relic 990000] 995000 1000000) "arena"
           (mkRoom ["alice"; "bob"]%string
              {[ "alice"%string := fighter 100 0; "bob"%string := fighter 100 0 ]}
              (RoomState.mk (Some true) (Some 0) (Some [relic 990000]) (Some [])
                 (Some 995000)))
           50 1000000 eq_refl (fun n _ => eq_refl)).
  - vm_compute. discriminate.
  - intros p Hin. vm_compute in Hin. destruct Hin as [<- | []]. vm_compute. reflexivity.
Defined.

(** * The client *)

(** ** The health of the local player *)

Lemma applyHealthOp_range (op : HealthOp) (p : PlayerEntity.t) :
  fairOp op ->
  0 <= PlayerEntity.health p <= 100 ->
  0 <= PlayerEntity.health (applyHealthOp op p) <= 100.
Proof.
  destruct op as [amount | amount |]; cbn; intros Hfair Hrange; lia.
Qed.

(** X17. The health of a client-side player that starts between 0 and 100
    stays between 0 and 100 through any sequence of [damage], [heal] and
    [reset] whose amounts are not negative; the last "updateHealth" event
    emitted is the health the player ends with. *)
Theorem playerEntity_health_stays_in_range
    (ops : list HealthOp) (p : PlayerEntity.t) :
  Forall fairOp ops ->
  0 <= PlayerEntity.health p <= 100 ->
  0 <= PlayerEntity.health (fold_left (fun q op => applyHealthOp op q) ops p) <= 100 /\
  (ops <> [] ->
   last (PlayerEntity.emitted (fold_left (fun q op => applyHealthOp op q) ops p))
     = Some (PlayerEntity.health (fold_left (fun q op => applyHealthOp op q) ops p))).
Proof.
  intros Hfair. revert p.
  induction Hfair as [|op ops Hop _ IH]; intros p Hrange.
  - split; [exact Hrange | intros Hne; contradiction].
  - cbn [fold_left].
    destruct (IH (applyHealthOp op p) (applyHealthOp_range op p Hop Hrange))
      as [Hafter Hlast].
    split; [exact Hafter|]. intros _.
    destruct ops as [|op' ops']; [|apply Hlast; discriminate].
    cbn [fold_left]. destruct op; cbn; apply last_snoc.
Qed.

(** A player at 100 takes 30, takes 90, heals 25, heals 90. *)
Lemma playerEntity_health_witness :
  PlayerEntity.health
    (fold_left (fun q op => applyHealthOp op q)
       [Damage 30; Damage 90; Heal 25; Heal 90] (PlayerEntity.create 0 0 "Alice")) = 100 /\
  0 <= PlayerEntity.health
         (fold_left (fun q op => applyHealthOp op q)
            [Damage 30; Damage 90] (PlayerEntity.create 0 0 "Alice")) <= 100.
Proof.
  split; [reflexivity|].
  apply (playerEntity_health_stays_in_range [Damage 30; Damage 90]
           (PlayerEntity.create 0 0 "Alice")).
  - repeat constructor; cbn; lia.
  - cbn. lia.
Defined.

(** ** Being hit *)

Lemma handlePlayerHit_self
    (s : GameScene.t) (attackerId projectileId : string) :
  GameScene.serverInitialized s = true ->
  PlayerEntity.health
    (GameScene.player
       (GameScene.handlePlayerHit (GameScene.myAccount s) attackerId projectileId s))
  = (if 10 <? PlayerEntity.health (GameScene.player s)
     then PlayerEntity.health (GameScene.player s) - 10 else 100) /\
  callsSince s
    (GameScene.handlePlayerHit (GameScene.myAccount s) attackerId projectileId s) =
    (if 10 <? PlayerEntity.health (GameScene.player s) then []
     else [PlayerDied (mkDeathData (GameScene.myAccount s) (Some attackerId))])
    ++ [PlayerHit (mkHitData (GameScene.myAccount s) attackerId 10)].
Proof.
  intros Hinit.
  destruct s as [me initialised loaded created p others obs calls between taken].
  cbn in Hinit. subst initialised.
  unfold GameScene.handlePlayerHit, GameScene.handlePlayerDeath, callsSince.
  cbn [GameScene.myAccount]. rewrite bool_decide_true by reflexivity. cbn.
  destruct (Z.ltb_spec 10 (PlayerEntity.health p)) as [Hmore | Hless].
  - destruct (Z.leb_spec (Z.max 0 (PlayerEntity.health p - 10)) 0); [lia|].
    cbn. rewrite drop_app_length. split; [lia | reflexivity].
  - destruct (Z.leb_spec (Z.max 0 (PlayerEntity.health p - 10)) 0); [|lia].
    rewrite bool_decide_true by reflexivity. cbn.
    rewrite <- app_assoc, drop_app_length. split; reflexivity.
Qed.

(** X18. After the scene handled a hit on its own player, the local health
    is positive: 10 less than before when more than 10 was left, and back at
    100 otherwise.  When the server is initialised the scene has called
    [playerHit] with damage 10, preceded by [playerDied] when the hit was
    lethal. *)
Theorem handlePlayerHit_on_self
    (s : GameScene.t) (attackerId projectileId : string) :
  GameScene.serverInitialized s = true ->
  let me := GameScene.myAccount s in
  let h := PlayerEntity.health (GameScene.player s) in
  let s' := GameScene.handlePlayerHit me attackerId projectileId s in
  0 < PlayerEntity.health (GameScene.player s') /\
  PlayerEntity.health (GameScene.player s') = (if 10 <? h then h - 10 else 100) /\
  callsSince s s' =
    (if 10 <? h then [] else [PlayerDied (mkDeathData me (Some attackerId))])
    ++ [PlayerHit (mkHitData me attackerId 10)].
Proof.
  intros Hinit me h s'. subst me h s'.
  destruct (handlePlayerHit_self s attackerId projectileId Hinit) as [Hhealth Hcalls].
  split; [|split; assumption].
  rewrite Hhealth.
  destruct (Z.ltb_spec 10 (PlayerEntity.health (GameScene.player s))); lia.
Qed.

(** Alice's scene at health 10 is hit by Bob. *)
Lemma handlePlayerHit_on_self_witness :
  PlayerEntity.health
    (GameScene.player (GameScene.handlePlayerHit "alice" "bob" "projectile_bob_1"
                         (sceneOf "alice" 10))) = 100 /\
  GameScene.remoteCalls
    (GameScene.handlePlayerHit "alice" "bob" "projectile_bob_1" (sceneOf "alice" 10))
  = [PlayerDied (mkDeathData "alice" (Some "bob"%string));
     PlayerHit (mkHitData "alice" "bob" 10)].
Proof.
  destruct (handlePlayerHit_on_self (sceneOf "alice" 10) "bob" "projectile_bob_1"
              eq_refl) as (_ & Hhealth & _).
  split; [exact Hhealth | reflexivity].
Defined.

(** ** The client and the coordinator together *)

(** After a death report the victim has a player state with health 100 in
    the caller's room. *)
Lemma playerDied_victim (w : World) (me rid : string) (r : Room) (data : DeathData) :
  session w !! me = Some rid ->
  rooms w !! rid = Some r ->
  exists (r1 : Room) (victim : Player.t),
    session (exec (playerDied me data) w) !! me = Some rid /\
    rooms (exec (playerDied me data) w) !! rid = Some r1 /\
    userStates r1 !! playerId data = Some victim /\
    Player.health victim = Some 100.
Proof.
  intros Hs Hr.
  assert (Hhealed : exists victim,
            healed r data !! playerId data = Some victim /\
            Player.health victim = Some 100).
  { unfold healed. eexists. rewrite lookup_insert_eq. split; reflexivity. }
  destruct Hhealed as (victim & Hvictim & Hhealth).
  destruct (credited_dec r data) as [[k (Hk & Hne & Hnv & [killer Hkiller])] | Hnone].
  - unfold exec.
    rewrite (playerDied_credited w me rid r data Hs Hr k killer Hk Hne Hnv Hkiller).
    cbn [snd]. eexists _, victim. split; [exact Hs|].
    split; [apply lookup_insert_eq|]. cbn [userStates].
    rewrite lookup_insert_ne by assumption. split; assumption.
  - unfold exec. rewrite (playerDied_uncredited w me rid r data Hs Hr Hnone).
    cbn [snd]. eexists _, victim. split; [exact Hs|].
    split; [apply lookup_insert_eq|]. cbn [userStates]. split; assumption.
Qed.

(** X19. When a death report for a player is handled and then a hit report
    on that player, the hit is taken from the health the death report
    restored: the stored health ends at [max 0 (100 - amount)], whatever it
    was before and whoever is named as killer or attacker. *)
Theorem death_report_then_hit_report
    (w : World) (me rid : string) (r : Room)
    (victim : string) (killer : option string) (attacker : string) (amount : Z) :
  session w !! me = Some rid ->
  rooms w !! rid = Some r ->
  healthOf
    (run [Rpc me (PlayerDied (mkDeathData victim killer));
          Rpc me (PlayerHit (mkHitData victim attacker amount))] w) rid victim
  = Some (Z.max 0 (100 - amount)).
Proof.
  intros Hs Hr. cbn [run fold_left handle serve].
  destruct (playerDied_victim w me rid r (mkDeathData victim killer) Hs Hr)
    as (r1 & t & Hs1 & Hr1 & Ht & Hhealth).
  destruct (playerHit_health _ me rid r1 (mkHitData victim attacker amount) Hs1 Hr1 t Ht)
    as [_ Hafter].
  cbn [targetId damage] in Hafter. rewrite Hafter, Hhealth. reflexivity.
Qed.

(** Alice at health 10 is reported dead by Bob's shot, then hit for 10. *)
Lemma death_report_then_hit_report_witness :
  healthOf
    (run [Rpc "alice" (PlayerDied (mkDeathData "alice" (Some "bob"%string)));
          Rpc "alice" (PlayerHit (mkHitData "alice" "bob" 10))]
       (arenaWorld {[ "alice"%string := fighter 10 0; "bob"%string := fighter 100 0 ]}
          readyRoom 1000000))
    "arena" "alice"
  = Some 90.
Proof.
  apply (death_report_then_hit_report
           (arenaWorld {[ "alice"%string := fighter 10 0; "bob"%string := fighter 100 0 ]}
              readyRoom 1000000)
           "alice" "arena"
           (mkRoom ["alice"; "bob"]%string
              {[ "alice"%string := fighter 10 0; "bob"%string := fighter 100 0 ]}
              readyRoom)
           "alice" (Some "bob"%string) "bob" 10);
    vm_compute; reflexivity.
Defined.

(** The world after the coordinator handled what a scene called. *)
Lemma serveAll_one (me : string) (c : Call) (w : World) :
  serveAll me [c] w = exec (serve me c) w.
Proof. reflexivity. Qed.

(** X20. A hit that leaves the local player alive keeps client and
    coordinator in step: when the stored health of the account equals the
    local health and more than 10 is left, then after the scene handled the
    hit and the coordinator handled the scene's calls, the stored health
    again equals the local health, 10 lower than before. *)
Theorem surviving_hit_keeps_health_in_step
    (s : GameScene.t) (w : World) (rid : string) (r : Room)
    (attackerId projectileId : string) :
  GameScene.serverInitialized s = true ->
  session w !! GameScene.myAccount s = Some rid ->
  rooms w !! rid = Some r ->
  healthOf w rid (GameScene.myAccount s) =
    Some (PlayerEntity.health (GameScene.player s)) ->
  10 < PlayerEntity.health (GameScene.player s) ->
  let me := GameScene.myAccount s in
  let s' := GameScene.handlePlayerHit me attackerId projectileId s in
  PlayerEntity.health (GameScene.player s') =
    PlayerEntity.health (GameScene.player s) - 10 /\
  healthOf (serveAll me (callsSince s s') w) rid me =
    Some (PlayerEntity.health (GameScene.player s')).
Proof.
  intros Hinit Hs Hr Hsync Halive me s'. subst me s'.
  destruct (handlePlayerHit_self s attackerId projectileId Hinit) as [Hhealth Hcalls].
  rewrite Hhealth, Hcalls.
  destruct (Z.ltb_spec 10 (PlayerEntity.health (GameScene.player s))); [|lia].
  split; [reflexivity|]. cbn [app]. rewrite serveAll_one. cbn [serve].
  unfold healthOf, playerOf in Hsync. rewrite Hr in Hsync. cbn in Hsync.
  destruct (userStates r !! GameScene.myAccount s) as [target|] eqn:Htarget;
    [|discriminate].
  cbn in Hsync.
  destruct (playerHit_health w (GameScene.myAccount s) rid r
              (mkHitData (GameScene.myAccount s) attackerId 10) Hs Hr target Htarget)
    as [_ Hafter].
  cbn [targetId damage] in Hafter. rewrite Hafter, Hsync. f_equal.
  unfold js_or, truthy.
  destruct (PlayerEntity.health (GameScene.player s)) eqn:Hh; cbn; lia.
Qed.

(** Alice, at 70 on both sides, is hit by Bob. *)
Lemma surviving_hit_witness :
  healthOf
    (serveAll "alice"
       (callsSince (sceneOf "alice" 70)
          (GameScene.handlePlayerHit "alice" "bob" "projectile_bob_1"
             (sceneOf "alice" 70)))
       (duel 70 100))
    "arena" "alice"
  = Some 60.
Proof.
  destruct (surviving_hit_keeps_health_in_step (sceneOf "alice" 70) (duel 70 100)
              "arena"
              (mkRoom ["alice"; "bob"]%string
                 {[ "alice"%string := fighter 70 0; "bob"%string := fighter 100 0 ]}
                 readyRoom)
              "bob" "projectile_bob_1" eq_refl)
    as [_ Hserver]; first [exact Hserver | vm_compute; reflexivity].
Defined.

(** X21. A lethal hit puts client and coordinator out of step: when 10 or
    less is left of the local health, the scene respawns its player at 100
    and calls [playerDied] before [playerHit], so that the coordinator
    restores the health to 100 and then takes the hit from it; the stored
    health ends at 90 while the local health is 100. *)
Theorem lethal_hit_leaves_stored_health_at_90
    (s : GameScene.t) (w : World) (rid : string) (r : Room)
    (attackerId projectileId : string) :
  GameScene.serverInitialized s = true ->
  session w !! GameScene.myAccount s = Some rid ->
  rooms w !! rid = Some r ->
  PlayerEntity.health (GameScene.player s) <= 10 ->
  let me := GameScene.myAccount s in
  let s' := GameScene.handlePlayerHit me attackerId projectileId s in
  PlayerEntity.health (GameScene.player s') = 100 /\
  healthOf (serveAll me (callsSince s s') w) rid me = Some 90.
Proof.
  intros Hinit Hs Hr Hlow me s'. subst me s'.
  destruct (handlePlayerHit_self s attackerId projectileId Hinit) as [Hhealth Hcalls].
  rewrite Hhealth, Hcalls.
  destruct (Z.ltb_spec 10 (PlayerEntity.health (GameScene.player s))); [lia|].
  split; [reflexivity|]. cbn [app]. unfold serveAll. cbn [fmap list_fmap].
  destruct (playerDied_victim w (GameScene.myAccount s) rid r
              (mkDeathData (GameScene.myAccount s) (Some attackerId)) Hs Hr)
    as (r1 & t & Hs1 & Hr1 & Ht & Hvictim).
  destruct (playerHit_health _ (GameScene.myAccount s) rid r1
              (mkHitData (GameScene.myAccount s) attackerId 10) Hs1 Hr1 t Ht)
    as [_ Hafter].
  cbn [targetId damage playerId] in Hafter. cbn [run fold_left handle serve].
  rewrite Hafter, Hvictim. reflexivity.
Qed.

(** Alice, at 10 on both sides, is hit by Bob. *)
Lemma lethal_hit_witness :
  PlayerEntity.health
    (GameScene.player
       (GameScene.handlePlayerHit "alice" "bob" "projectile_bob_1"
          (sceneOf "alice" 10))) = 100 /\
  healthOf
    (serveAll "alice"
       (callsSince (sceneOf "alice" 10)
          (GameScene.handlePlayerHit "alice" "bob" "projectile_bob_1"
             (sceneOf "alice" 10)))
       (duel 10 100))
    "arena" "alice"
  = Some 90.
Proof.
  apply (lethal_hit_leaves_stored_health_at_90 (sceneOf "alice" 10) (duel 10 100)
           "arena"
           (mkRoom ["alice"; "bob"]%string
              {[ "alice"%string := fighter 10 0; "bob"%string := fighter 100 0 ]}
              readyRoom)
           "bob" "projectile_bob_1" eq_refl); vm_compute; try reflexivity.
  discriminate.
Defined.

(** X22. A position report brings the coordinator back in step: after the
    coordinator handled the call [updatePlayerOnServer] makes, the stored
    position, angle and health of the account are those of the local
    player. *)
Theorem updatePlayerOnServer_stores_local_player
    (s : GameScene.t) (w : World) (rid : string) (r : Room) :
  GameScene.serverInitialized s = true ->
  session w !! GameScene.myAccount s = Some rid ->
  rooms w !! rid = Some r ->
  let me := GameScene.myAccount s in
  let s' := GameScene.updatePlayerOnServer s in
  let w' := serveAll me (callsSince s s') w in
  GameScene.player s' = GameScene.player s /\
  healthOf w' rid me = Some (PlayerEntity.health (GameScene.player s)) /\
  playerOf w' rid me ≫= Player.x = Some (PlayerEntity.x (GameScene.player s)) /\
  playerOf w' rid me ≫= Player.y = Some (PlayerEntity.y (GameScene.player s)) /\
  playerOf w' rid me ≫= Player.angle = Some (PlayerEntity.angle (GameScene.player s)).
Proof.
  intros Hinit Hs Hr me s' w'. subst me s' w'.
  unfold GameScene.updatePlayerOnServer, callsSince. rewrite Hinit.
  cbn [GameScene.remoteFunction GameScene.remoteCalls GameScene.player].
  rewrite drop_app_length, serveAll_one. cbn [serve].
  split; [reflexivity|].
  assert (Hrun : exists p,
            playerOf (exec (updatePlayerPosition (GameScene.myAccount s)
                              (mkPositionData
                                 (Some (PlayerEntity.x (GameScene.player s)))
                                 (Some (PlayerEntity.y (GameScene.player s)))
                                 (Some (PlayerEntity.angle (GameScene.player s)))
                                 (Some (PlayerEntity.health (GameScene.player s))))) w)
              rid (GameScene.myAccount s) =
            Some (Player.mk (Some (PlayerEntity.x (GameScene.player s)))
                    (Some (PlayerEntity.y (GameScene.player s)))
                    (Some (PlayerEntity.angle (GameScene.player s)))
                    (Some (PlayerEntity.health (GameScene.player s)))
                    (Player.score p) (Player.name p))).
  { exists (default emptyPlayer (userStates r !! GameScene.myAccount s)).
    assert (Hcall : forall data,
              updatePlayerPosition (GameScene.myAccount s) data w =
                (Return "success"%string,
                 setRooms
                   (<[rid := mkRoom (members r)
                               (<[GameScene.myAccount s :=
                                    mergePlayer
                                      (Player.mk (data_x data) (data_y data)
                                         (data_angle data) (data_health data) None None)
                                      (default emptyPlayer
                                         (userStates r !! GameScene.myAccount s))]>
                                  (userStates r))
                               (roomState r)]> (rooms w)) w)).
    { intros data. unfold updatePlayerPosition, logged, tryCatch, mbind, M_bind.
      rewrite (updateMyState_run w _ rid r _ Hs Hr). reflexivity. }
    unfold exec. rewrite Hcall. cbn [snd].
    rewrite (playerOf_replaced w rid _ r _ rid _ Hr), decide_True by auto.
    reflexivity. }
  destruct Hrun as [p Hrun]. unfold healthOf. rewrite Hrun.
  repeat split; reflexivity.
Qed.

(** Alice, respawned at 100 while the coordinator stores 90, reports her
    position. *)
Lemma updatePlayerOnServer_witness :
  healthOf
    (serveAll "alice"
       (callsSince (sceneOf "alice" 100)
          (GameScene.updatePlayerOnServer (sceneOf "alice" 100)))
       (duel 90 100))
    "arena" "alice"
  = Some 100.
Proof.
  destruct (updatePlayerOnServer_stores_local_player (sceneOf "alice" 100)
              (duel 90 100) "arena"
              (mkRoom ["alice"; "bob"]%string
                 {[ "alice"%string := fighter 90 0; "bob"%string := fighter 100 0 ]}
                 readyRoom)
              eq_refl)
    as (_ & Hhealth & _); first [exact Hhealth | vm_compute; reflexivity].
Defined.

(** X23. Collecting a powerup on the client: a health powerup raises the
    local health by 25, up to 100, any other type leaves it; once the
    coordinator handled the scene's call no powerup with the collected id is
    left in the room, and the stored player states are what they were: the
    coordinator learns of the healing only from a later position report. *)
Theorem client_collectPowerup_heals_locally
    (s : GameScene.t) (w : World) (rid : string) (r : Room)
    (powerupId powerupType : string) :
  GameScene.serverInitialized s = true ->
  session w !! GameScene.myAccount s = Some rid ->
  rooms w !! rid = Some r ->
  let me := GameScene.myAccount s in
  let s' := GameScene.collectPowerup (Some (powerupId, powerupType)) s in
  let w' := serveAll me (callsSince s s') w in
  PlayerEntity.health (GameScene.player s') =
    (if bool_decide (powerupType = "health"%string)
     then Z.min 100 (PlayerEntity.health (GameScene.player s) + 25)
     else PlayerEntity.health (GameScene.player s)) /\
  (forall p, In p (powerupsOf w' rid) -> Powerup.id p <> powerupId) /\
  (forall rid' id, playerOf w' rid' id = playerOf w rid' id).
Proof.
  intros Hinit Hs Hr me s' w'. subst me s' w'.
  unfold GameScene.collectPowerup, callsSince.
  cbn [GameScene.withPlayer GameScene.serverInitialized]. rewrite Hinit.
  cbn [GameScene.remoteFunction GameScene.remoteCalls GameScene.player
       GameScene.myAccount].
  rewrite drop_app_length, serveAll_one. cbn [serve].
  split.
  { destruct (bool_decide (powerupType = "health"%string)); [reflexivity|].
    destruct (bool_decide (powerupType = "speed"%string)); reflexivity. }
  unfold exec. rewrite (collectPowerup_run w _ rid powerupId r Hs Hr). cbn [snd].
  split.
  - intros p Hin. unfold powerupsOf at 1, roomStateOf in Hin. cbn [rooms] in Hin.
    rewrite lookup_insert_eq in Hin. cbn in Hin.
    apply list_elem_of_In, list_elem_of_filter in Hin. tauto.
  - intros rid' id. unfold playerOf. cbn [rooms].
    destruct (decide (rid = rid')) as [<-|Hne].
    + rewrite lookup_insert_eq, Hr. reflexivity.
    + rewrite lookup_insert_ne by assumption. reflexivity.
Qed.

(** Alice, at 90 on both sides, picks up a health powerup. *)
Lemma client_collectPowerup_witness :
  PlayerEntity.health
    (GameScene.player
       (GameScene.collectPowerup (Some ("powerup_1000"%string, "health"%string))
          (sceneOf "alice" 90))) = 100 /\
  healthOf
    (serveAll "alice"
       (callsSince (sceneOf "alice" 90)
          (GameScene.collectPowerup (Some ("powerup_1000"%string, "health"%string))
             (sceneOf "alice" 90)))
       (duel 90 100))
    "arena" "alice"
  = Some 90.
Proof.
  destruct (client_collectPowerup_heals_locally (sceneOf "alice" 90) (duel 90 100)
              "arena"
              (mkRoom ["alice"; "bob"]%string
                 {[ "alice"%string := fighter 90 0; "bob"%string := fighter 100 0 ]}
                 readyRoom)
              "powerup_1000" "health" eq_refl)
    as (Hlocal & _ & Hplayers);
    first [split; [exact Hlocal | unfold healthOf; rewrite Hplayers; reflexivity]
          | vm_compute; reflexivity].
Defined.

(** ** The other players on the client *)

Lemma updatePlayerState_frame (s : GameScene.t) (e : string * Player.t) :
  GameScene.myAccount (GameScene.updatePlayerState s e) = GameScene.myAccount s /\
  GameScene.player (GameScene.updatePlayerState s e) = GameScene.player s /\
  GameScene.remoteCalls (GameScene.updatePlayerState s e) = GameScene.remoteCalls s.
Proof.
  unfold GameScene.updatePlayerState.
  destruct (bool_decide (fst e = GameScene.myAccount s)); [auto|].
  destruct (Player.x (snd e)); [|auto]. destruct (Player.y (snd e)); [|auto].
  destruct (GameScene.otherPlayers s !! fst e); auto.
Qed.

Lemma updatePlayerStates_frame (l : list (string * Player.t)) (s : GameScene.t) :
  GameScene.myAccount (fold_left GameScene.updatePlayerState l s) = GameScene.myAccount s /\
  GameScene.player (fold_left GameScene.updatePlayerState l s) = GameScene.player s /\
  GameScene.remoteCalls (fold_left GameScene.updatePlayerState l s) = GameScene.remoteCalls s.
Proof.
  revert s. induction l as [|e l IH]; intros s; [auto|].
  cbn [fold_left]. destruct (IH (GameScene.updatePlayerState s e)) as (-> & -> & ->).
  apply updatePlayerState_frame.
Qed.

Lemma updatePlayerState_other (s : GameScene.t) (e : string * Player.t) (id : string) :
  fst e <> id ->
  GameScene.otherPlayers (GameScene.updatePlayerState s e) !! id =
    GameScene.otherPlayers s !! id.
Proof.
  intros Hne. unfold GameScene.updatePlayerState.
  destruct (bool_decide (fst e = GameScene.myAccount s)); [reflexivity|].
  destruct (Player.x (snd e)); [|reflexivity].
  destruct (Player.y (snd e)); [|reflexivity].
  destruct (GameScene.otherPlayers s !! fst e); cbn;
    rewrite lookup_insert_ne by assumption; reflexivity.
Qed.

Lemma updatePlayerStates_other (l : list (string * Player.t)) (s : GameScene.t)
    (id : string) :
  id ∉ l.*1 ->
  GameScene.otherPlayers (fold_left GameScene.updatePlayerState l s) !! id =
    GameScene.otherPlayers s !! id.
Proof.
  revert s. induction l as [|e l IH]; intros s Hnot; [reflexivity|].
  cbn [fold_left]. rewrite fmap_cons, not_elem_of_cons in Hnot.
  destruct Hnot as [Hne Hnot].
  rewrite (IH _ Hnot). apply updatePlayerState_other. congruence.
Qed.

(** The player an entry with a position leaves for its account. *)
Lemma updatePlayerState_entry (s : GameScene.t) (id : string) (st : Player.t) (x y : Z) :
  id <> GameScene.myAccount s ->
  Player.x st = Some x ->
  Player.y st = Some y ->
  GameScene.otherPlayers (GameScene.updatePlayerState s (id, st)) !! id =
    Some match GameScene.otherPlayers s !! id with
         | Some p =>
             PlayerEntity.setHealth (js_or (Player.health st) 100)
               (PlayerEntity.moveTo x y p)
         | None =>
             PlayerEntity.create x y
               (if truthy (Player.name st)
                then default EmptyString (Player.name st) else "Unknown"%string)
         end.
Proof.
  intros Hme Hx Hy. unfold GameScene.updatePlayerState. cbn [fst snd].
  rewrite bool_decide_false by assumption. rewrite Hx, Hy.
  destruct (GameScene.otherPlayers s !! id); cbn; apply lookup_insert_eq.
Qed.

Lemma updatePlayerStates_entry (l : list (string * Player.t)) (s : GameScene.t)
    (id : string) (st : Player.t) (x y : Z) :
  NoDup l.*1 ->
  (id, st) ∈ l ->
  id <> GameScene.myAccount s ->
  Player.x st = Some x ->
  Player.y st = Some y ->
  GameScene.otherPlayers (fold_left GameScene.updatePlayerState l s) !! id =
    Some match GameScene.otherPlayers s !! id with
         | Some p =>
             PlayerEntity.setHealth (js_or (Player.health st) 100)
               (PlayerEntity.moveTo x y p)
         | None =>
             PlayerEntity.create x y
               (if truthy (Player.name st)
                then default EmptyString (Player.name st) else "Unknown"%string)
         end.
Proof.
  revert s. induction l as [|e l IH]; intros s Hnodup Hin Hme Hx Hy.
  - apply elem_of_nil in Hin. contradiction.
  - rewrite fmap_cons in Hnodup. apply NoDup_cons in Hnodup as [Hfresh Hnodup].
    cbn [fold_left]. apply elem_of_cons in Hin as [<- | Hin].
    + cbn [fst] in Hfresh. rewrite (updatePlayerStates_other l _ id Hfresh).
      apply updatePlayerState_entry; assumption.
    + assert (Hne : fst e <> id).
      { intros <-. apply Hfresh. exact (list_elem_of_fmap_2 fst _ _ Hin). }
      rewrite (IH (GameScene.updatePlayerState s e) Hnodup Hin); try assumption.
      * rewrite (updatePlayerState_other s e id Hne). reflexivity.
      * destruct (updatePlayerState_frame s e) as (-> & _). assumption.
Qed.

(** X24. What [updatePlayerStates] shows of another account whose entry
    carries a position, when no account is listed twice: a player that
    existed is sent towards the reported position and shows the reported
    health, except that a missing health or a health of 0 shows as 100; a
    player that did not exist is created at the reported position with
    health 100, whatever health is reported.  In both cases the health shown
    is not 0. *)
Theorem updatePlayerStates_never_shows_zero_health
    (playerStates : list (string * Player.t)) (s : GameScene.t)
    (id : string) (st : Player.t) (x y : Z) :
  NoDup playerStates.*1 ->
  (id, st) ∈ playerStates ->
  id <> GameScene.myAccount s ->
  Player.x st = Some x ->
  Player.y st = Some y ->
  exists shown : PlayerEntity.t,
    GameScene.otherPlayers (GameScene.updatePlayerStates playerStates s) !! id
      = Some shown /\
    match GameScene.otherPlayers s !! id with
    | Some p =>
        PlayerEntity.health shown = js_or (Player.health st) 100 /\
        PlayerEntity.tween shown = Some (x, y) /\
        PlayerEntity.x shown = PlayerEntity.x p /\
        PlayerEntity.y shown = PlayerEntity.y p
    | None =>
        PlayerEntity.health shown = 100 /\
        PlayerEntity.tween shown = None /\
        PlayerEntity.x shown = x /\
        PlayerEntity.y shown = y
    end /\
    PlayerEntity.health shown <> 0.
Proof.
  intros Hnodup Hin Hme Hx Hy.
  pose proof (updatePlayerStates_entry playerStates s id st x y Hnodup Hin Hme Hx Hy)
    as Hentry.
  eexists. split.
  - unfold GameScene.updatePlayerStates. cbn [GameScene.withOtherPlayers GameScene.otherPlayers].
    apply map_lookup_filter_Some. split; [exact Hentry|].
    cbn [fst]. exact (list_elem_of_fmap_2 fst _ _ Hin).
  - destruct (GameScene.otherPlayers s !! id) as [p|]; cbn.
    + split; [auto|]. unfold js_or.
      destruct (Player.health st) as [h|]; [|discriminate].
      destruct (Z.eqb_spec h 0); [discriminate | assumption].
    + split; [auto | discriminate].
Qed.

(** Alice's scene shows Bob at 40; the room reports Bob at health 0. *)
Lemma updatePlayerStates_zero_health_witness :
  exists shown : PlayerEntity.t,
    GameScene.otherPlayers
      (GameScene.updatePlayerStates
         [("alice"%string, fighter 100 0); ("bob"%string, fighter 0 0)]
         (sceneWithBob 40)) !! "bob"%string = Some shown /\
    PlayerEntity.health shown = 100.
Proof.
  destruct (updatePlayerStates_never_shows_zero_health
              [("alice"%string, fighter 100 0); ("bob"%string, fighter 0 0)]
              (sceneWithBob 40) "bob" (fighter 0 0) 500 700)
    as (shown & Hshown & Hhealth & _);
    first [ exists shown; split;
            [exact Hshown | vm_compute in Hhealth; exact (proj1 Hhealth)]
          | compute_done
          | reflexivity
          | discriminate
          | repeat constructor ].
Defined.

Lemma updatePlayerState_present (s : GameScene.t) (e : string * Player.t) (id : string) :
  is_Some (GameScene.otherPlayers (GameScene.updatePlayerState s e) !! id) ->
  is_Some (GameScene.otherPlayers s !! id) \/
  (id = fst e /\ id <> GameScene.myAccount s /\
   is_Some (Player.x (snd e)) /\ is_Some (Player.y (snd e))).
Proof.
  destruct (decide (fst e = id)) as [<- | Hne];
    [|rewrite (updatePlayerState_other s e id Hne); auto].
  unfold GameScene.updatePlayerState.
  destruct (bool_decide (fst e = GameScene.myAccount s)) eqn:Hme; [auto|].
  apply bool_decide_eq_false in Hme.
  destruct (Player.x (snd e)); [|auto]. destruct (Player.y (snd e)); [|auto].
  intros _. right. repeat split; eauto.
Qed.

Lemma updatePlayerStates_present (l : list (string * Player.t)) (s : GameScene.t)
    (id : string) :
  is_Some (GameScene.otherPlayers (fold_left GameScene.updatePlayerState l s) !! id) ->
  is_Some (GameScene.otherPlayers s !! id) \/
  (id <> GameScene.myAccount s /\
   exists st, (id, st) ∈ l /\ is_Some (Player.x st) /\ is_Some (Player.y st)).
Proof.
  revert s. induction l as [|e l IH]; intros s; [auto|].
  cbn [fold_left]. intros Hsome.
  destruct (updatePlayerState_frame s e) as (Hme & _).
  destruct (IH _ Hsome) as [Hbefore | (Hne & st & Hin & Hx & Hy)].
  - destruct (updatePlayerState_present s e id Hbefore)
      as [? | (-> & Hne & Hx & Hy)]; [auto|].
    right. split; [assumption|]. exists (snd e).
    split; [|auto]. destruct e. apply elem_of_cons. auto.
  - right. rewrite Hme in Hne. split; [assumption|]. exists st.
    split; [|auto]. apply elem_of_cons. auto.
Qed.

(** X25. [updatePlayerStates] touches nothing but the other players: the
    local player and the remote calls made stay as they are.  When the
    scene's own account was not among the other players it is not among them
    afterwards, and every player that is shown afterwards belongs to an
    account of the array and either was shown before or has an entry with a
    position; a player whose account is not in the array is gone. *)
Theorem updatePlayerStates_shows_only_listed_accounts
    (playerStates : list (string * Player.t)) (s : GameScene.t) :
  GameScene.otherPlayers s !! GameScene.myAccount s = None ->
  let s' := GameScene.updatePlayerStates playerStates s in
  GameScene.player s' = GameScene.player s /\
  GameScene.remoteCalls s' = GameScene.remoteCalls s /\
  GameScene.otherPlayers s' !! GameScene.myAccount s = None /\
  forall id,
    is_Some (GameScene.otherPlayers s' !! id) ->
    id ∈ playerStates.*1 /\
    (is_Some (GameScene.otherPlayers s !! id) \/
     exists st, (id, st) ∈ playerStates /\
                is_Some (Player.x st) /\ is_Some (Player.y st)).
Proof.
  intros Hown s'. subst s'. unfold GameScene.updatePlayerStates.
  cbn [GameScene.withOtherPlayers GameScene.player GameScene.remoteCalls
       GameScene.otherPlayers].
  destruct (updatePlayerStates_frame playerStates s) as (_ & -> & ->).
  split; [reflexivity|]. split; [reflexivity|].
  assert (Hshown : forall id,
            is_Some (filter (fun entry : string * PlayerEntity.t =>
                               fst entry ∈ playerStates.*1)
                       (GameScene.otherPlayers
                          (fold_left GameScene.updatePlayerState playerStates s))
                     !! id) ->
            id ∈ playerStates.*1 /\
            (is_Some (GameScene.otherPlayers s !! id) \/
             (id <> GameScene.myAccount s /\
              exists st, (id, st) ∈ playerStates /\
                         is_Some (Player.x st) /\ is_Some (Player.y st)))).
  { intros id [p Hp]. apply map_lookup_filter_Some in Hp as [Hp Hlisted].
    split; [exact Hlisted|].
    apply updatePlayerStates_present. rewrite Hp. eauto. }
  split.
  - apply eq_None_not_Some. intros Hsome.
    destruct (Hshown _ Hsome) as [_ [Hbefore | [Hne _]]].
    + rewrite Hown in Hbefore. destruct Hbefore; discriminate.
    + contradiction.
  - intros id Hsome. destruct (Hshown id Hsome) as [Hlisted [Hbefore | [_ Hentry]]];
      auto.
Qed.

(** Alice's scene shows Bob; the room reports Alice alone. *)
Lemma updatePlayerStates_listed_witness :
  GameScene.otherPlayers
    (GameScene.updatePlayerStates [("alice"%string, fighter 100 0)] (sceneWithBob 40))
    !! "alice"%string = None /\
  ~ is_Some
      (GameScene.otherPlayers
         (GameScene.updatePlayerStates [("alice"%string, fighter 100 0)]
            (sceneWithBob 40)) !! "bob"%string).
Proof.
  destruct (updatePlayerStates_shows_only_listed_accounts
              [("alice"%string, fighter 100 0)] (sceneWithBob 40) eq_refl)
    as (_ & _ & Hown & Hlisted).
  split; [exact Hown|].
  intros Hbob. destruct (Hlisted "bob"%string Hbob) as [Hin _].
  apply list_elem_of_singleton in Hin. discriminate Hin.
Defined.

(** ** The obstacles on the client *)

Lemma borderLoop_onBorder (fuel : nat) (i : Z) (obs : list (Z * Z)) :
  Forall onBorder obs -> Forall onBorder (GameScene.borderLoop fuel i obs).
Proof.
  revert i obs. induction fuel as [|n IH]; intros i obs Hobs; [exact Hobs|].
  cbn [GameScene.borderLoop]. destruct (i <? 2000); [|exact Hobs].
  apply IH. apply Forall_app. split; [exact Hobs|].
  repeat (apply List.Forall_cons; [unfold onBorder; cbn; tauto|]).
  apply List.Forall_nil.
Qed.

Lemma obstacles_added (obstacleData : list Obstacle.t) (s : GameScene.t) :
  fold_left
    (fun s' data =>
       GameScene.withObstacles
         (GameScene.obstacles s' ++ [(Obstacle.x data, Obstacle.y data)]) s')
    obstacleData s
  = GameScene.withObstacles (GameScene.obstacles s ++ (positionOf <$> obstacleData)) s.
Proof.
  revert s. induction obstacleData as [|o l IH]; intros s.
  - cbn. rewrite app_nil_r. destruct s; reflexivity.
  - cbn [fold_left]. rewrite IH. destruct s. cbn. rewrite <- app_assoc. reflexivity.
Qed.

Lemma createObstaclesFromServer_run (layout : list Obstacle.t) (s : GameScene.t) :
  GameScene.assetsLoaded s = true ->
  GameScene.obstaclesCreated s = false ->
  GameScene.createObstaclesFromServer layout s =
    GameScene.markObstaclesCreated
      (GameScene.withObstacles
         (GameScene.borderLoop 40 0 [] ++ (positionOf <$> layout)) s).
Proof.
  intros Hloaded Hfresh. unfold GameScene.createObstaclesFromServer.
  rewrite Hloaded, Hfresh. cbn [negb orb]. rewrite obstacles_added.
  destruct s. reflexivity.
Qed.

(** X26. The scene builds its obstacles once: with the assets loaded and no
    obstacles built yet, [createObstaclesFromServer] leaves the 160 obstacles
    of the border followed by one obstacle per entry of the layout, in the
    layout's order; any later call, whatever layout it brings, changes
    nothing. *)
Theorem createObstaclesFromServer_first_layout_wins
    (first later : list Obstacle.t) (s : GameScene.t) :
  GameScene.assetsLoaded s = true ->
  GameScene.obstaclesCreated s = false ->
  let s1 := GameScene.createObstaclesFromServer first s in
  GameScene.obstacles s1 = GameScene.borderLoop 40 0 [] ++ (positionOf <$> first) /\
  length (GameScene.obstacles s1) = (160 + length first)%nat /\
  GameScene.createObstaclesFromServer later s1 = s1.
Proof.
  intros Hloaded Hfresh s1. subst s1.
  rewrite (createObstaclesFromServer_run first s Hloaded Hfresh).
  split; [reflexivity|]. split.
  - cbn [GameScene.markObstaclesCreated GameScene.withObstacles GameScene.obstacles].
    rewrite length_app, length_fmap. reflexivity.
  - unfold GameScene.createObstaclesFromServer at 1.
    cbn [GameScene.markObstaclesCreated GameScene.obstaclesCreated].
    rewrite orb_true_r. reflexivity.
Qed.

(** Alice's scene receives a layout of one obstacle, then one of two. *)
Lemma createObstaclesFromServer_witness :
  length
    (GameScene.obstacles
       (GameScene.createObstaclesFromServer [Obstacle.mk 300 400] (sceneOf "alice" 100)))
  = 161%nat /\
  GameScene.createObstaclesFromServer [Obstacle.mk 500 600; Obstacle.mk 700 800]
    (GameScene.createObstaclesFromServer [Obstacle.mk 300 400] (sceneOf "alice" 100))
  = GameScene.createObstaclesFromServer [Obstacle.mk 300 400] (sceneOf "alice" 100).
Proof.
  destruct (createObstaclesFromServer_first_layout_wins
              [Obstacle.mk 300 400] [Obstacle.mk 500 600; Obstacle.mk 700 800]
              (sceneOf "alice" 100) eq_refl eq_refl)
    as (_ & Hlength & Hlater).
  split; [exact Hlength | exact Hlater].
Defined.

(** X27. The layout the coordinator generates never reaches the border the
    client draws: when every draw of [Math.random] lies between 0 (included)
    and 1 (excluded), a scene that builds its obstacles from the layout of
    [generateObstacles] holds 190 obstacles, of which the first 160 lie on
    the lines 0 and 2000 and the other 30 have both coordinates between 100
    and 1899. *)
Theorem generated_layout_stays_inside_border (w : World) (s : GameScene.t) :
  unitDraws w ->
  GameScene.assetsLoaded s = true ->
  GameScene.obstaclesCreated s = false ->
  exists layout,
    eval generateObstacles w = Return layout /\
    let s1 := GameScene.createObstaclesFromServer layout s in
    length (GameScene.obstacles s1) = 190%nat /\
    Forall onBorder (take 160 (GameScene.obstacles s1)) /\
    Forall (fun pos => inArena (fst pos) /\ inArena (snd pos))
      (drop 160 (GameScene.obstacles s1)).
Proof.
  intros Hunit Hloaded Hfresh. unfold eval. rewrite generateObstacles_run.
  eexists. split; [reflexivity|]. cbn zeta.
  rewrite (createObstaclesFromServer_run _ s Hloaded Hfresh).
  cbn [GameScene.markObstaclesCreated GameScene.withObstacles GameScene.obstacles].
  assert (Hborder : length (GameScene.borderLoop 40 0 []) = 160%nat) by reflexivity.
  split; [|split].
  - rewrite length_app, length_fmap, Hborder, drawnObstacles_length. reflexivity.
  - rewrite take_app_length' by exact Hborder.
    apply borderLoop_onBorder. constructor.
  - rewrite drop_app_length' by exact Hborder.
    apply Forall_forall. intros pos Hin.
    apply list_elem_of_fmap_1 in Hin as (o & -> & Ho).
    apply list_elem_of_In in Ho.
    exact (drawnObstacles_inArena _ _ _ Hunit o Ho).
Qed.

(** A source that alternates between 1/2 and 3/4. *)
Lemma generated_layout_witness :
  exists layout,
    eval generateObstacles
      (mkWorld ∅ ∅ (fun _ => EmptyString) 0 (fun _ => 0) 0
         (fun n => if Nat.even n then (1 # 2)%Q else (3 # 4)%Q) 0 [] []) = Return layout /\
    length
      (GameScene.obstacles
         (GameScene.createObstaclesFromServer layout (sceneOf "alice" 100))) = 190%nat.
Proof.
  destruct (generated_layout_stays_inside_border
              (mkWorld ∅ ∅ (fun _ => EmptyString) 0 (fun _ => 0) 0
                 (fun n => if Nat.even n then (1 # 2)%Q else (3 # 4)%Q) 0 [] [])
              (sceneOf "alice" 100))
    as (layout & Hlayout & Hlength & _).
  - intros n. cbn. destruct (Nat.even n); split; vm_compute; congruence.
  - reflexivity.
  - reflexivity.
  - exists layout. split; [exact Hlayout | exact Hlength].
Defined.
